(** * libnetwork/datastore: the Store facade over a BackingStore and a Cache

    A shallow embedding of [libnetwork/datastore/datastore.go].  The Go
    methods mutate the receiver [*Store] and the [KVObject] they are handed;
    here every method takes the store (and the object) and returns the error
    together with the store (and the object) as the call leaves them.

    The key-value backend ([store.Store] of package [kvstore]) and the
    objects ([KVObject], [KVConstructor]) are interfaces in the source and are
    type classes here.  The cache ([cache.go]) is not part of the sources at
    hand and is modelled from the specification. *)

From Stdlib Require Import ZArith Lia Strings.Byte Strings.Ascii.
From stdpp Require Import base option list strings gmap fin_maps.

(** ** Package kvstore: errors, pairs and the backend interface *)

Module kvstore.

(** Modelled from the spec: Go's [error] values as far as the datastore
    tells them apart.  The declarations of package [kvstore] are not among
    the sources; these are the three sentinels the datastore names
    ([store.ErrKeyModified], [store.ErrKeyNotFound], [store.ErrKeyExists]),
    the bad-request errors of package [types], the errors built with
    [fmt.Errorf], and any other failure a backend may report. *)
Inductive error : Type :=
| ErrKeyModified
| ErrKeyNotFound
| ErrKeyExists
| BadRequestErrorf (msg : string)
| Errorf (msg : string)
| BackendFailure (msg : string).

#[global] Instance error_eq_dec : EqDecision error.
Proof. solve_decision. Defined.

#[global] Instance byte_eq_dec : EqDecision Byte.byte := Byte.byte_eq_dec.

(** Modelled from the spec: [store.KVPair], declared in package [kvstore],
    with the fields the datastore reads and writes: a key, its value and the
    version the backend gave it. *)
Record KVPair : Type := mkKVPair {
  Key : string;
  Value : list Byte.byte;
  LastIndex : Z
}.

#[global] Instance KVPair_eq_dec : EqDecision KVPair.
Proof. solve_decision. Defined.

(** Modelled from the spec: [store.Config], declared in package [kvstore],
    with the two fields the datastore sets; [ConnectionTimeout] is a
    [time.Duration] in nanoseconds. *)
Record Config : Type := mkConfig {
  Bucket : string;
  ConnectionTimeout : Z
}.

(** Modelled from the spec: the constant [store.BOLTDB] of package
    [kvstore], the name of the embedded single-node backend. *)
Definition BOLTDB : string := "boltdb".

(** Modelled from the spec: the [store.Store] interface of package
    [kvstore] (the BackingStore capability of section 6), with the methods
    the datastore calls.  A backend of state [B] answers each method with
    its result and its next state. *)
Class Store (B : Type) : Type := {
  Get : string -> B -> (error + KVPair) * B;
  Put : string -> list Byte.byte -> B -> option error * B;
  Exists : string -> B -> (error + bool) * B;
  List : string -> B -> (error + list KVPair) * B;
  AtomicPut : string -> list Byte.byte -> option KVPair -> B -> (error + KVPair) * B;
  AtomicDelete : string -> option KVPair -> B -> option error * B;
  Close : B -> B
}.

(** One method call on a backend, with its arguments. *)
Inductive Call : Type :=
| CallGet (key : string)
| CallPut (key : string) (value : list Byte.byte)
| CallExists (key : string)
| CallList (directory : string)
| CallAtomicPut (key : string) (value : list Byte.byte) (previous : option KVPair)
| CallAtomicDelete (key : string) (previous : option KVPair)
| CallClose.

#[global] Instance Call_eq_dec : EqDecision Call.
Proof. solve_decision. Defined.

End kvstore.

Module scope.
(** Modelled from the spec: the constants of package [scope], the placement
    classes of a store ("local" or "global"). *)
Definition Local : string := "local".
Definition Global : string := "global".
End scope.

Abbreviation error := kvstore.error.
Abbreviation KVPair := kvstore.KVPair.

(** [ErrKeyModified] and [ErrKeyNotFound] are the backend's own sentinels. *)
Definition ErrKeyModified : error := kvstore.ErrKeyModified.
Definition ErrKeyNotFound : error := kvstore.ErrKeyNotFound.

(** ** The object contracts *)

Module KVObject.

(** The [KVObject] interface.  [Value] is [None] for a nil slice;
    [SetValue] and [SetIndex] mutate the object, so they return it;
    [Index] is a [uint64]. *)
Class t (O : Type) : Type := {
  Key : O -> list string;
  KeyPrefix : O -> list string;
  Value : O -> option (list Byte.byte);
  SetValue : list Byte.byte -> O -> option error * O;
  Index : O -> Z;
  SetIndex : Z -> O -> O;
  Exists : O -> bool;
  DataScope : O -> string;
  Skip : O -> bool
}.

(** What the interface's comments promise of the version setter: it
    records the index ("When SetIndex() is called, the object has been
    stored") and leaves identity, content and persistence policy alone. *)
Class Laws (O : Type) `{t O} : Prop := {
  Index_SetIndex : forall v o, Index (SetIndex v o) = v;
  Exists_SetIndex : forall v o, Exists (SetIndex v o) = true;
  Key_SetIndex : forall v o, Key (SetIndex v o) = Key o;
  Value_SetIndex : forall v o, Value (SetIndex v o) = Value o;
  Skip_SetIndex : forall v o, Skip (SetIndex v o) = Skip o
}.

End KVObject.

Module KVConstructor.

(** The [KVConstructor] interface as seen from one object: [New] is the
    fresh object it builds, [CopyTo] copies it over a destination. *)
Record t (O : Type) : Type := mk {
  New : O;
  CopyTo : O -> option error * O
}.
Arguments mk {O}.
Arguments New {O}.
Arguments CopyTo {O}.

(** The type assertion [kvObject.(KVConstructor)]: [None] when the
    object's type does not implement the interface. *)
Class Assert (O : Type) : Type := assert : O -> option (t O).

End KVConstructor.

(** ** Constants and key construction *)

Definition NetworkKeyPrefix : string := "network".
Definition EndpointKeyPrefix : string := "endpoint".

Definition defaultRootChain : list string := ["docker"; "network"; "v1.0"].
Definition rootChain : list string := defaultRootChain.

Definition defaultPrefix : string := "/var/lib/docker/network/files".

(** [Key]: every part of the root chain, then every part of the key, each
    followed by a slash. *)
Definition Key (key : list string) : string :=
  fold_left
    (fun b parts => fold_left (fun b part => (b +:+ part) +:+ "/") parts b)
    [rootChain; key] "".

(** [strings.Trim(s, "/")] for a one-byte cutset: the bytes equal to [c] are
    cut from both ends. *)
Fixpoint TrimLeft (c : Ascii.ascii) (s : string) : string :=
  match s with
  | EmptyString => EmptyString
  | String a s' => if Ascii.eqb a c then TrimLeft c s' else s
  end.

Fixpoint TrimRight (c : Ascii.ascii) (s : string) : string :=
  match s with
  | EmptyString => EmptyString
  | String a s' =>
      match TrimRight c s' with
      | EmptyString => if Ascii.eqb a c then EmptyString else String a EmptyString
      | t => String a t
      end
  end.

Definition Trim (s : string) (c : Ascii.ascii) : string := TrimLeft c (TrimRight c s).

(** [strings.Split(s, sep)] for a one-byte separator. *)
Fixpoint Split (s : string) (sep : Ascii.ascii) : list string :=
  match s with
  | EmptyString => [EmptyString]
  | String a s' =>
      if Ascii.eqb a sep then EmptyString :: Split s' sep
      else match Split s' sep with
           | h :: t => String a h :: t
           | [] => [String a EmptyString]
           end
  end.

(** ** Configuration *)

Record ScopeClientCfg : Type := mkScopeClientCfg {
  Provider : string;
  Address : string;
  Config : option kvstore.Config
}.

Record ScopeCfg : Type := mkScopeCfg {
  Client : ScopeClientCfg
}.

(** [time.Minute], in nanoseconds. *)
Definition Minute : Z := 60000000000.

Definition DefaultScope (dataDir : string) : ScopeCfg :=
  let dbpath :=
    if String.eqb dataDir "" then defaultPrefix +:+ "/local-kv.db"
    else dataDir +:+ "/network/files/local-kv.db" in
  {| Client := {| Provider := kvstore.BOLTDB;
                  Address := dbpath;
                  Config := Some {| kvstore.Bucket := "libnetwork";
                                    kvstore.ConnectionTimeout := Minute |} |} |}.

(** ** The Cache *)

(** [uint64] arithmetic wraps around. *)
Definition uint64 (z : Z) : Z := z mod 2 ^ 64.

(** Modelled from the spec: one entry of the Cache's mirror, "an in-process
    map from full key to (serialized value, version, scope, type exemplar)";
    [cache.go] is missing from the sources.  One object type stands for all
    here, so the exemplar is the one [cache_list] is called with. *)
Record entry : Type := mkEntry {
  mirrorValue : list Byte.byte;
  mirrorVersion : Z;
  mirrorScope : string
}.

#[global] Instance entry_eq_dec : EqDecision entry.
Proof. solve_decision. Defined.

(** Modelled from the spec: the Cache, keyed by the full rendered key;
    [cache.go] is missing from the sources. *)
Abbreviation Cache := (gmap string entry).

Section Datastore.

Context {B : Type} `{!kvstore.Store B}.
Context {O : Type} `{!KVObject.t O} `{!KVConstructor.Assert O}.

(** The deep copy the mirror keeps of an object, at a given version. *)
Definition mirror (obj : O) (version : Z) : entry :=
  {| mirrorValue := default [] (KVObject.Value obj);
     mirrorVersion := version;
     mirrorScope := KVObject.DataScope obj |}.

(** The version the Cache holds for a key; an absent key counts as
    version zero ("Zero/absent means never persisted"). *)
Definition cachedVersion (c : Cache) (k : string) : Z :=
  match c !! k with
  | Some e => mirrorVersion e
  | None => 0
  end.

(** Modelled from the spec: [cache.add], missing from the sources.  With
    [skipPersist] false the call mirrors a write the backend has accepted:
    the object's version is stored as it is.  With [skipPersist] true the
    Cache is the arbiter: the claimed version must be the cached one, and
    the object is stamped with the next one. *)
Definition cache_add (c : Cache) (obj : O) (skipPersist : bool)
  : option error * O * Cache :=
  let k := Key (KVObject.Key obj) in
  if skipPersist then
    let currentVersion := cachedVersion c k in
    if decide (KVObject.Index obj = currentVersion) then
      let version := uint64 (currentVersion + 1) in
      let obj' := KVObject.SetIndex version obj in
      (None, obj', <[k := mirror obj' version]> c)
    else (Some ErrKeyModified, obj, c)
  else (None, obj, <[k := mirror obj (KVObject.Index obj)]> c).

(** Modelled from the spec: [cache.get], missing from the sources.  A hit
    hydrates the object with [SetValue] and [SetIndex] from the mirror; a
    miss is not-found. *)
Definition cache_get (c : Cache) (obj : O) : option error * O :=
  match c !! Key (KVObject.Key obj) with
  | None => (Some ErrKeyNotFound, obj)
  | Some e =>
      match KVObject.SetValue (mirrorValue e) obj with
      | (Some err, obj') => (Some err, obj')
      | (None, obj') => (None, KVObject.SetIndex (mirrorVersion e) obj')
      end
  end.

(** A fresh object of the exemplar's type hydrated from a stored value and
    version: [ctor.New()], [SetValue], [SetIndex], as in the loop of
    [iterateKVPairsFromStore]. *)
Definition materialize (ctor : KVConstructor.t O) (value : list Byte.byte)
    (version : Z) : error + O :=
  match KVObject.SetValue value (KVConstructor.New ctor) with
  | (Some err, _) => inl err
  | (None, dstO) => inr (KVObject.SetIndex version dstO)
  end.

Fixpoint materializeAll (ctor : KVConstructor.t O) (es : list (string * entry))
  : error + list O :=
  match es with
  | [] => inr []
  | (_, e) :: rest =>
      match materialize ctor (mirrorValue e) (mirrorVersion e) with
      | inl err => inl err
      | inr o =>
          match materializeAll ctor rest with
          | inl err => inl err
          | inr os => inr (o :: os)
          end
      end
  end.

(** Modelled from the spec: [cache.list], missing from the sources: the
    entries whose key falls under the exemplar's prefix, each built with
    the exemplar's [KVConstructor]; an exemplar without that capability is
    a contract violation. *)
Definition cache_list (c : Cache) (exemplar : O) : error + list O :=
  match KVConstructor.assert exemplar with
  | None => inl (kvstore.Errorf "error listing objects, object does not implement KVConstructor interface")
  | Some ctor =>
      materializeAll ctor
        (List.filter (fun kv => String.prefix (Key (KVObject.KeyPrefix exemplar)) (fst kv))
           (map_to_list c))
  end.

(** Modelled from the spec: [cache.del], missing from the sources.  A key
    the Cache does not hold is left alone and the call succeeds; for a
    skip-persistence object the Cache checks the claimed version as it
    does in [cache_add]. *)
Definition cache_del (c : Cache) (obj : O) (skipPersist : bool)
  : option error * Cache :=
  let k := Key (KVObject.Key obj) in
  match c !! k with
  | None => (None, c)
  | Some e =>
      if skipPersist && negb (bool_decide (KVObject.Index obj = mirrorVersion e))
      then (Some ErrKeyModified, c)
      else (None, delete k c)
  end.

(** ** The Store *)

(** The [Store] struct (its mutex left out: every method runs under it
    from start to end).  [calls] is not a field of the source: it logs the
    backend methods invoked through this Store, oldest first. *)
Record Store : Type := mkStore {
  scope : string;
  store : B;
  cache : option Cache;
  calls : list kvstore.Call
}.

(** Modelled from the spec: [newCache], missing from the sources: an
    empty mirror. *)
Definition newCache (ds : Store) : Cache := ∅.

Definition withCache (c : option Cache) (ds : Store) : Store :=
  {| scope := scope ds; store := store ds; cache := c; calls := calls ds |}.

(** A backend method run through the Store: the backend moves to its next
    state and the call is logged. *)
Definition invoke {A : Type} (call : kvstore.Call) (m : B -> A * B) (ds : Store)
  : A * Store :=
  let '(r, b) := m (store ds) in
  (r, {| scope := scope ds; store := b; cache := cache ds;
         calls := calls ds ++ [call] |}).

Definition storeGet (key : string) :=
  invoke (kvstore.CallGet key) (kvstore.Get key).
Definition storePut (key : string) (value : list Byte.byte) :=
  invoke (kvstore.CallPut key value) (kvstore.Put key value).
Definition storeExists (key : string) :=
  invoke (kvstore.CallExists key) (kvstore.Exists key).
Definition storeList (directory : string) :=
  invoke (kvstore.CallList directory) (kvstore.List directory).
Definition storeAtomicPut (key : string) (value : list Byte.byte) (previous : option KVPair) :=
  invoke (kvstore.CallAtomicPut key value previous) (kvstore.AtomicPut key value previous).
Definition storeAtomicDelete (key : string) (previous : option KVPair) :=
  invoke (kvstore.CallAtomicDelete key previous) (kvstore.AtomicDelete key previous).

Definition Close (ds : Store) : Store :=
  {| scope := scope ds; store := kvstore.Close (store ds); cache := cache ds;
     calls := calls ds ++ [kvstore.CallClose] |}.

Definition Scope (ds : Store) : string := scope ds.

(** The backend's key-exists error is reported as [ErrKeyModified]; any
    other error is returned as it is. *)
Definition reported (err : error) : error :=
  if decide (err = kvstore.ErrKeyExists) then ErrKeyModified else err.

(** The previous-version token of an atomic put or delete. *)
Definition token (kvObject : O) : KVPair :=
  {| kvstore.Key := Key (KVObject.Key kvObject);
     kvstore.Value := [];
     kvstore.LastIndex := KVObject.Index kvObject |}.

(** The [add_cache] label of [PutObjectAtomic]. *)
Definition add_cache (kvObject : O) (ds : Store) : option error * option O * Store :=
  match cache ds with
  | Some c =>
      let '(err, kvObject', c') := cache_add c kvObject (KVObject.Skip kvObject) in
      (err, Some kvObject', withCache (Some c') ds)
  | None => (None, Some kvObject, ds)
  end.

(** [PutObjectAtomic]; a nil object is [None]. *)
Definition PutObjectAtomic (kvObject : option O) (ds : Store)
  : option error * option O * Store :=
  match kvObject with
  | None => (Some (kvstore.BadRequestErrorf "invalid KV Object : nil"), None, ds)
  | Some o =>
      match KVObject.Value o with
      | None =>
          (Some (kvstore.BadRequestErrorf
                   ("invalid KV Object with a nil Value for key " +:+ Key (KVObject.Key o))),
           Some o, ds)
      | Some kvObjValue =>
          if KVObject.Skip o then add_cache o ds
          else
            let previous := if KVObject.Exists o then Some (token o) else None in
            match storeAtomicPut (Key (KVObject.Key o)) kvObjValue previous ds with
            | (inl err, ds') => (Some (reported err), Some o, ds')
            | (inr pair', ds') =>
                add_cache (KVObject.SetIndex (kvstore.LastIndex pair') o) ds'
            end
      end
  end.

(** [GetObject]. *)
Definition GetObject (key : string) (o : O) (ds : Store) : option error * O * Store :=
  match cache ds with
  | Some c => let '(err, o') := cache_get c o in (err, o', ds)
  | None =>
      match storeGet key ds with
      | (inl err, ds') => (Some err, o, ds')
      | (inr kvPair, ds') =>
          match KVObject.SetValue (kvstore.Value kvPair) o with
          | (Some err, o') => (Some err, o', ds')
          | (None, o') => (None, KVObject.SetIndex (kvstore.LastIndex kvPair) o', ds')
          end
      end
  end.

(** [ensureParent]. *)
Definition ensureParent (parent : string) (ds : Store) : option error * Store :=
  match storeExists parent ds with
  | (inl err, ds') => (Some err, ds')
  | (inr true, ds') => (None, ds')
  | (inr false, ds') => storePut parent [] ds'
  end.

(** The pairs the enumeration keeps: those whose value has a length other
    than zero. *)
Definition nonEmpty (kvPair : KVPair) : bool :=
  negb (length (kvstore.Value kvPair) =? 0)%nat.

(** The loop of [iterateKVPairsFromStore] over the listed pairs; the
    callback updates the variable [acc] it closes over. *)
Fixpoint iteratePairs {A : Type} (ctor : KVConstructor.t O)
    (callback : string -> O -> A -> A) (kvList : list KVPair) (acc : A)
  : option error * A :=
  match kvList with
  | [] => (None, acc)
  | kvPair :: rest =>
      if (length (kvstore.Value kvPair) =? 0)%nat
      then iteratePairs ctor callback rest acc
      else
        match materialize ctor (kvstore.Value kvPair) (kvstore.LastIndex kvPair) with
        | inl err => (Some err, acc)
        | inr dstO => iteratePairs ctor callback rest (callback (kvstore.Key kvPair) dstO acc)
        end
  end.

(** [iterateKVPairsFromStore]. *)
Definition iterateKVPairsFromStore {A : Type} (key : string) (kvObject : O)
    (callback : string -> O -> A -> A) (acc : A) (ds : Store)
  : option error * A * Store :=
  match KVConstructor.assert kvObject with
  | None =>
      (Some (kvstore.Errorf "error listing objects, object does not implement KVConstructor interface"),
       acc, ds)
  | Some ctor =>
      match ensureParent key ds with
      | (Some err, ds1) => (Some err, acc, ds1)
      | (None, ds1) =>
          match storeList key ds1 with
          | (inl err, ds2) => (Some err, acc, ds2)
          | (inr kvList, ds2) =>
              let '(err, acc') := iteratePairs ctor callback kvList acc in
              (err, acc', ds2)
          end
      end
  end.

(** [List]. *)
Definition List (key : string) (kvObject : O) (ds : Store)
  : (error + list O) * Store :=
  match cache ds with
  | Some c => (cache_list c kvObject, ds)
  | None =>
      let cb := fun (key : string) (val : O) (kvol : list O) => kvol ++ [val] in
      match iterateKVPairsFromStore key kvObject cb [] ds with
      | (Some err, _, ds') => (inl err, ds')
      | (None, kvol, ds') => (inr kvol, ds')
      end
  end.

(** [Map]. *)
Definition Map (key : string) (kvObject : O) (ds : Store)
  : (error + gmap string O) * Store :=
  let cb := fun (key : string) (val : O) (kvol : gmap string O) =>
              <[Trim key "/" := val]> kvol in
  match iterateKVPairsFromStore key kvObject cb ∅ ds with
  | (Some err, _, ds') => (inl err, ds')
  | (None, kvol, ds') => (inr kvol, ds')
  end.

(** The [deleteCache] label of [DeleteObjectAtomic]. *)
Definition deleteCache (kvObject : O) (ds : Store) : option error * Store :=
  match cache ds with
  | Some c =>
      let '(err, c') := cache_del c kvObject (KVObject.Skip kvObject) in
      (err, withCache (Some c') ds)
  | None => (None, ds)
  end.

(** [DeleteObjectAtomic]; a nil object is [None]. *)
Definition DeleteObjectAtomic (kvObject : option O) (ds : Store)
  : option error * Store :=
  match kvObject with
  | None => (Some (kvstore.BadRequestErrorf "invalid KV Object : nil"), ds)
  | Some o =>
      let previous := Some (token o) in
      if KVObject.Skip o then deleteCache o ds
      else
        match storeAtomicDelete (Key (KVObject.Key o)) previous ds with
        | (Some err, ds') => (Some (reported err), ds')
        | (None, ds') => deleteCache o ds'
        end
  end.

(** ** Runs of a Store *)

(** The calls a client makes on a Store. *)
Inductive request : Type :=
| ReqPut (kvObject : option O)
| ReqGet (key : string) (o : O)
| ReqList (key : string) (kvObject : O)
| ReqMap (key : string) (kvObject : O)
| ReqDelete (kvObject : option O)
| ReqClose.

(** The Store as a request leaves it. *)
Definition serve (ds : Store) (r : request) : Store :=
  match r with
  | ReqPut kvObject => snd (PutObjectAtomic kvObject ds)
  | ReqGet key o => snd (GetObject key o ds)
  | ReqList key kvObject => snd (List key kvObject ds)
  | ReqMap key kvObject => snd (Map key kvObject ds)
  | ReqDelete kvObject => snd (DeleteObjectAtomic kvObject ds)
  | ReqClose => Close ds
  end.

Definition run (ds : Store) (reqs : list request) : Store := fold_left serve reqs ds.

(** Successive [PutObjectAtomic] calls, each on the Store the one before
    left; [None] as soon as one of them fails. *)
Fixpoint putAll (ds : Store) (objs : list O) : option (list O * Store) :=
  match objs with
  | [] => Some ([], ds)
  | obj :: rest =>
      match PutObjectAtomic (Some obj) ds with
      | (None, Some obj', ds') =>
          match putAll ds' rest with
          | Some (objs', ds'') => Some (obj' :: objs', ds'')
          | None => None
          end
      | _ => None
      end
  end.

(** ** The backend as it can be observed *)

(** The pair a backend holds under a key: the one its [Get] reports, if it
    reports one. *)
Definition held (b : B) (k : string) : option KVPair :=
  match fst (kvstore.Get k b) with
  | inr kvPair => Some kvPair
  | inl _ => None
  end.

(** The version a backend holds for a key. *)
Definition backendVersion (b : B) (k : string) : option Z :=
  kvstore.LastIndex <$> held b k.

(** A key is undisturbed from one state of a backend to a later one when
    the later state holds it at no version but the one the earlier state
    held it at. *)
Definition undisturbed (b b' : B) (k : string) : Prop :=
  forall v, backendVersion b' k = Some v -> backendVersion b k = Some v.

(** Cache/backend coherence: a key that the Cache and the backend both hold
    is mirrored at the backend's version or a later one. *)
Definition coherent (ds : Store) : Prop :=
  forall (c : Cache) (k : string) (e : entry) (v : Z),
    cache ds = Some c -> c !! k = Some e ->
    backendVersion (store ds) k = Some v ->
    (v <= mirrorVersion e)%Z.

(** The two ways a request can put the Cache behind the backend.  A
    skip-persistence put is sequenced by the Cache alone: it is admissible
    when the version the Cache gives it, one past the index it claims, is
    not below the version the backend holds for its key.  [Map] writes a
    placeholder under a key the backend says it does not have: it is
    admissible when the backend stamps the placeholder with no version
    above the one the Cache holds for that key.  Any other request is
    admissible. *)
Definition admissible (ds : Store) (r : request) : Prop :=
  match r with
  | ReqPut (Some o) =>
      KVObject.Skip o = true ->
      is_Some (KVObject.Value o) ->
      forall (c : Cache) (v : Z),
        cache ds = Some c ->
        KVObject.Index o = cachedVersion c (Key (KVObject.Key o)) ->
        backendVersion (store ds) (Key (KVObject.Key o)) = Some v ->
        (v <= uint64 (KVObject.Index o + 1))%Z
  | ReqMap key kvObject =>
      is_Some (KVConstructor.assert kvObject) ->
      forall (c : Cache) (e : entry) (b1 b2 : B) (err : option error) (v : Z),
        cache ds = Some c -> c !! key = Some e ->
        kvstore.Exists key (store ds) = (inr false, b1) ->
        kvstore.Put key [] b1 = (err, b2) ->
        backendVersion b2 key = Some v ->
        (v <= mirrorVersion e)%Z
  | _ => True
  end.

(** A run each request of which is admissible on the Store it reaches. *)
Fixpoint admissibleRun (ds : Store) (reqs : list request) : Prop :=
  match reqs with
  | [] => True
  | r :: rest => admissible ds r /\ admissibleRun (serve ds r) rest
  end.

(** Requests that only put or delete skip-persistence objects. *)
Definition skipOnly (r : request) : Prop :=
  match r with
  | ReqPut (Some o) => KVObject.Skip o = true
  | ReqDelete (Some o) => KVObject.Skip o = true
  | _ => False
  end.

(** What a method keeps of the Store: its scope, and its having a Cache. *)
Definition keeps (ds ds' : Store) : Prop :=
  scope ds' = scope ds /\ (is_Some (cache ds) -> is_Some (cache ds')).

(** ** Construction *)

Section Construction.

(** [boltdb.New], the constructor of the embedded backend; package
    [boltdb] is not part of the sources. *)
Variable boltdb_New : list string -> kvstore.Config -> error + B.

Definition newClient (kv addr : string) (config : option kvstore.Config)
  : error + Store :=
  if negb (String.eqb kv kvstore.BOLTDB) then inl (kvstore.Errorf "unsupported KV store")
  else
    let config :=
      match config with
      | None => {| kvstore.Bucket := ""; kvstore.ConnectionTimeout := 0 |}
      | Some c => c
      end in
    match boltdb_New (Split addr ",") config with
    | inl err => inl err
    | inr s =>
        let ds := {| scope := scope.Local; store := s; cache := None; calls := [] |} in
        inr (withCache (Some (newCache ds)) ds)
    end.

Definition New (cfg : ScopeCfg) : error + Store :=
  let cfg :=
    if String.eqb (Provider (Client cfg)) "" || String.eqb (Address (Client cfg)) ""
    then DefaultScope ""
    else cfg in
  newClient (Provider (Client cfg)) (Address (Client cfg)) (Config (Client cfg)).

End Construction.

End Datastore.

Arguments Store B : clear implicits.
Arguments request O : clear implicits.

(** Modelled from the spec: a backend reads back what it accepted.  After
    an atomic put that is accepted the backend holds the key with the value
    written and the version reported ([AtomicPut] returns the new version,
    [Get] the value and the version, section 6). *)
Definition readsBack (B : Type) `{!kvstore.Store B} : Prop :=
  forall key value previous (b b' : B) kvPair,
    kvstore.AtomicPut key value previous b = (inr kvPair, b') ->
    exists stored,
      held b' key = Some stored
      /\ kvstore.Value stored = value
      /\ kvstore.LastIndex stored = kvstore.LastIndex kvPair.

(** Modelled from the spec: what sections 3 and 6 take for granted of a
    BackingStore.  A version is attached to each stored object by the write
    that stored it: the backend reads back what it accepted; a refused
    atomic put or delete disturbs nothing; a write disturbs no key but its
    own; asking whether a key exists, listing and closing disturb
    nothing. *)
Class BackingStore (B : Type) `{!kvstore.Store B} : Prop := {
  AtomicPut_held : readsBack B;
  AtomicPut_refused : forall key value previous (b b' : B) err,
    kvstore.AtomicPut key value previous b = (inl err, b') ->
    undisturbed b b' key;
  AtomicPut_others : forall key value previous (b : B) k,
    k <> key -> undisturbed b (snd (kvstore.AtomicPut key value previous b)) k;
  AtomicDelete_refused : forall key previous (b b' : B) err,
    kvstore.AtomicDelete key previous b = (Some err, b') ->
    undisturbed b b' key;
  AtomicDelete_others : forall key previous (b : B) k,
    k <> key -> undisturbed b (snd (kvstore.AtomicDelete key previous b)) k;
  Put_others : forall key value (b : B) k,
    k <> key -> undisturbed b (snd (kvstore.Put key value b)) k;
  Exists_reads : forall key (b : B) k, undisturbed b (snd (kvstore.Exists key b)) k;
  List_reads : forall directory (b : B) k, undisturbed b (snd (kvstore.List directory b)) k;
  Close_reads : forall (b : B) k, undisturbed b (kvstore.Close b) k
}.

(** ** A backend and an object to run the Store on *)

(** Modelled from the spec: a backend that behaves as section 6 asks of a
    BackingStore, in the manner of the embedded store: one counter stamps
    every write, an atomic put with no token wants the key absent, one with
    a token wants the key present at the token's version. *)
Record memStore : Type := mkMemStore {
  db : gmap string (list Byte.byte * Z);
  dbIndex : Z
}.

Definition mem_write (key : string) (value : list Byte.byte) (b : memStore) : memStore :=
  {| db := <[key := (value, dbIndex b + 1)%Z]> (db b); dbIndex := (dbIndex b + 1)%Z |}.

Definition mem_Get (key : string) (b : memStore) : (error + KVPair) * memStore :=
  match db b !! key with
  | Some (value, index) => (inr (kvstore.mkKVPair key value index), b)
  | None => (inl kvstore.ErrKeyNotFound, b)
  end.

Definition mem_Put (key : string) (value : list Byte.byte) (b : memStore)
  : option error * memStore :=
  (None, mem_write key value b).

Definition mem_Exists (key : string) (b : memStore) : (error + bool) * memStore :=
  (inr (bool_decide (is_Some (db b !! key))), b).

Definition mem_List (directory : string) (b : memStore) : (error + list KVPair) * memStore :=
  match List.filter (fun kv => String.prefix directory (fst kv)) (map_to_list (db b)) with
  | [] => (inl kvstore.ErrKeyNotFound, b)
  | kvs => (inr (List.map (fun kv => kvstore.mkKVPair (fst kv) (fst (snd kv)) (snd (snd kv))) kvs), b)
  end.

Definition mem_AtomicPut (key : string) (value : list Byte.byte)
    (previous : option KVPair) (b : memStore) : (error + KVPair) * memStore :=
  match previous, db b !! key with
  | None, Some _ => (inl kvstore.ErrKeyExists, b)
  | Some _, None => (inl kvstore.ErrKeyModified, b)
  | Some p, Some (_, index) =>
      if decide (index = kvstore.LastIndex p)
      then (inr (kvstore.mkKVPair key value (dbIndex b + 1)), mem_write key value b)
      else (inl kvstore.ErrKeyModified, b)
  | None, None => (inr (kvstore.mkKVPair key value (dbIndex b + 1)), mem_write key value b)
  end.

Definition mem_AtomicDelete (key : string) (previous : option KVPair) (b : memStore)
  : option error * memStore :=
  match previous, db b !! key with
  | None, _ => (Some (kvstore.BackendFailure "previous K/V pair should be provided"), b)
  | Some _, None => (Some kvstore.ErrKeyNotFound, b)
  | Some p, Some (_, index) =>
      if decide (index = kvstore.LastIndex p)
      then (None, {| db := delete key (db b); dbIndex := dbIndex b |})
      else (Some kvstore.ErrKeyModified, b)
  end.

#[global] Instance memStore_Store : kvstore.Store memStore := {|
  kvstore.Get := mem_Get;
  kvstore.Put := mem_Put;
  kvstore.Exists := mem_Exists;
  kvstore.List := mem_List;
  kvstore.AtomicPut := mem_AtomicPut;
  kvstore.AtomicDelete := mem_AtomicDelete;
  kvstore.Close := fun b => b
|}.

(** An object for running the Store: its key is [dummy/ID], its value is
    its payload, and like a JSON document it cannot be read back from no
    bytes at all. *)
Record dummyObject : Type := mkDummy {
  ID : string;
  Payload : list Byte.byte;
  DBIndex : Z;
  DBExists : bool;
  SkipSave : bool;
  ReturnValue : bool;
  Constructs : bool
}.

Definition dummy_SetValue (value : list Byte.byte) (n : dummyObject)
  : option error * dummyObject :=
  match value with
  | [] => (Some (kvstore.BackendFailure "unexpected end of JSON input"), n)
  | _ => (None, {| ID := ID n; Payload := value; DBIndex := DBIndex n;
                   DBExists := DBExists n; SkipSave := SkipSave n;
                   ReturnValue := ReturnValue n; Constructs := Constructs n |})
  end.

Definition dummy_SetIndex (index : Z) (n : dummyObject) : dummyObject :=
  {| ID := ID n; Payload := Payload n; DBIndex := index; DBExists := true;
     SkipSave := SkipSave n; ReturnValue := ReturnValue n; Constructs := Constructs n |}.

#[global] Instance dummyObject_KVObject : KVObject.t dummyObject := {|
  KVObject.Key := fun n => ["dummy"; ID n];
  KVObject.KeyPrefix := fun _ => ["dummy"];
  KVObject.Value := fun n => if ReturnValue n then Some (Payload n) else None;
  KVObject.SetValue := dummy_SetValue;
  KVObject.Index := DBIndex;
  KVObject.SetIndex := dummy_SetIndex;
  KVObject.Exists := DBExists;
  KVObject.DataScope := fun _ => scope.Local;
  KVObject.Skip := SkipSave
|}.

#[global] Instance dummyObject_Assert : KVConstructor.Assert dummyObject :=
  fun n =>
    if Constructs n
    then Some {| KVConstructor.New :=
                   {| ID := ""; Payload := []; DBIndex := 0; DBExists := false;
                      SkipSave := false; ReturnValue := true; Constructs := true |};
                 KVConstructor.CopyTo := fun dst => (None, n) |}
    else None.

(** A persisted object, a skip-persistence object, and a fresh Store over
    the empty backend. *)
Definition persisted (id : string) (payload : list Byte.byte) (index : Z) (stored : bool)
  : dummyObject :=
  {| ID := id; Payload := payload; DBIndex := index; DBExists := stored;
     SkipSave := false; ReturnValue := true; Constructs := true |}.

Definition skipped (id : string) (payload : list Byte.byte) (index : Z) (stored : bool)
  : dummyObject :=
  {| ID := id; Payload := payload; DBIndex := index; DBExists := stored;
     SkipSave := true; ReturnValue := true; Constructs := true |}.

Definition payloadA : list Byte.byte := [Byte.x61].
Definition payloadB : list Byte.byte := [Byte.x62].

Definition noConstructor (id : string) : dummyObject :=
  {| ID := id; Payload := payloadA; DBIndex := 0; DBExists := false;
     SkipSave := false; ReturnValue := true; Constructs := false |}.

(** A constructor of the embedded backend that opens an empty store. *)
Definition openEmpty (endpoints : list string) (config : kvstore.Config)
  : error + memStore :=
  inr {| db := ∅; dbIndex := 0 |}.

(** The key the objects named [a] are stored under. *)
Definition keyA : string := "docker/network/v1.0/dummy/a/".

(** Two persisted writes of [a], then a skip-persistence delete and a
    skip-persistence re-insert under the same key. *)
Definition reinsertion : list (request dummyObject) :=
  [ReqPut (Some (persisted "a" payloadA 0 false));
   ReqPut (Some (persisted "a" payloadB 1 true));
   ReqDelete (Some (skipped "a" payloadB 2 true));
   ReqPut (Some (skipped "a" payloadA 0 false))].

Definition parentKey : string := "docker/network/v1.0/dummy/".

Definition exemplar : dummyObject :=
  {| ID := ""; Payload := []; DBIndex := 0; DBExists := false;
     SkipSave := false; ReturnValue := true; Constructs := true |}.

Definition emptyBackend : memStore := {| db := ∅; dbIndex := 0 |}.

Definition freshStore : Store memStore :=
  {| scope := scope.Local; store := emptyBackend; cache := Some ∅; calls := [] |}.

Definition bareStore : Store memStore :=
  {| scope := scope.Local; store := emptyBackend; cache := None; calls := [] |}.

(** The Store after one persisted write of [a]. *)
Definition onceWritten : Store memStore :=
  run freshStore [ReqPut (Some (persisted "a" payloadA 0 false))].

(** A stale view of [a]. *)
Definition stale : dummyObject := persisted "a" payloadB 5 true.

(** The Store without a Cache after one [Map] over the empty backend. *)
Definition scanned : Store memStore := snd (Map parentKey exemplar bareStore).

(** The Store after a persisted write of [a] and a skip-persistence write
    of [b]. *)
Definition mixed : Store memStore :=
  run freshStore [ReqPut (Some (persisted "a" payloadA 0 false));
                  ReqPut (Some (skipped "b" payloadB 0 false))].

Definition mixedMap : gmap string dummyObject :=
  {[ "docker/network/v1.0/dummy/a" := persisted "" payloadA 1 true ]}.

(** ** Runs that try the coherence of Cache and backend *)

(** A persisted write of [a] and a skip-persistence write on top of it; a
    skip-persistence object [b] deleted before it is there, written and
    deleted again; a scan of the objects; a persisted write of [b]. *)
Definition layered : list (request dummyObject) :=
  [ReqPut (Some (persisted "a" payloadA 0 false));
   ReqPut (Some (skipped "a" payloadB 1 true));
   ReqDelete (Some (skipped "b" payloadB 0 false));
   ReqPut (Some (skipped "b" payloadB 0 false));
   ReqDelete (Some (skipped "b" payloadB 1 true));
   ReqMap parentKey exemplar;
   ReqPut (Some (persisted "b" payloadB 0 false))].

(** The last [uint64]. *)
Definition lastVersion : Z := 2 ^ 64 - 1.

(** A Store over a backend whose counter is one short of the last
    [uint64]. *)
Definition lateStore : Store memStore :=
  {| scope := scope.Local;
     store := {| db := ∅; dbIndex := lastVersion - 1 |};
     cache := Some ∅;
     calls := [] |}.

(** A persisted write of [a], which that backend stamps with the last
    [uint64], and a skip-persistence write on top of it. *)
Definition wrapping : list (request dummyObject) :=
  [ReqPut (Some (persisted "a" payloadA 0 false));
   ReqPut (Some (skipped "a" payloadB lastVersion true))].

(** A skip-persistence write of [a], a persisted write of [b], and a scan
    under the key of [a]. *)
Definition shadowed : list (request dummyObject) :=
  [ReqPut (Some (skipped "a" payloadA 0 false));
   ReqPut (Some (persisted "b" payloadB 0 false));
   ReqMap keyA exemplar].

(** A persisted object whose value is the empty slice, which is not nil. *)
Definition hollow : dummyObject := persisted "a" [] 0 false.

(** A backend that keeps one revision for all it holds: an atomic put it
    accepts stamps every key with the new revision. *)
Record revisioned : Type := mkRevisioned { contents : memStore }.

Definition restamp (b : memStore) : memStore :=
  {| db := (fun held => (fst held, dbIndex b)) <$> db b; dbIndex := dbIndex b |}.

Definition lift {A : Type} (m : memStore -> A * memStore) (b : revisioned)
  : A * revisioned :=
  let '(r, b') := m (contents b) in (r, mkRevisioned b').

#[global] Instance revisioned_Store : kvstore.Store revisioned := {|
  kvstore.Get := fun key => lift (mem_Get key);
  kvstore.Put := fun key value => lift (mem_Put key value);
  kvstore.Exists := fun key => lift (mem_Exists key);
  kvstore.List := fun directory => lift (mem_List directory);
  kvstore.AtomicPut := fun key value previous b =>
    match mem_AtomicPut key value previous (contents b) with
    | (inr kvPair, b') => (inr kvPair, mkRevisioned (restamp b'))
    | (inl err, b') => (inl err, mkRevisioned b')
    end;
  kvstore.AtomicDelete := fun key previous => lift (mem_AtomicDelete key previous);
  kvstore.Close := fun b => b
|}.

Definition revisionedStore : Store revisioned :=
  {| scope := scope.Local; store := mkRevisioned emptyBackend; cache := Some ∅;
     calls := [] |}.

(** A persisted write of [a] and one of [b]. *)
Definition twoWrites : list (request dummyObject) :=
  [ReqPut (Some (persisted "a" payloadA 0 false));
   ReqPut (Some (persisted "b" payloadB 0 false))].

(** ** Bytes at the ends of a string *)

Definition firstByte (s : string) : option Ascii.ascii :=
  match s with
  | EmptyString => None
  | String a _ => Some a
  end.

Fixpoint lastByte (s : string) : option Ascii.ascii :=
  match s with
  | EmptyString => None
  | String a EmptyString => Some a
  | String _ s' => lastByte s'
  end.

Fixpoint hasByte (c : Ascii.ascii) (s : string) : bool :=
  match s with
  | EmptyString => false
  | String a s' => Ascii.eqb a c || hasByte c s'
  end.

(** The byte [c], [n] times. *)
Fixpoint repeated (c : Ascii.ascii) (n : nat) : string :=
  match n with
  | O => EmptyString
  | S n' => String c (repeated c n')
  end.

(** [t] is [s] with the bytes [c] cut from both ends: [s] is [t] between
    two runs of [c], and [t] neither starts nor ends with [c]. *)
Definition trimmedOf (c : Ascii.ascii) (s t : string) : Prop :=
  firstByte t <> Some c
  /\ lastByte t <> Some c
  /\ exists n m : nat, s = (repeated c n +:+ t) +:+ repeated c m.

(** The parts of a key, each followed by a slash, one after the other. *)
Fixpoint slashed (parts : list string) : string :=
  match parts with
  | [] => EmptyString
  | part :: rest => (part +:+ "/") +:+ slashed rest
  end.

(** ** Construction from discovery data *)

Module discoverapi.

(** Modelled from the spec: what [interface{}] field [Config] of
    [discoverapi.DatastoreConfigData] can hold, as far as [FromConfig] tells
    it apart: nothing, a [*store.Config] (which may be a nil pointer), or a
    value of any other type. *)
Inductive configValue : Type :=
| ConfigNil
| ConfigStore (pointer : option kvstore.Config)
| ConfigOther (other : string).

(** Modelled from the spec: [discoverapi.DatastoreConfigData], declared in
    package [discoverapi], which is not among the sources. *)
Record DatastoreConfigData : Type := mkDatastoreConfigData {
  Scope : string;
  Provider : string;
  Address : string;
  Config : configValue
}.

End discoverapi.

Section FromConfiguration.

Context {B : Type} `{!kvstore.Store B}.

Variable boltdb_New : list string -> kvstore.Config -> error + B.

(** What [fmt]'s [%v] prints for a configuration value, for the discovery
    data and for an error. *)
Variable printConfig : discoverapi.configValue -> string.
Variable printData : discoverapi.DatastoreConfigData -> string.
Variable printError : error -> string.

(** [FromConfig]. *)
Definition FromConfig (dsc : discoverapi.DatastoreConfigData) : error + Store B :=
  let '(sCfgP, ok) :=
    match discoverapi.Config dsc with
    | discoverapi.ConfigStore pointer => (pointer, true)
    | _ => (None, false)
    end in
  let isNil :=
    match discoverapi.Config dsc with
    | discoverapi.ConfigNil => true
    | _ => false
    end in
  if negb ok && negb isNil
  then inl (kvstore.Errorf ("cannot parse store configuration: "
                            +:+ printConfig (discoverapi.Config dsc)))
  else
    match New boltdb_New
            {| Client := {| Provider := discoverapi.Provider dsc;
                            Address := discoverapi.Address dsc;
                            Config := sCfgP |} |} with
    | inl err =>
        inl (kvstore.Errorf
               ((("failed to construct datastore client from datastore configuration "
                  +:+ printData dsc) +:+ ": ") +:+ printError err))
    | inr ds => inr ds
    end.

End FromConfiguration.

(** A constructor of the embedded backend that cannot open its file. *)
Definition openFails (endpoints : list string) (config : kvstore.Config)
  : error + memStore :=
  inl (kvstore.BackendFailure "open: permission denied").

(** ** A backend that goes down and an object that rejects some bytes *)

(** A backend that answers [healthy] calls and fails every call after
    them; while it answers it holds nothing. *)
Record flaky : Type := mkFlaky { healthy : nat }.

Definition down : error := kvstore.BackendFailure "connection refused".

Definition flakyCall {A : Type} (ok : A) (failed : A) (b : flaky) : A * flaky :=
  match healthy b with
  | O => (failed, b)
  | S n => (ok, {| healthy := n |})
  end.

#[global] Instance flaky_Store : kvstore.Store flaky := {|
  kvstore.Get := fun _ => flakyCall (inl kvstore.ErrKeyNotFound) (inl down);
  kvstore.Put := fun _ _ => flakyCall None (Some down);
  kvstore.Exists := fun _ => flakyCall (inr false) (inl down);
  kvstore.List := fun _ => flakyCall (inr []) (inl down);
  kvstore.AtomicPut := fun key value _ =>
    flakyCall (inr (kvstore.mkKVPair key value 1)) (inl down);
  kvstore.AtomicDelete := fun _ _ => flakyCall None (Some down);
  kvstore.Close := fun b => b
|}.

Definition flakyStore (n : nat) : Store flaky :=
  {| scope := scope.Local; store := {| healthy := n |}; cache := None; calls := [] |}.

(** The dummy object read strictly: a value that starts with a zero byte
    is rejected as well. *)
Definition strict_SetValue (value : list Byte.byte) (n : dummyObject)
  : option error * dummyObject :=
  match value with
  | Byte.x00 :: _ => (Some (kvstore.BackendFailure "invalid character"), n)
  | _ => dummy_SetValue value n
  end.

Definition strictObject : KVObject.t dummyObject := {|
  KVObject.Key := fun n => ["dummy"; ID n];
  KVObject.KeyPrefix := fun _ => ["dummy"];
  KVObject.Value := fun n => if ReturnValue n then Some (Payload n) else None;
  KVObject.SetValue := strict_SetValue;
  KVObject.Index := DBIndex;
  KVObject.SetIndex := dummy_SetIndex;
  KVObject.Exists := DBExists;
  KVObject.DataScope := fun _ => scope.Local;
  KVObject.Skip := SkipSave
|}.

(** A Store without a Cache over a backend that holds a good value at
    [dummy/a/] and a value starting with a zero byte at [dummy/b/]. *)
Definition corrupted : Store memStore :=
  {| scope := scope.Local;
     store := {| db := {[ "docker/network/v1.0/dummy/a/" := (payloadA, 1%Z);
                          "docker/network/v1.0/dummy/b/" := ([Byte.x00], 2%Z) ]};
                 dbIndex := 2 |};
     cache := None;
     calls := [] |}.

(** A Store without a Cache over a backend that holds two keys trimmed to
    the same string. *)
Definition duplicated : Store memStore :=
  {| scope := scope.Local;
     store := {| db := {[ "docker/network/v1.0/dummy/a" := (payloadA, 1%Z);
                          "docker/network/v1.0/dummy/a/" := (payloadB, 2%Z) ]};
                 dbIndex := 2 |};
     cache := None;
     calls := [] |}.

(** The constructor the exemplar gives. *)
Definition exemplarCtor : KVConstructor.t dummyObject :=
  KVConstructor.mk exemplar (fun dst => (None, exemplar)).

(** What the backend of [corrupted] lists under the parent key, once the
    placeholder is written. *)
Definition corruptedListed : list KVPair :=
  [kvstore.mkKVPair "docker/network/v1.0/dummy/a/" payloadA 1;
   kvstore.mkKVPair "docker/network/v1.0/dummy/b/" [Byte.x00] 2;
   kvstore.mkKVPair parentKey [] 3].

Definition duplicatedMap : gmap string dummyObject :=
  {[ "docker/network/v1.0/dummy/a" := persisted "" payloadA 1 true ]}.

(** ** The backend calls a request may make *)

Section Permissions.

Context {O : Type} `{!KVObject.t O}.

(** The backend calls open to each request: a put may call [AtomicPut] and
    a delete [AtomicDelete], each on the object's key; a get may call [Get]
    on the key it is given; a scan may ask whether its key exists, write
    the empty value at it and list under it; closing closes. *)
Definition permitted (r : request O) (c : kvstore.Call) : Prop :=
  match r, c with
  | ReqPut (Some o), kvstore.CallAtomicPut key _ _ => key = Key (KVObject.Key o)
  | ReqDelete (Some o), kvstore.CallAtomicDelete key _ => key = Key (KVObject.Key o)
  | ReqGet key _, kvstore.CallGet key' => key' = key
  | ReqList key _, kvstore.CallExists key' => key' = key
  | ReqList key _, kvstore.CallList key' => key' = key
  | ReqList key _, kvstore.CallPut key' value => key' = key /\ value = []
  | ReqMap key _, kvstore.CallExists key' => key' = key
  | ReqMap key _, kvstore.CallList key' => key' = key
  | ReqMap key _, kvstore.CallPut key' value => key' = key /\ value = []
  | ReqClose, kvstore.CallClose => True
  | _, _ => False
  end.

End Permissions.

(** ** Properties *)

Example Key_network : Key ["network"; "net-A"] = "docker/network/v1.0/network/net-A/".
Proof. reflexivity. Qed.

Example Trim_slashes : Trim "//docker/network/" "/" = "docker/network".
Proof. reflexivity. Qed.

Example Split_commas : Split "a,b,,c" "," = ["a"; "b"; ""; "c"].
Proof. reflexivity. Qed.


#[global] Instance dummyObject_Laws : KVObject.Laws dummyObject.
Proof. split; reflexivity. Defined.

(** The scenario of the specification's section 8: two writes move the
    index to 1 and 2, a delete at the stale index 1 is refused, the delete
    at index 2 goes through, and the key is then not found. *)
Example end_to_end :
  fst (PutObjectAtomic (Some (persisted "a" payloadA 0 false)) freshStore)
    = (None, Some (persisted "a" payloadA 1 true))
  /\ fst (PutObjectAtomic (Some (persisted "a" payloadB 1 true)) onceWritten)
     = (None, Some (persisted "a" payloadB 2 true))
  /\ fst (DeleteObjectAtomic (Some (persisted "a" payloadA 1 true))
            (run onceWritten [ReqPut (Some (persisted "a" payloadB 1 true))]))
     = Some ErrKeyModified
  /\ fst (DeleteObjectAtomic (Some (persisted "a" payloadB 2 true))
            (run onceWritten [ReqPut (Some (persisted "a" payloadB 1 true))]))
     = None
  /\ fst (fst (GetObject keyA (persisted "a" [] 0 false)
                 (run onceWritten [ReqPut (Some (persisted "a" payloadB 1 true));
                                   ReqDelete (Some (persisted "a" payloadB 2 true))])))
     = Some ErrKeyNotFound.
Proof. repeat split; reflexivity. Qed.

(** A skip-persistence object is read back from the Store while the
    backend stays empty. *)
Example skip_isolation :
  fst (GetObject keyA (skipped "a" [] 0 false)
         (run freshStore [ReqPut (Some (skipped "a" payloadA 0 false))]))
    = (None, skipped "a" payloadA 1 true)
  /\ store (run freshStore [ReqPut (Some (skipped "a" payloadA 0 false))]) = emptyBackend.
Proof. split; reflexivity. Qed.

Section Helpers.

Context {B : Type} `{!kvstore.Store B}.
Context {O : Type} `{!KVObject.t O} `{!KVConstructor.Assert O}.

Lemma withCache_same (ds : Store B) : withCache (cache ds) ds = ds.
Proof. destruct ds; reflexivity. Qed.

Lemma reported_conflict : reported kvstore.ErrKeyExists = ErrKeyModified.
Proof. reflexivity. Qed.

End Helpers.

Section AtomicPut.

Context {B : Type} `{!kvstore.Store B}.
Context {O : Type} `{!KVObject.t O} `{!KVConstructor.Assert O}.

(** C1. For an object whose [Skip()] is false (and whose value is not nil),
    [PutObjectAtomic] calls the backend's [AtomicPut] on the rendered key
    with the object's value and with the token [nil] when [Exists()] is
    false and [(Key(obj.Key()...), obj.Index())] when it is true.  A backend
    error is returned, the key-exists conflict as [ErrKeyModified].  On
    success the object is stamped with the version the backend assigned and
    only then handed to the Cache's [add] with the skip flag false. *)
Theorem PutObjectAtomic_persists `{!KVObject.Laws O}
    (obj : O) (ds : Store B) (value : list Byte.byte) (r : error + KVPair) (b' : B) :
  KVObject.Skip obj = false ->
  KVObject.Value obj = Some value ->
  let key := Key (KVObject.Key obj) in
  let previous :=
    if KVObject.Exists obj
    then Some (kvstore.mkKVPair key [] (KVObject.Index obj))
    else None in
  kvstore.AtomicPut key value previous (store ds) = (r, b') ->
  let ds' :=
    mkStore (scope ds) b' (cache ds)
      (calls ds ++ [kvstore.CallAtomicPut key value previous]) in
  (forall err, r = inl err ->
     PutObjectAtomic (Some obj) ds =
       (Some (if decide (err = kvstore.ErrKeyExists) then ErrKeyModified else err),
        Some obj, ds'))
  /\ (r = inl kvstore.ErrKeyExists \/ r = inl kvstore.ErrKeyModified ->
      fst (fst (PutObjectAtomic (Some obj) ds)) = Some ErrKeyModified)
  /\ (forall p, r = inr p ->
      let stamped := KVObject.SetIndex (kvstore.LastIndex p) obj in
      KVObject.Index stamped = kvstore.LastIndex p /\
      PutObjectAtomic (Some obj) ds =
        match cache ds with
        | Some c =>
            let '(err, obj', c') := cache_add c stamped false in
            (err, Some obj', withCache (Some c') ds')
        | None => (None, Some stamped, ds')
        end).
Proof.
  intros Hskip Hvalue key previous Hput ds'.
  assert (Hrun : storeAtomicPut key value previous ds = (r, ds')).
  { unfold storeAtomicPut, invoke. rewrite Hput. reflexivity. }
  assert (Heq : PutObjectAtomic (Some obj) ds =
                match r with
                | inl err => (Some (reported err), Some obj, ds')
                | inr p => add_cache (KVObject.SetIndex (kvstore.LastIndex p) obj) ds'
                end).
  { unfold PutObjectAtomic. rewrite Hvalue, Hskip.
    fold key. unfold token. fold key. fold previous. rewrite Hrun.
    destruct r; reflexivity. }
  repeat split.
  - intros err ->. exact Heq.
  - intros [-> | ->]; rewrite Heq; reflexivity.
  - apply KVObject.Index_SetIndex.
  - subst r. rewrite Heq. unfold add_cache. simpl.
    rewrite KVObject.Skip_SetIndex, Hskip. reflexivity.
Qed.

End AtomicPut.

Lemma PutObjectAtomic_persists_witness :
  PutObjectAtomic (Some (persisted "a" payloadA 0 false)) freshStore =
    (None, Some (persisted "a" payloadA 1 true),
     mkStore scope.Local
       (mkMemStore {[ "docker/network/v1.0/dummy/a/" := (payloadA, 1%Z) ]} 1)
       (Some {[ "docker/network/v1.0/dummy/a/" := mkEntry payloadA 1 scope.Local ]})
       [kvstore.CallAtomicPut "docker/network/v1.0/dummy/a/" payloadA None]).
Proof.
  edestruct (PutObjectAtomic_persists (persisted "a" payloadA 0 false) freshStore payloadA)
    as (_ & _ & Hok); [reflexivity | reflexivity | reflexivity |].
  destruct (Hok _ eq_refl) as [_ Hrun].
  rewrite Hrun. reflexivity.
Defined.

Section SkipPersistence.

Context {B : Type} `{!kvstore.Store B}.
Context {O : Type} `{!KVObject.t O} `{!KVConstructor.Assert O}.

(** C3. For an object whose [Skip()] is true, [PutObjectAtomic] and
    [DeleteObjectAtomic] invoke no backend method: the backend and the log
    of backend calls are as before, and the write or delete is the Cache's
    [add] or [del] with the skip flag true.  Hence no run of puts and
    deletes of skip-persistence objects ever reaches the backend. *)
Theorem skip_never_reaches_backend (obj : O) (ds : Store B) :
  KVObject.Skip obj = true ->
  let put := PutObjectAtomic (Some obj) ds in
  let del := DeleteObjectAtomic (Some obj) ds in
  (store (snd put) = store ds /\ calls (snd put) = calls ds)
  /\ (store (snd del) = store ds /\ calls (snd del) = calls ds)
  /\ (forall value c, KVObject.Value obj = Some value -> cache ds = Some c ->
       put = let '(err, obj', c') := cache_add c obj true in
             (err, Some obj', withCache (Some c') ds))
  /\ (forall c, cache ds = Some c ->
       del = let '(err, c') := cache_del c obj true in (err, withCache (Some c') ds))
  /\ (forall reqs, Forall skipOnly reqs ->
       store (run ds reqs) = store ds /\ calls (run ds reqs) = calls ds).
Proof.
  intros Hskip put del.
  assert (Hput : forall (o : O) (s : Store B), KVObject.Skip o = true ->
            store (snd (PutObjectAtomic (Some o) s)) = store s /\
            calls (snd (PutObjectAtomic (Some o) s)) = calls s).
  { intros o s Ho. unfold PutObjectAtomic.
    destruct (KVObject.Value o); [| split; reflexivity].
    rewrite Ho. unfold add_cache.
    destruct (cache s) as [c |]; [| split; reflexivity].
    destruct (cache_add c o (KVObject.Skip o)) as [[err o'] c']. split; reflexivity. }
  assert (Hdel : forall (o : O) (s : Store B), KVObject.Skip o = true ->
            store (snd (DeleteObjectAtomic (Some o) s)) = store s /\
            calls (snd (DeleteObjectAtomic (Some o) s)) = calls s).
  { intros o s Ho. unfold DeleteObjectAtomic. rewrite Ho. unfold deleteCache.
    destruct (cache s) as [c |]; [| split; reflexivity].
    destruct (cache_del c o (KVObject.Skip o)) as [err c']. split; reflexivity. }
  split; [exact (Hput obj ds Hskip) |].
  split; [exact (Hdel obj ds Hskip) |].
  split.
  { intros value c Hvalue Hc. subst put. unfold PutObjectAtomic.
    rewrite Hvalue, Hskip. unfold add_cache. rewrite Hc, Hskip. reflexivity. }
  split.
  { intros c Hc. subst del. unfold DeleteObjectAtomic.
    rewrite Hskip. unfold deleteCache. rewrite Hc, Hskip. reflexivity. }
  intros reqs Hreqs. clear put del. revert ds.
  induction Hreqs as [| r reqs Hr _ IH]; intros ds; [split; reflexivity |].
  unfold run in *. simpl. destruct (IH (serve ds r)) as [IHs IHc].
  rewrite IHs, IHc.
  destruct r as [[o |] | | | | [o |] |]; simpl in Hr; try contradiction; simpl.
  - exact (Hput o ds Hr).
  - exact (Hdel o ds Hr).
Qed.

End SkipPersistence.

Lemma skip_never_reaches_backend_witness :
  store (snd (PutObjectAtomic (Some (skipped "a" payloadA 0 false)) freshStore)) = emptyBackend
  /\ calls (run freshStore
              [ReqPut (Some (skipped "a" payloadA 0 false));
               ReqDelete (Some (skipped "a" payloadA 1 true))]) = [].
Proof.
  edestruct (skip_never_reaches_backend (skipped "a" payloadA 0 false) freshStore)
    as ([Hs _] & _ & _ & _ & Hrun); [reflexivity |].
  split; [exact Hs |].
  apply Hrun. repeat constructor.
Defined.

Section BackendFailure.

Context {B : Type} `{!kvstore.Store B}.
Context {O : Type} `{!KVObject.t O} `{!KVConstructor.Assert O}.

(** C4. When the backend's [AtomicPut] or [AtomicDelete] fails inside a
    non-skip [PutObjectAtomic] or [DeleteObjectAtomic], the operation
    returns that error, as [ErrKeyModified] when it is the backend's
    key-exists conflict, and leaves the Cache as it was; the put hands the
    object back as it received it, its version not stamped. *)
Theorem backend_failure_leaves_cache (obj : O) (ds : Store B) (err : error) (b' : B) :
  KVObject.Skip obj = false ->
  let key := Key (KVObject.Key obj) in
  let returned := if decide (err = kvstore.ErrKeyExists) then ErrKeyModified else err in
  (forall value,
     KVObject.Value obj = Some value ->
     kvstore.AtomicPut key value
       (if KVObject.Exists obj then Some (kvstore.mkKVPair key [] (KVObject.Index obj)) else None)
       (store ds) = (inl err, b') ->
     exists ds',
       PutObjectAtomic (Some obj) ds = (Some returned, Some obj, ds')
       /\ cache ds' = cache ds /\ store ds' = b')
  /\ (kvstore.AtomicDelete key (Some (kvstore.mkKVPair key [] (KVObject.Index obj)))
        (store ds) = (Some err, b') ->
      exists ds',
        DeleteObjectAtomic (Some obj) ds = (Some returned, ds')
        /\ cache ds' = cache ds /\ store ds' = b').
Proof.
  intros Hskip key returned. split.
  - intros value Hvalue Hput. eexists. split; [| split].
    + unfold PutObjectAtomic. rewrite Hvalue, Hskip.
      unfold storeAtomicPut, invoke, token. fold key. rewrite Hput. reflexivity.
    + reflexivity.
    + reflexivity.
  - intros Hdel. eexists. split; [| split].
    + unfold DeleteObjectAtomic. rewrite Hskip.
      unfold storeAtomicDelete, invoke, token. fold key. rewrite Hdel. reflexivity.
    + reflexivity.
    + reflexivity.
Qed.

End BackendFailure.

Lemma backend_failure_leaves_cache_witness :
  (exists ds', PutObjectAtomic (Some stale) onceWritten = (Some ErrKeyModified, Some stale, ds')
               /\ cache ds' = cache onceWritten /\ store ds' = store onceWritten)
  /\ (exists ds', DeleteObjectAtomic (Some stale) onceWritten = (Some ErrKeyModified, ds')
                  /\ cache ds' = cache onceWritten /\ store ds' = store onceWritten).
Proof.
  destruct (backend_failure_leaves_cache stale onceWritten kvstore.ErrKeyModified
              (store onceWritten))
    as [Hput Hdel]; [reflexivity |].
  split.
  - apply (Hput payloadB); reflexivity.
  - apply Hdel; reflexivity.
Defined.

Section CacheSequencing.

Context {B : Type} `{!kvstore.Store B}.
Context {O : Type} `{!KVObject.t O} `{!KVConstructor.Assert O}.

Lemma uint64_small (z : Z) : (0 <= z < 2 ^ 64)%Z -> uint64 z = z.
Proof. intros Hz. unfold uint64. apply Z.mod_small. exact Hz. Qed.

Lemma cachedVersion_insert (c : Cache) (k : string) (e : entry) :
  cachedVersion (<[k := e]> c) k = mirrorVersion e.
Proof. unfold cachedVersion. rewrite lookup_insert_eq. reflexivity. Qed.

Lemma cache_add_skip_ok (c : Cache) (obj : O) :
  KVObject.Index obj = cachedVersion c (Key (KVObject.Key obj)) ->
  let version := uint64 (cachedVersion c (Key (KVObject.Key obj)) + 1) in
  let obj' := KVObject.SetIndex version obj in
  cache_add c obj true = (None, obj', <[Key (KVObject.Key obj) := mirror obj' version]> c).
Proof.
  intros Hidx version obj'. unfold cache_add.
  destruct (decide _) as [_ | Hne]; [reflexivity | contradiction].
Qed.

Lemma cache_add_skip_conflict (c : Cache) (obj : O) :
  KVObject.Index obj <> cachedVersion c (Key (KVObject.Key obj)) ->
  cache_add c obj true = (Some ErrKeyModified, obj, c).
Proof.
  intros Hidx. unfold cache_add.
  destruct (decide _) as [Heq | _]; [contradiction | reflexivity].
Qed.

(** A skip-persistence put on a Store with a Cache is the Cache's [add]
    with the skip flag true: nothing else of the Store changes. *)
Lemma PutObjectAtomic_skip (obj : O) (ds : Store B) (c : Cache) (value : list Byte.byte) :
  KVObject.Skip obj = true ->
  KVObject.Value obj = Some value ->
  cache ds = Some c ->
  PutObjectAtomic (Some obj) ds =
    (fst (fst (cache_add c obj true)), Some (snd (fst (cache_add c obj true))),
     mkStore (scope ds) (store ds) (Some (snd (cache_add c obj true))) (calls ds)).
Proof.
  intros Hskip Hvalue Hc. unfold PutObjectAtomic.
  rewrite Hvalue, Hskip. unfold add_cache. rewrite Hc, Hskip.
  destruct (cache_add c obj true) as [[err obj'] c']. reflexivity.
Qed.

Lemma putAll_from (k : string) (objs : list O) :
  forall (n : nat) (ds : Store B) (c : Cache),
    cache ds = Some c ->
    cachedVersion c k = Z.of_nat n ->
    Forall (fun o => KVObject.Skip o = true /\ Key (KVObject.Key o) = k) objs ->
    (Z.of_nat (n + length objs) < 2 ^ 64)%Z ->
    (forall (objs' : list O) (ds' : Store B),
       putAll ds objs = Some (objs', ds') ->
       objs' = zip_with KVObject.SetIndex (Z.of_nat <$> seq (S n) (length objs)) objs
       /\ exists c',
            ds' = mkStore (scope ds) (store ds) (Some c') (calls ds)
            /\ cachedVersion c' k = Z.of_nat (n + length objs))
    /\ (KVObject.Index <$> objs = Z.of_nat <$> seq n (length objs) ->
        Forall (fun o => is_Some (KVObject.Value o)) objs ->
        is_Some (putAll ds objs)).
Proof.
  induction objs as [| obj rest IH]; intros n ds c Hc Hn Hkeys Hbound.
  - split.
    + intros objs' ds' Hrun. cbn in Hrun. injection Hrun as <- <-.
      split; [reflexivity |]. exists c. rewrite Nat.add_0_r.
      split; [destruct ds; cbn in Hc; subst; reflexivity | exact Hn].
    + intros _ _. eexists. reflexivity.
  - inversion Hkeys as [| ? ? [Hskip Hk] Hrest]; subst.
    simpl length in Hbound.
    assert (Hstep : KVObject.Index obj = Z.of_nat n ->
              forall value, KVObject.Value obj = Some value ->
              exists c1,
                PutObjectAtomic (Some obj) ds =
                  (None, Some (KVObject.SetIndex (Z.of_nat (S n)) obj),
                   mkStore (scope ds) (store ds) (Some c1) (calls ds))
                /\ cachedVersion c1 (Key (KVObject.Key obj)) = Z.of_nat (S n)).
    { intros Hidx value Hvalue.
      rewrite (PutObjectAtomic_skip obj ds c value Hskip Hvalue Hc).
      rewrite (cache_add_skip_ok c obj) by congruence.
      rewrite Hn, (uint64_small (Z.of_nat n + 1)) by lia.
      replace (Z.of_nat n + 1)%Z with (Z.of_nat (S n)) by lia.
      eexists. split; [reflexivity |]. cbn [snd]. apply cachedVersion_insert. }
    split.
    + intros objs' ds' Hrun. cbn [putAll] in Hrun.
      destruct (KVObject.Value obj) as [value |] eqn:Hvalue.
      2:{ unfold PutObjectAtomic in Hrun. rewrite Hvalue in Hrun. discriminate. }
      destruct (decide (KVObject.Index obj = cachedVersion c (Key (KVObject.Key obj))))
        as [Hidx | Hidx].
      * destruct (Hstep ltac:(congruence) value eq_refl) as (c1 & Hput & Hc1).
        rewrite Hput in Hrun.
        destruct (putAll _ rest) as [[objs1 ds1] |] eqn:Hrest'; [| discriminate].
        injection Hrun as <- <-.
        destruct (IH (S n) (mkStore (scope ds) (store ds) (Some c1) (calls ds)) c1
                    eq_refl Hc1 Hrest ltac:(lia)) as [Hfwd _].
        destruct (Hfwd _ _ Hrest') as (-> & c' & -> & Hc').
        split; [reflexivity |]. exists c'. split; [reflexivity |].
        rewrite Hc'. simpl length. f_equal. lia.
      * rewrite (PutObjectAtomic_skip obj ds c value Hskip Hvalue Hc) in Hrun.
        rewrite (cache_add_skip_conflict c obj Hidx) in Hrun. discriminate.
    + intros Hidx Hvalues. cbn in Hidx. injection Hidx as Hidx Hidxs.
      inversion Hvalues as [| ? ? [value Hvalue] Hvalues']; subst.
      destruct (Hstep Hidx value Hvalue) as (c1 & Hput & Hc1).
      cbn [putAll]. rewrite Hput.
      destruct (IH (S n) (mkStore (scope ds) (store ds) (Some c1) (calls ds)) c1
                  eq_refl Hc1 Hrest ltac:(lia)) as [_ Hex].
      destruct (Hex Hidxs Hvalues') as [[objs1 ds1] Hrest']. rewrite Hrest'.
      eexists. reflexivity.
Qed.

(** C5 (amended). The Cache's [add] with [skipPersist] true compares the
    version the object claims with the version cached for its key (zero
    for a key not cached): on a mismatch it fails with [ErrKeyModified] and
    changes nothing; otherwise it assigns the cached version plus one in
    [uint64] arithmetic, which is the cached version plus one below the
    last [uint64] and one for the first insert of a key, records it for the
    key and stamps it on the object.  A skip-persistence
    [PutObjectAtomic] is this [add] on the Store's Cache and changes
    nothing else of the Store.  So [N] successful skip-persistence puts
    through [PutObjectAtomic] on one key, starting from a Cache that does
    not hold it, assign the versions [1] to [N] in order, for [N] below
    [2^64]; and the puts of objects that carry the versions [0] to [N-1]
    do succeed. *)
Theorem cache_sequences_skip_objects `{HL : !KVObject.Laws O} (c : Cache) (obj : O) :
  let k := Key (KVObject.Key obj) in
  let currentVersion := match c !! k with Some e => mirrorVersion e | None => 0%Z end in
  let version := ((currentVersion + 1) mod 2 ^ 64)%Z in
  (KVObject.Index obj <> currentVersion ->
     cache_add c obj true = (Some ErrKeyModified, obj, c))
  /\ (KVObject.Index obj = currentVersion ->
      exists c',
        cache_add c obj true = (None, KVObject.SetIndex version obj, c')
        /\ KVObject.Index (KVObject.SetIndex version obj) = version
        /\ mirrorVersion <$> c' !! k = Some version
        /\ (forall k', k' <> k -> c' !! k' = c !! k'))
  /\ ((0 <= currentVersion < 2 ^ 64 - 1)%Z -> version = (currentVersion + 1)%Z)
  /\ (c !! k = None -> version = 1%Z)
  /\ (forall (ds : Store B) (value : list Byte.byte),
       KVObject.Skip obj = true ->
       KVObject.Value obj = Some value ->
       cache ds = Some c ->
       PutObjectAtomic (Some obj) ds =
         (fst (fst (cache_add c obj true)), Some (snd (fst (cache_add c obj true))),
          mkStore (scope ds) (store ds) (Some (snd (cache_add c obj true))) (calls ds)))
  /\ (forall (ds : Store B) (objs : list O),
       cache ds = Some c ->
       c !! k = None ->
       Forall (fun o => KVObject.Skip o = true /\ Key (KVObject.Key o) = k) objs ->
       (Z.of_nat (length objs) < 2 ^ 64)%Z ->
       (forall (objs' : list O) (ds' : Store B),
          putAll ds objs = Some (objs', ds') ->
          objs' = zip_with KVObject.SetIndex (Z.of_nat <$> seq 1 (length objs)) objs
          /\ KVObject.Index <$> objs' = Z.of_nat <$> seq 1 (length objs)
          /\ exists c',
               ds' = mkStore (scope ds) (store ds) (Some c') (calls ds)
               /\ (objs <> [] ->
                   mirrorVersion <$> c' !! k = Some (Z.of_nat (length objs))))
       /\ (KVObject.Index <$> objs = Z.of_nat <$> seq 0 (length objs) ->
           Forall (fun o => is_Some (KVObject.Value o)) objs ->
           is_Some (putAll ds objs))).
Proof.
  intros k currentVersion version.
  change currentVersion with (cachedVersion c k) in *.
  change version with (uint64 (cachedVersion c k + 1)).
  split; [exact (cache_add_skip_conflict c obj) |].
  split.
  { intros Hidx. eexists. split; [| split; [| split]].
    - rewrite (cache_add_skip_ok c obj Hidx). reflexivity.
    - apply KVObject.Index_SetIndex.
    - fold k. rewrite lookup_insert_eq. reflexivity.
    - intros k' Hk'. fold k. rewrite lookup_insert_ne by congruence. reflexivity. }
  split; [intros Hrange; apply uint64_small; lia |].
  split.
  { intros Habsent. unfold cachedVersion. rewrite Habsent. reflexivity. }
  split.
  { intros ds value. apply PutObjectAtomic_skip. }
  intros ds objs Hc Habsent Hkeys Hbound.
  assert (Hv : cachedVersion c k = Z.of_nat 0)
    by (unfold cachedVersion; rewrite Habsent; reflexivity).
  destruct (putAll_from k objs 0 ds c Hc Hv Hkeys ltac:(simpl; lia)) as [Hfwd Hex].
  split; [| exact Hex].
  intros objs' ds' Hrun.
  destruct (Hfwd objs' ds' Hrun) as (Hobjs & c' & Hds' & Hc').
  split; [exact Hobjs |].
  split.
  { rewrite Hobjs. clear -HL. generalize 1%nat.
    induction objs as [| o rest IH]; intros n; [reflexivity |].
    simpl. rewrite KVObject.Index_SetIndex. f_equal. apply IH. }
  exists c'. split; [exact Hds' |].
  intros Hne. simpl in Hc'. unfold cachedVersion in Hc'.
  destruct (c' !! k) as [e |] eqn:He; simpl; [congruence |].
  destruct objs; [contradiction | simpl in Hc'; lia].
Qed.

End CacheSequencing.

Lemma cache_sequences_skip_objects_witness :
  exists (objs' : list dummyObject) (ds' : Store memStore),
    putAll freshStore [skipped "a" payloadA 0 false; skipped "a" payloadB 1 true;
                       skipped "a" payloadA 2 true] = Some (objs', ds')
    /\ objs' = [skipped "a" payloadA 1 true; skipped "a" payloadB 2 true;
                skipped "a" payloadA 3 true]
    /\ KVObject.Index <$> objs' = [1; 2; 3]%Z
    /\ store ds' = emptyBackend
    /\ calls ds' = []
    /\ mirrorVersion <$> default ∅ (cache ds') !! keyA = Some 3%Z.
Proof.
  pose (objs := [skipped "a" payloadA 0 false; skipped "a" payloadB 1 true;
                 skipped "a" payloadA 2 true]).
  destruct (cache_sequences_skip_objects (B := memStore) ∅ (skipped "a" payloadA 0 false))
    as (_ & _ & _ & _ & _ & Hseq).
  destruct (Hseq freshStore objs eq_refl eq_refl) as [Hfwd Hex].
  { repeat constructor. }
  { simpl. lia. }
  destruct Hex as [[objs' ds'] Hrun]; [reflexivity | repeat constructor; eexists; reflexivity |].
  exists objs', ds'. split; [exact Hrun |].
  destruct (Hfwd objs' ds' Hrun) as (Hobjs & Hidx & c' & Hds' & Hc').
  split; [exact Hobjs |]. split; [exact Hidx |].
  rewrite Hds'. split; [reflexivity |]. split; [reflexivity |].
  apply Hc'. discriminate.
Defined.

(** C5, as stated, fails at the last [uint64]: on a Cache that holds the
    key at version [2^64-1], a skip-persistence add that claims that
    version is accepted and is assigned version 0, not the cached version
    plus one.  Through the facade: the backend stamps a persisted write
    with [2^64-1], the Cache mirrors it, and the skip-persistence
    [PutObjectAtomic] on top of it succeeds with version 0, so the versions
    of two successive successful puts on the key go down. *)
Lemma skip_version_wraps :
  cachedVersion {[ keyA := mkEntry payloadA lastVersion scope.Local ]} keyA = lastVersion
  /\ fst (cache_add {[ keyA := mkEntry payloadA lastVersion scope.Local ]}
            (skipped "a" payloadB lastVersion true) true)
     = (None, skipped "a" payloadB 0 true)
  /\ snd (cache_add {[ keyA := mkEntry payloadA lastVersion scope.Local ]}
            (skipped "a" payloadB lastVersion true) true) !! keyA
     = Some (mkEntry payloadB 0 scope.Local)
  /\ (0 <> lastVersion + 1)%Z
  /\ fst (PutObjectAtomic (Some (persisted "a" payloadA 0 false)) lateStore)
     = (None, Some (persisted "a" payloadA lastVersion true))
  /\ fst (PutObjectAtomic (Some (skipped "a" payloadB lastVersion true))
            (run lateStore [ReqPut (Some (persisted "a" payloadA 0 false))]))
     = (None, Some (skipped "a" payloadB 0 true))
  /\ (0 < lastVersion)%Z.
Proof.
  repeat split; vm_compute; first [reflexivity | discriminate].
Qed.

Section IdempotentDelete.

Context {B : Type} `{!kvstore.Store B}.
Context {O : Type} `{!KVObject.t O} `{!KVConstructor.Assert O}.

(** C8. The Cache's [del] on an object whose key the Cache does not hold
    succeeds and leaves the Cache as it is, whatever the skip flag; hence
    [DeleteObjectAtomic] on a skip-persistence object whose key is not
    cached returns no error and leaves the Store as it is. *)
Theorem delete_absent_is_noop (obj : O) :
  (forall (c : Cache) (skipPersist : bool),
     c !! Key (KVObject.Key obj) = None ->
     cache_del c obj skipPersist = (None, c))
  /\ (forall ds : Store B,
       KVObject.Skip obj = true ->
       (forall c, cache ds = Some c -> c !! Key (KVObject.Key obj) = None) ->
       DeleteObjectAtomic (Some obj) ds = (None, ds)).
Proof.
  split.
  - intros c skipPersist Habsent. unfold cache_del. rewrite Habsent. reflexivity.
  - intros ds Hskip Habsent. unfold DeleteObjectAtomic. rewrite Hskip.
    unfold deleteCache. destruct (cache ds) as [c |] eqn:Hc; [| reflexivity].
    unfold cache_del. rewrite (Habsent c eq_refl).
    rewrite <- Hc. rewrite withCache_same. reflexivity.
Qed.

End IdempotentDelete.

Lemma delete_absent_is_noop_witness :
  cache_del (∅ : Cache) (skipped "a" payloadA 0 false) true = (None, ∅)
  /\ DeleteObjectAtomic (Some (skipped "a" payloadA 0 false)) freshStore = (None, freshStore).
Proof.
  destruct (delete_absent_is_noop (B := memStore) (skipped "a" payloadA 0 false))
    as [Hdel Hfacade].
  split.
  - apply Hdel. reflexivity.
  - apply Hfacade; [reflexivity |].
    intros c Hc. injection Hc as <-. reflexivity.
Defined.

Section Enumeration.

Context {B : Type} `{!kvstore.Store B}.
Context {O : Type} `{!KVObject.t O} `{!KVConstructor.Assert O}.

Lemma nonEmpty_spec (p : KVPair) : nonEmpty p = true <-> kvstore.Value p <> [].
Proof.
  unfold nonEmpty. destruct (kvstore.Value p); simpl; split; intros; congruence.
Qed.

Lemma iteratePairs_filter {A : Type} (ctor : KVConstructor.t O)
    (callback : string -> O -> A -> A) (kvList : list KVPair) :
  forall acc,
    iteratePairs ctor callback kvList acc =
    iteratePairs ctor callback (List.filter nonEmpty kvList) acc.
Proof.
  induction kvList as [| p rest IH]; intros acc; [reflexivity |].
  cbn [iteratePairs List.filter].
  destruct (nonEmpty p) eqn:Hne; unfold nonEmpty in Hne.
  - apply negb_true_iff in Hne. cbn [iteratePairs]. rewrite Hne.
    destruct (materialize _ _ _); [reflexivity | apply IH].
  - apply negb_false_iff in Hne. rewrite Hne. apply IH.
Qed.

(** A successful loop has materialized every kept pair, in order, and has
    fed each to the callback under its stored key. *)
Lemma iteratePairs_success {A : Type} (ctor : KVConstructor.t O)
    (callback : string -> O -> A -> A) (kvList : list KVPair) :
  forall acc acc',
    iteratePairs ctor callback kvList acc = (None, acc') ->
    exists objs,
      Forall2 (fun p o => materialize ctor (kvstore.Value p) (kvstore.LastIndex p) = inr o)
        (List.filter nonEmpty kvList) objs
      /\ acc' = fold_left (fun a po => callback (kvstore.Key (fst po)) (snd po) a)
                  (zip (List.filter nonEmpty kvList) objs) acc.
Proof.
  induction kvList as [| p rest IH]; intros acc acc' Hrun.
  - simpl in Hrun. injection Hrun as <-. exists []. split; [constructor | reflexivity].
  - cbn [iteratePairs] in Hrun. cbn [List.filter].
    destruct (nonEmpty p) eqn:Hne; unfold nonEmpty in Hne.
    + apply negb_true_iff in Hne. rewrite Hne in Hrun.
      destruct (materialize ctor (kvstore.Value p) (kvstore.LastIndex p)) as [err | o] eqn:Hm;
        [discriminate |].
      destruct (IH _ _ Hrun) as (objs & Hall & ->).
      exists (o :: objs). split; [constructor; assumption | reflexivity].
    + apply negb_false_iff in Hne. rewrite Hne in Hrun.
      apply IH. exact Hrun.
Qed.

Lemma ensureParent_calls (parent : string) (ds ds1 : Store B) (err : option error) :
  ensureParent parent ds = (err, ds1) ->
  cache ds1 = cache ds /\ scope ds1 = scope ds
  /\ (calls ds1 = calls ds ++ [kvstore.CallExists parent]
      \/ calls ds1 = calls ds ++ [kvstore.CallExists parent; kvstore.CallPut parent []]).
Proof.
  unfold ensureParent, storeExists, storePut, invoke.
  destruct (kvstore.Exists parent (store ds)) as [[e | [|]] b1]; simpl.
  - intros [= <- <-]. simpl. auto.
  - intros [= <- <-]. simpl. auto.
  - destruct (kvstore.Put parent [] b1) as [e b2]. intros [= <- <-]. simpl.
    rewrite <- app_assoc. auto.
Qed.

(** [iterateKVPairsFromStore] reads the Store's backend and log only. *)
Lemma iterate_ignores_cache {A : Type} (key : string) (kvObject : O)
    (callback : string -> O -> A -> A) (acc : A) (ds : Store B) (c : option Cache) :
  iterateKVPairsFromStore key kvObject callback acc (withCache c ds) =
  let '(err, acc', ds') := iterateKVPairsFromStore key kvObject callback acc ds in
  (err, acc', withCache c ds').
Proof.
  unfold iterateKVPairsFromStore.
  destruct (KVConstructor.assert kvObject) as [ctor |]; [| reflexivity].
  unfold ensureParent, storeExists, storePut, storeList, invoke. simpl.
  destruct (kvstore.Exists key (store ds)) as [[e | [|]] b1]; simpl; [reflexivity | |].
  - destruct (kvstore.List key b1) as [[e | kvList] b2]; simpl; [reflexivity |].
    destruct (iteratePairs ctor callback kvList acc); reflexivity.
  - destruct (kvstore.Put key [] b1) as [[e |] b2]; simpl; [reflexivity |].
    destruct (kvstore.List key b2) as [[e | kvList] b3]; simpl; [reflexivity |].
    destruct (iteratePairs ctor callback kvList acc); reflexivity.
Qed.

(** A successful [iterateKVPairsFromStore] has ensured the parent, listed
    the backend and run the loop over what the backend listed. *)
Lemma iterate_success {A : Type} (key : string) (kvObject : O)
    (callback : string -> O -> A -> A) (acc acc' : A) (ds ds' : Store B) :
  iterateKVPairsFromStore key kvObject callback acc ds = (None, acc', ds') ->
  exists ctor ds1 kvList,
    KVConstructor.assert kvObject = Some ctor
    /\ ensureParent key ds = (None, ds1)
    /\ fst (kvstore.List key (store ds1)) = inr kvList
    /\ store ds' = snd (kvstore.List key (store ds1))
    /\ cache ds' = cache ds
    /\ calls ds' = calls ds1 ++ [kvstore.CallList key]
    /\ iteratePairs ctor callback kvList acc = (None, acc').
Proof.
  unfold iterateKVPairsFromStore.
  destruct (KVConstructor.assert kvObject) as [ctor |]; [| discriminate].
  destruct (ensureParent key ds) as [[e |] ds1] eqn:Hparent; [discriminate |].
  destruct (ensureParent_calls _ _ _ _ Hparent) as (Hc & _ & _).
  unfold storeList, invoke.
  destruct (kvstore.List key (store ds1)) as [[e | kvList] b2] eqn:Hlist; [discriminate |].
  destruct (iteratePairs ctor callback kvList acc) as [[e |] acc1] eqn:Hloop;
    [discriminate |].
  intros [= <- <-]. exists ctor, ds1, kvList. rewrite Hlist. simpl.
  repeat split; auto.
Qed.

(** The association [Map]'s callback builds from kept pairs and their
    objects holds exactly the trimmed keys, on top of what it started
    from. *)
Lemma Map_fold_keys (pos : list (KVPair * O)) :
  forall (acc : gmap string O) (k : string),
    is_Some (fold_left (fun a po => <[Trim (kvstore.Key (fst po)) "/" := snd po]> a) pos acc !! k)
    <-> is_Some (acc !! k) \/ exists po, po ∈ pos /\ k = Trim (kvstore.Key (fst po)) "/".
Proof.
  induction pos as [| po rest IH]; intros acc k; simpl.
  - split; [auto |]. intros [Hk | (po & Hin & _)]; [exact Hk |]. inversion Hin.
  - rewrite IH. rewrite lookup_insert_is_Some'. split.
    + intros [[Hk | Hk] | (po' & Hin & Hk)].
      * right. exists po. split; [constructor | auto].
      * auto.
      * right. exists po'. split; [constructor; exact Hin | exact Hk].
    + intros [Hk | (po' & Hin & Hk)]; [auto |].
      apply elem_of_cons in Hin as [-> | Hin]; [auto |].
      right. exists po'. auto.
Qed.

Lemma Forall2_zip_fst (ps : list KVPair) (objs : list O) (R : KVPair -> O -> Prop) :
  Forall2 R ps objs ->
  forall p, p ∈ ps <-> exists po, po ∈ zip ps objs /\ fst po = p.
Proof.
  induction 1 as [| p0 o0 ps objs HR Hall IH]; intros p; simpl.
  - split; [intros Hin; inversion Hin | intros (po & Hin & _); inversion Hin].
  - rewrite elem_of_cons, IH. split.
    + intros [-> | (po & Hin & Hp)].
      * exists (p0, o0). split; [constructor | reflexivity].
      * exists po. split; [constructor; exact Hin | exact Hp].
    + intros (po & Hin & Hp). apply elem_of_cons in Hin as [-> | Hin]; [auto |].
      right. exists po. auto.
Qed.

Lemma Map_success_keys (key : string) (kvObject : O) (ds ds' : Store B)
    (m : gmap string O) :
  Map key kvObject ds = (inr m, ds') ->
  exists ds1 kvList,
    ensureParent key ds = (None, ds1)
    /\ fst (kvstore.List key (store ds1)) = inr kvList
    /\ store ds' = snd (kvstore.List key (store ds1))
    /\ cache ds' = cache ds
    /\ calls ds' = calls ds1 ++ [kvstore.CallList key]
    /\ (forall k, is_Some (m !! k) <->
          exists p, p ∈ kvList /\ kvstore.Value p <> [] /\ k = Trim (kvstore.Key p) "/").
Proof.
  unfold Map.
  destruct (iterateKVPairsFromStore _ _ _ _ _) as [[[e |] m'] ds2] eqn:Hit; [discriminate |].
  intros [= -> ->].
  destruct (iterate_success _ _ _ _ _ _ _ Hit)
    as (ctor & ds1 & kvList & _ & Hparent & Hlist & Hstore & Hcache & Hcalls & Hloop).
  exists ds1, kvList. repeat split; auto.
  - destruct (iteratePairs_success _ _ _ _ _ Hloop) as (objs & Hall & ->).
    rewrite Map_fold_keys. rewrite lookup_empty.
    intros [[x Hx] | (po & Hin & ->)]; [discriminate |].
    exists (fst po). split; [| split; [| reflexivity]].
    + assert (Hf : fst po ∈ List.filter nonEmpty kvList).
      { apply (Forall2_zip_fst _ _ _ Hall). exists po. auto. }
      apply list_elem_of_In in Hf. apply filter_In in Hf as [Hf _].
      apply list_elem_of_In. exact Hf.
    + assert (Hf : fst po ∈ List.filter nonEmpty kvList).
      { apply (Forall2_zip_fst _ _ _ Hall). exists po. auto. }
      apply list_elem_of_In in Hf. apply filter_In in Hf as [_ Hf].
      apply nonEmpty_spec. exact Hf.
  - destruct (iteratePairs_success _ _ _ _ _ Hloop) as (objs & Hall & ->).
    intros (p & Hin & Hval & ->).
    rewrite Map_fold_keys. right.
    assert (Hf : p ∈ List.filter nonEmpty kvList).
    { apply list_elem_of_In. apply filter_In. split.
      - apply list_elem_of_In. exact Hin.
      - apply nonEmpty_spec. exact Hval. }
    apply (Forall2_zip_fst _ _ _ Hall) in Hf as (po & Hpo & <-).
    exists po. auto.
Qed.

(** C7. For an exemplar that does not implement [KVConstructor], [List]
    and [Map] fail with an error and return no results, on a Store with a
    Cache as on one without, and leave the Store as it was. *)
Theorem enumeration_needs_constructor (key : string) (exemplar : O) (ds : Store B) :
  KVConstructor.assert exemplar = None ->
  (exists msg, List key exemplar ds = (inl (kvstore.Errorf msg), ds))
  /\ (exists msg, Map key exemplar ds = (inl (kvstore.Errorf msg), ds))
  /\ (forall c : option Cache,
        (exists msg, List key exemplar (withCache c ds) = (inl (kvstore.Errorf msg), withCache c ds))
        /\ (exists msg, Map key exemplar (withCache c ds) = (inl (kvstore.Errorf msg), withCache c ds))).
Proof.
  intros Hassert.
  assert (Hlist : forall s : Store B, exists msg, List key exemplar s = (inl (kvstore.Errorf msg), s)).
  { intros s. unfold List, cache_list, iterateKVPairsFromStore. rewrite Hassert.
    destruct (cache s); eexists; reflexivity. }
  assert (Hmap : forall s : Store B, exists msg, Map key exemplar s = (inl (kvstore.Errorf msg), s)).
  { intros s. unfold Map, iterateKVPairsFromStore. rewrite Hassert.
    eexists; reflexivity. }
  split; [apply Hlist |]. split; [apply Hmap |].
  intros c. split; [apply Hlist | apply Hmap].
Qed.

End Enumeration.

Lemma enumeration_needs_constructor_witness :
  (exists msg, List "docker/network/v1.0/dummy/" (noConstructor "a") freshStore =
                 (inl (kvstore.Errorf msg), freshStore))
  /\ (exists msg, List "docker/network/v1.0/dummy/" (noConstructor "a") bareStore =
                    (inl (kvstore.Errorf msg), bareStore))
  /\ (exists msg, Map "docker/network/v1.0/dummy/" (noConstructor "a") freshStore =
                    (inl (kvstore.Errorf msg), freshStore)).
Proof.
  split; [| split].
  - apply (enumeration_needs_constructor _ (noConstructor "a") freshStore). reflexivity.
  - apply (enumeration_needs_constructor _ (noConstructor "a") bareStore). reflexivity.
  - apply (enumeration_needs_constructor _ (noConstructor "a") freshStore). reflexivity.
Defined.

Section EmptyValues.

Context {B : Type} `{!kvstore.Store B}.
Context {O : Type} `{!KVObject.t O} `{!KVConstructor.Assert O}.

Lemma List_fold_objects (pos : list (KVPair * O)) :
  forall acc : list O,
    fold_left (fun a po => a ++ [snd po]) pos acc = acc ++ (snd <$> pos).
Proof.
  induction pos as [| po rest IH]; intros acc; simpl.
  - rewrite app_nil_r. reflexivity.
  - rewrite IH, <- app_assoc. reflexivity.
Qed.

Lemma List_success_objects (key : string) (kvObject : O) (ds ds' : Store B)
    (kvol : list O) :
  cache ds = None ->
  List key kvObject ds = (inr kvol, ds') ->
  exists ctor ds1 kvList,
    KVConstructor.assert kvObject = Some ctor
    /\ ensureParent key ds = (None, ds1)
    /\ fst (kvstore.List key (store ds1)) = inr kvList
    /\ Forall2 (fun p o => materialize ctor (kvstore.Value p) (kvstore.LastIndex p) = inr o)
         (List.filter nonEmpty kvList) kvol.
Proof.
  intros Hcache. unfold List. rewrite Hcache.
  destruct (iterateKVPairsFromStore _ _ _ _ _) as [[[e |] kvol'] ds2] eqn:Hit; [discriminate |].
  intros [= -> ->].
  destruct (iterate_success _ _ _ _ _ _ _ Hit)
    as (ctor & ds1 & kvList & Hassert & Hparent & Hlist & _ & _ & _ & Hloop).
  exists ctor, ds1, kvList. repeat split; auto.
  destruct (iteratePairs_success _ _ _ _ _ Hloop) as (objs & Hall & ->).
  rewrite List_fold_objects. simpl.
  rewrite snd_zip; [exact Hall |].
  apply Forall2_length in Hall. lia.
Qed.

(** C9. The loop shared by [List] and [Map] skips every listed pair whose
    value has length zero: it runs as it would on the listing with those
    pairs removed, so a pair with the empty value, at any key and version,
    changes nothing.  [ensureParent] writes the parent key with the empty
    value when the backend does not have it.  The objects [List] (without a
    Cache) returns are those of the listed pairs with a non-empty value, in
    order, and the keys of [Map]'s result are those pairs' trimmed keys. *)
Theorem enumeration_omits_empty_values {A : Type} (ctor : KVConstructor.t O)
    (callback : string -> O -> A -> A) (kvList : list KVPair) (acc : A) :
  iteratePairs ctor callback kvList acc =
    iteratePairs ctor callback
      (List.filter (fun kvPair => negb (length (kvstore.Value kvPair) =? 0)%nat) kvList) acc
  /\ (forall (before after : list KVPair) (parent : string) (index : Z),
        iteratePairs ctor callback (before ++ kvstore.mkKVPair parent [] index :: after) acc =
        iteratePairs ctor callback (before ++ after) acc)
  /\ (forall (ds : Store B) (parent : string),
        fst (kvstore.Exists parent (store ds)) = inr false ->
        calls (snd (ensureParent parent ds)) =
          calls ds ++ [kvstore.CallExists parent; kvstore.CallPut parent []])
  /\ (forall (key : string) (exemplar : O) (ds ds' : Store B) (kvol : list O),
        cache ds = None ->
        List key exemplar ds = (inr kvol, ds') ->
        exists ctor' ds1 listed,
          KVConstructor.assert exemplar = Some ctor'
          /\ ensureParent key ds = (None, ds1)
          /\ fst (kvstore.List key (store ds1)) = inr listed
          /\ Forall2
               (fun p o => materialize ctor' (kvstore.Value p) (kvstore.LastIndex p) = inr o)
               (List.filter (fun kvPair => negb (length (kvstore.Value kvPair) =? 0)%nat) listed)
               kvol)
  /\ (forall (key : string) (exemplar : O) (ds ds' : Store B) (m : gmap string O),
        Map key exemplar ds = (inr m, ds') ->
        exists ds1 listed,
          ensureParent key ds = (None, ds1)
          /\ fst (kvstore.List key (store ds1)) = inr listed
          /\ (forall k, is_Some (m !! k) <->
                exists p, p ∈ listed /\ kvstore.Value p <> [] /\ k = Trim (kvstore.Key p) "/")).
Proof.
  split; [exact (iteratePairs_filter ctor callback kvList acc) |].
  split.
  { intros before after parent index.
    rewrite iteratePairs_filter, (iteratePairs_filter _ _ (before ++ after)).
    rewrite !List.filter_app. reflexivity. }
  split.
  { intros ds parent Hexists.
    unfold ensureParent, storeExists, storePut, invoke.
    destruct (kvstore.Exists parent (store ds)) as [r b1]. simpl in Hexists. subst r.
    simpl. destruct (kvstore.Put parent [] b1) as [e b2]. simpl.
    rewrite <- app_assoc. reflexivity. }
  split.
  { intros key exemplar ds ds' kvol Hcache Hlist.
    destruct (List_success_objects _ _ _ _ _ Hcache Hlist)
      as (ctor' & ds1 & listed & ? & ? & ? & ?).
    exists ctor', ds1, listed. auto. }
  intros key exemplar ds ds' m Hmap.
  destruct (Map_success_keys _ _ _ _ _ Hmap) as (ds1 & listed & ? & ? & _ & _ & _ & ?).
  exists ds1, listed. auto.
Qed.

End EmptyValues.

Lemma enumeration_omits_empty_values_witness :
  db (store scanned) !! parentKey = Some ([], 1%Z)
  /\ fst (Map parentKey exemplar scanned) = inr ∅
  /\ fst (List parentKey exemplar scanned) = inr [].
Proof.
  split; [reflexivity |].
  destruct (enumeration_omits_empty_values (B := memStore)
              (KVConstructor.mk exemplar (fun dst => (None, dst)))
              (fun (_ : string) (o : dummyObject) (kvol : list dummyObject) => kvol ++ [o])
              [kvstore.mkKVPair parentKey [] 1] [])
    as (_ & _ & _ & Hlist & Hmap).
  split.
  - destruct (Hmap parentKey exemplar scanned (snd (Map parentKey exemplar scanned)) ∅)
      as (ds1 & listed & _ & _ & _); reflexivity.
  - destruct (Hlist parentKey exemplar scanned (snd (List parentKey exemplar scanned)) [])
      as (ctor' & ds1 & listed & _ & _ & _ & _); reflexivity.
Defined.

Section MapBypass.

Context {B : Type} `{!kvstore.Store B}.
Context {O : Type} `{!KVObject.t O} `{!KVConstructor.Assert O}.

Lemma Map_ignores_cache (key : string) (exemplar : O) (ds : Store B) (c : option Cache) :
  Map key exemplar (withCache c ds) =
  (fst (Map key exemplar ds), withCache c (snd (Map key exemplar ds))).
Proof.
  unfold Map. rewrite iterate_ignores_cache.
  destruct (iterateKVPairsFromStore _ _ _ _ ds) as [[[e |] m] ds']; reflexivity.
Qed.

End MapBypass.

Section Frames.

Context {B : Type} `{!kvstore.Store B}.
Context {O : Type} `{!KVObject.t O} `{!KVConstructor.Assert O}.

Lemma keeps_refl (ds : Store B) : keeps ds ds.
Proof. split; auto. Qed.

Lemma keeps_trans (ds1 ds2 ds3 : Store B) : keeps ds1 ds2 -> keeps ds2 ds3 -> keeps ds1 ds3.
Proof. intros [Hs1 Hc1] [Hs2 Hc2]. split; [congruence | auto]. Qed.

Lemma invoke_keeps {A : Type} (call : kvstore.Call) (m : B -> A * B) (ds : Store B) :
  keeps ds (snd (invoke call m ds)).
Proof. unfold invoke. destruct (m (store ds)). split; auto. Qed.

Lemma add_cache_keeps (o : O) (ds : Store B) : keeps ds (snd (add_cache o ds)).
Proof.
  unfold add_cache. destruct (cache ds) as [c |] eqn:Hc; [| apply keeps_refl].
  destruct (cache_add c o (KVObject.Skip o)) as [[e o'] c']. split; simpl; eauto.
Qed.

Lemma deleteCache_keeps (o : O) (ds : Store B) : keeps ds (snd (deleteCache o ds)).
Proof.
  unfold deleteCache. destruct (cache ds) as [c |] eqn:Hc; [| apply keeps_refl].
  destruct (cache_del c o (KVObject.Skip o)) as [e c']. split; simpl; eauto.
Qed.

Lemma iterate_keeps {A : Type} (key : string) (kvObject : O)
    (callback : string -> O -> A -> A) (acc : A) (ds : Store B) :
  keeps ds (snd (iterateKVPairsFromStore key kvObject callback acc ds)).
Proof.
  unfold iterateKVPairsFromStore.
  destruct (KVConstructor.assert kvObject) as [ctor |]; [| apply keeps_refl].
  destruct (ensureParent key ds) as [e ds1] eqn:Hparent.
  destruct (ensureParent_calls _ _ _ _ Hparent) as (Hc & Hs & _).
  assert (Hk1 : keeps ds ds1) by (split; [exact Hs | rewrite Hc; auto]).
  destruct e as [e |]; [exact Hk1 |].
  pose proof (invoke_keeps (kvstore.CallList key) (kvstore.List key) ds1) as H2.
  unfold storeList. destruct (invoke _ _ ds1) as [[e | kvList] ds2]; simpl in *.
  - eapply keeps_trans; eauto.
  - destruct (iteratePairs _ _ _ _). simpl. eapply keeps_trans; eauto.
Qed.

Lemma serve_keeps (ds : Store B) (r : request O) : keeps ds (serve ds r).
Proof.
  destruct r as [[o |] | key o | key o | key o | [o |] |]; simpl.
  - unfold PutObjectAtomic. destruct (KVObject.Value o); [| apply keeps_refl].
    destruct (KVObject.Skip o); [apply add_cache_keeps |].
    unfold storeAtomicPut.
    match goal with
    | |- context [invoke ?c ?m ds] => pose proof (invoke_keeps c m ds) as H2;
        destruct (invoke c m ds) as [[e | p] ds1]
    end; simpl in *; [exact H2 |].
    eapply keeps_trans; [exact H2 | apply add_cache_keeps].
  - apply keeps_refl.
  - unfold GetObject. destruct (cache ds) as [c |] eqn:Hc.
    + destruct (cache_get c o). apply keeps_refl.
    + unfold storeGet.
      pose proof (invoke_keeps (kvstore.CallGet key) (kvstore.Get key) ds) as H2.
      destruct (invoke _ _ ds) as [[e | p] ds1]; simpl in *; [exact H2 |].
      destruct (KVObject.SetValue _ o) as [[e |] o']; exact H2.
  - unfold List. destruct (cache ds) as [c |] eqn:Hc; [apply keeps_refl |].
    match goal with
    | |- context [iterateKVPairsFromStore ?k ?x ?cb ?a ds] =>
        pose proof (iterate_keeps k x cb a ds) as H2;
        destruct (iterateKVPairsFromStore k x cb a ds) as [[[e |] kvol] ds1]
    end; exact H2.
  - unfold Map.
    match goal with
    | |- context [iterateKVPairsFromStore ?k ?x ?cb ?a ds] =>
        pose proof (iterate_keeps k x cb a ds) as H2;
        destruct (iterateKVPairsFromStore k x cb a ds) as [[[e |] kvol] ds1]
    end; exact H2.
  - unfold DeleteObjectAtomic. destruct (KVObject.Skip o); [apply deleteCache_keeps |].
    unfold storeAtomicDelete.
    match goal with
    | |- context [invoke ?c ?m ds] => pose proof (invoke_keeps c m ds) as H2;
        destruct (invoke c m ds) as [[e |] ds1]
    end; simpl in *; [exact H2 |].
    eapply keeps_trans; [exact H2 | apply deleteCache_keeps].
  - apply keeps_refl.
  - split; auto.
Qed.

Lemma run_keeps (reqs : list (request O)) : forall ds : Store B, keeps ds (run ds reqs).
Proof.
  induction reqs as [| r rest IH]; intros ds; [apply keeps_refl |].
  unfold run. simpl. eapply keeps_trans; [apply serve_keeps | apply IH].
Qed.

End Frames.

Section Construction.

Context {B : Type} `{!kvstore.Store B}.
Context {O : Type} `{!KVObject.t O} `{!KVConstructor.Assert O}.
Variable boltdb_New : list string -> kvstore.Config -> error + B.

Lemma String_eqb_false (a b : string) : a <> b -> String.eqb a b = false.
Proof. intros Hne. apply String.eqb_neq. exact Hne. Qed.

Lemma newClient_built (kv addr : string) (config : option kvstore.Config) (ds : Store B) :
  newClient boltdb_New kv addr config = inr ds ->
  scope ds = scope.Local /\ cache ds = Some ∅ /\ calls ds = [].
Proof.
  unfold newClient. destruct (negb (String.eqb kv kvstore.BOLTDB)); [discriminate |].
  destruct (boltdb_New _ _) as [e | s]; [discriminate |].
  intros [= <-]. auto.
Qed.

(** C10. [New] substitutes the default local configuration when the
    provider or the address is empty; with the provider it then has, if
    that is not the embedded boltdb backend, it fails with the
    unsupported-KV-store error.  Every Store [New] returns has the local
    scope and a Cache, and keeps both through any run of requests: its
    [Scope()] is local, and [GetObject] and [List] on it are answered by the
    Cache. *)
Theorem New_builds_local_cached_store (cfg : ScopeCfg) :
  (Provider (Client cfg) <> "" -> Address (Client cfg) <> "" ->
   Provider (Client cfg) <> kvstore.BOLTDB ->
   New boltdb_New cfg = inl (kvstore.Errorf "unsupported KV store"))
  /\ (Provider (Client cfg) = "" \/ Address (Client cfg) = "" ->
      New boltdb_New cfg =
        newClient boltdb_New kvstore.BOLTDB (defaultPrefix +:+ "/local-kv.db")
          (Some {| kvstore.Bucket := "libnetwork"; kvstore.ConnectionTimeout := Minute |}))
  /\ (forall (kv addr : string) (config : option kvstore.Config),
        kv <> kvstore.BOLTDB ->
        newClient boltdb_New kv addr config = inl (kvstore.Errorf "unsupported KV store"))
  /\ (forall ds : Store B,
        New boltdb_New cfg = inr ds ->
        scope ds = scope.Local /\ cache ds = Some ∅
        /\ forall reqs : list (request O),
             let ds' := run ds reqs in
             Scope ds' = scope.Local
             /\ exists c : Cache,
                  cache ds' = Some c
                  /\ (forall (key : string) (o : O),
                        GetObject key o ds' = (fst (cache_get c o), snd (cache_get c o), ds'))
                  /\ (forall (key : string) (exemplar : O),
                        List key exemplar ds' = (cache_list c exemplar, ds'))).
Proof.
  assert (Hunsupported : forall kv addr config, kv <> kvstore.BOLTDB ->
            newClient boltdb_New kv addr config = inl (kvstore.Errorf "unsupported KV store")).
  { intros kv addr config Hkv. unfold newClient.
    rewrite (String_eqb_false _ _ Hkv). reflexivity. }
  split.
  { intros Hp Ha Hkv. unfold New.
    rewrite (String_eqb_false _ _ Hp), (String_eqb_false _ _ Ha). simpl.
    apply Hunsupported. exact Hkv. }
  split.
  { intros Hempty. unfold New.
    assert (Hor : String.eqb (Provider (Client cfg)) "" || String.eqb (Address (Client cfg)) ""
                  = true).
    { destruct Hempty as [-> | ->]; [reflexivity |].
      rewrite String.eqb_refl. apply orb_true_r. }
    rewrite Hor. reflexivity. }
  split; [exact Hunsupported |].
  intros ds Hnew.
  assert (Hbuilt : scope ds = scope.Local /\ cache ds = Some ∅ /\ calls ds = []).
  { unfold New in Hnew. eapply newClient_built. exact Hnew. }
  destruct Hbuilt as (Hscope & Hcache & _).
  split; [exact Hscope |]. split; [exact Hcache |].
  intros reqs ds'.
  destruct (run_keeps reqs ds) as [Hs Hc]. fold ds' in Hs, Hc.
  split; [unfold Scope; congruence |].
  destruct Hc as [c Hc]; [rewrite Hcache; eauto |].
  exists c. split; [exact Hc |]. split.
  - intros key o. unfold GetObject. rewrite Hc. destruct (cache_get c o); reflexivity.
  - intros key exemplar. unfold List. rewrite Hc. reflexivity.
Qed.

End Construction.

Lemma New_builds_local_cached_store_witness :
  New openEmpty {| Client := {| Provider := "etcd"; Address := "127.0.0.1:2379";
                                Config := None |} |}
    = inl (kvstore.Errorf "unsupported KV store")
  /\ New openEmpty {| Client := {| Provider := ""; Address := ""; Config := None |} |}
     = inr freshStore
  /\ Scope (run freshStore [ReqPut (Some (persisted "a" payloadA 0 false))]) = scope.Local.
Proof.
  split; [| split].
  - destruct (New_builds_local_cached_store (O := dummyObject) openEmpty
                {| Client := {| Provider := "etcd"; Address := "127.0.0.1:2379";
                                Config := None |} |})
      as (Hother & _).
    apply Hother; unfold kvstore.BOLTDB; simpl; discriminate.
  - destruct (New_builds_local_cached_store (O := dummyObject) openEmpty
                {| Client := {| Provider := ""; Address := ""; Config := None |} |})
      as (_ & Hdefault & _).
    rewrite Hdefault by (left; reflexivity). reflexivity.
  - destruct (New_builds_local_cached_store (O := dummyObject) openEmpty
                {| Client := {| Provider := ""; Address := ""; Config := None |} |})
      as (_ & _ & _ & Hbuilt).
    destruct (Hbuilt freshStore eq_refl) as (_ & _ & Hrun).
    apply (Hrun [ReqPut (Some (persisted "a" payloadA 0 false))]).
Defined.

Section Coherence.

Context {B : Type} `{!kvstore.Store B}.
Context {O : Type} `{!KVObject.t O} `{!KVConstructor.Assert O}.
Context `{HL : !KVObject.Laws O}.

Lemma uint64_ge (z : Z) : (z < 2 ^ 64)%Z -> (z <= uint64 z)%Z.
Proof.
  intros Hz. unfold uint64.
  destruct (Z.neg_nonneg_cases z) as [Hneg | Hpos].
  - pose proof (Z.mod_pos_bound z (2 ^ 64) ltac:(lia)). lia.
  - rewrite Z.mod_small by lia. lia.
Qed.

Lemma invoke_cache {A : Type} (call : kvstore.Call) (m : B -> A * B) (ds : Store B) :
  cache (snd (invoke call m ds)) = cache ds.
Proof. unfold invoke. destruct (m (store ds)). reflexivity. Qed.

Lemma iterate_cache {A : Type} (key : string) (kvObject : O)
    (callback : string -> O -> A -> A) (acc : A) (ds : Store B) :
  cache (snd (iterateKVPairsFromStore key kvObject callback acc ds)) = cache ds.
Proof.
  unfold iterateKVPairsFromStore.
  destruct (KVConstructor.assert kvObject) as [ctor |]; [| reflexivity].
  destruct (ensureParent key ds) as [e ds1] eqn:Hparent.
  destruct (ensureParent_calls _ _ _ _ Hparent) as (Hc & _ & _).
  destruct e as [e |]; [exact Hc |].
  pose proof (invoke_cache (kvstore.CallList key) (kvstore.List key) ds1) as H2.
  unfold storeList. destruct (invoke _ _ ds1) as [[e | kvList] ds2]; simpl in *.
  - congruence.
  - destruct (iteratePairs _ _ _ _). simpl. congruence.
Qed.

Lemma held_Get (b : B) (k : string) (kvPair : KVPair) :
  held b k = Some kvPair -> fst (kvstore.Get k b) = inr kvPair.
Proof.
  unfold held. destruct (fst (kvstore.Get k b)); [discriminate | congruence].
Qed.

Lemma held_version (b : B) (k : string) (kvPair : KVPair) :
  held b k = Some kvPair -> backendVersion b k = Some (kvstore.LastIndex kvPair).
Proof. unfold backendVersion. intros ->. reflexivity. Qed.

Lemma undisturbed_refl (b : B) (k : string) : undisturbed b b k.
Proof. intros v Hv. exact Hv. Qed.

Lemma undisturbed_trans (b1 b2 b3 : B) (k : string) :
  undisturbed b1 b2 k -> undisturbed b2 b3 k -> undisturbed b1 b3 k.
Proof. intros H12 H23 v Hv. apply H12, H23, Hv. Qed.

(** Coherence is kept by a step that leaves the Cache alone and disturbs
    no key of the backend. *)
Lemma coherent_undisturbed (ds ds' : Store B) :
  cache ds' = cache ds ->
  (forall k, undisturbed (store ds) (store ds') k) ->
  coherent ds -> coherent ds'.
Proof.
  intros Hc Hb Hcoh c k e v Hc' He Hv. rewrite Hc in Hc'.
  exact (Hcoh c k e v Hc' He (Hb k v Hv)).
Qed.

(** A Store without a Cache is coherent, and so is one whose Cache is
    empty. *)
Lemma coherent_bare (ds : Store B) : cache ds = None -> coherent ds.
Proof. intros Hnone c k e v Hc. congruence. Qed.

Lemma coherent_empty (ds : Store B) : cache ds = Some ∅ -> coherent ds.
Proof.
  intros Hempty c k e v Hc He. rewrite Hempty in Hc. injection Hc as <-.
  rewrite lookup_empty in He. discriminate.
Qed.

Lemma cached_lookup (ds : Store B) (c : Cache) (k : string) (e : entry) :
  cache ds = Some c -> c !! k = Some e -> default ∅ (cache ds) !! k = Some e.
Proof. intros -> He. exact He. Qed.

(** What a successful put of a persisted object has done. *)
Lemma PutObjectAtomic_success (obj obj' : O) (ds ds' : Store B) :
  KVObject.Skip obj = false ->
  PutObjectAtomic (Some obj) ds = (None, Some obj', ds') ->
  exists value p,
    KVObject.Value obj = Some value
    /\ kvstore.AtomicPut (Key (KVObject.Key obj)) value
         (if KVObject.Exists obj then Some (token obj) else None) (store ds)
       = (inr p, store ds')
    /\ obj' = KVObject.SetIndex (kvstore.LastIndex p) obj
    /\ cache ds' =
         (fun c : Cache =>
            <[Key (KVObject.Key obj) :=
                mkEntry value (kvstore.LastIndex p) (KVObject.DataScope obj')]> c)
         <$> cache ds.
Proof.
  intros Hskip. unfold PutObjectAtomic.
  destruct (KVObject.Value obj) as [value |] eqn:Hvalue; [| discriminate].
  rewrite Hskip. unfold storeAtomicPut, invoke.
  destruct (kvstore.AtomicPut _ _ _ (store ds)) as [[e | p] b'] eqn:Hput; [discriminate |].
  unfold add_cache. cbn [cache].
  rewrite KVObject.Skip_SetIndex, Hskip.
  destruct (cache ds) as [c |]; simpl.
  - unfold cache_add, mirror.
    rewrite KVObject.Key_SetIndex, KVObject.Index_SetIndex, KVObject.Value_SetIndex, Hvalue.
    intros [= <- <-]. exists value, p. simpl. auto.
  - intros [= <- <-]. exists value, p. simpl. auto.
Qed.

Section Invariant.

Context `{HB : !BackingStore B}.

Lemma put_coherent (o : O) (ds : Store B) :
  coherent ds ->
  admissible ds (ReqPut (Some o)) ->
  coherent (snd (PutObjectAtomic (Some o) ds)).
Proof.
  intros Hcoh Hadm. cbn [admissible] in Hadm. unfold PutObjectAtomic.
  destruct (KVObject.Value o) as [value |] eqn:Hvalue; [| exact Hcoh].
  destruct (KVObject.Skip o) eqn:Hskip.
  - (* sequenced by the Cache *)
    unfold add_cache. destruct (cache ds) as [c |] eqn:Hc; [| exact Hcoh].
    rewrite Hskip.
    destruct (decide (KVObject.Index o = cachedVersion c (Key (KVObject.Key o))))
      as [Hidx | Hidx].
    + rewrite (cache_add_skip_ok c o Hidx). cbn [snd].
      intros c' k e v Hc' He Hv. cbn [snd cache store withCache] in Hc', Hv. injection Hc' as <-.
      destruct (decide (k = Key (KVObject.Key o))) as [-> | Hne].
      * rewrite lookup_insert_eq in He. injection He as <-. cbn [mirror mirrorVersion].
        rewrite <- Hidx.
        exact (Hadm eq_refl ltac:(eauto) c v eq_refl Hidx Hv).
      * rewrite lookup_insert_ne in He by congruence.
        exact (Hcoh c k e v Hc He Hv).
    + rewrite (cache_add_skip_conflict c o Hidx). cbn [snd].
      apply (coherent_undisturbed ds);
        [symmetry; exact Hc | intros; apply undisturbed_refl | exact Hcoh].
  - (* arbitrated by the backend *)
    unfold storeAtomicPut, invoke.
    destruct (kvstore.AtomicPut _ _ _ (store ds)) as [[err | p] b'] eqn:Hput.
    + cbn [snd].
      apply (coherent_undisturbed ds); [reflexivity | | exact Hcoh].
      intros k. cbn [store].
      destruct (decide (k = Key (KVObject.Key o))) as [-> | Hne].
      * exact (AtomicPut_refused _ _ _ _ _ _ Hput).
      * pose proof (AtomicPut_others _ value
                      (if KVObject.Exists o then Some (token o) else None)
                      (store ds) k Hne) as Hothers.
        rewrite Hput in Hothers. exact Hothers.
    + unfold add_cache. cbn [cache].
      destruct (cache ds) as [c |] eqn:Hc; [| apply coherent_bare; reflexivity].
      rewrite KVObject.Skip_SetIndex, Hskip. unfold cache_add.
      rewrite KVObject.Key_SetIndex, KVObject.Index_SetIndex. cbn [snd].
      intros c' k e v Hc' He Hv. cbn [snd cache store withCache] in Hc', Hv. injection Hc' as <-.
      destruct (decide (k = Key (KVObject.Key o))) as [-> | Hne].
      * rewrite lookup_insert_eq in He. injection He as <-. cbn [mirror mirrorVersion].
        destruct (AtomicPut_held _ _ _ _ _ _ Hput) as (stored & Hheld & _ & Hversion).
        rewrite (held_version _ _ _ Hheld) in Hv. injection Hv as <-. lia.
      * rewrite lookup_insert_ne in He by congruence.
        apply (Hcoh c k e v Hc He).
        pose proof (AtomicPut_others _ value
                      (if KVObject.Exists o then Some (token o) else None)
                      (store ds) k Hne) as Hothers.
        rewrite Hput in Hothers. exact (Hothers v Hv).
Qed.

Lemma delete_coherent (o : O) (ds : Store B) :
  coherent ds -> coherent (snd (DeleteObjectAtomic (Some o) ds)).
Proof.
  intros Hcoh. unfold DeleteObjectAtomic.
  destruct (KVObject.Skip o) eqn:Hskip.
  - (* recorded by the Cache alone *)
    unfold deleteCache. destruct (cache ds) as [c |] eqn:Hc; [| exact Hcoh].
    unfold cache_del.
    destruct (c !! Key (KVObject.Key o)) as [e0 |] eqn:He0; cbn [snd].
    + destruct (_ && _); cbn [snd].
      * apply (coherent_undisturbed ds);
          [symmetry; exact Hc | intros; apply undisturbed_refl | exact Hcoh].
      * intros c' k e v Hc' He Hv. cbn [snd cache store withCache] in Hc', Hv.
        injection Hc' as <-. apply lookup_delete_Some in He as [_ He].
        exact (Hcoh c k e v Hc He Hv).
    + apply (coherent_undisturbed ds);
        [symmetry; exact Hc | intros; apply undisturbed_refl | exact Hcoh].
  - (* arbitrated by the backend *)
    unfold storeAtomicDelete, invoke.
    destruct (kvstore.AtomicDelete _ _ (store ds)) as [[err |] b'] eqn:Hdel.
    + cbn [snd].
      apply (coherent_undisturbed ds); [reflexivity | | exact Hcoh].
      intros k. cbn [store].
      destruct (decide (k = Key (KVObject.Key o))) as [-> | Hne].
      * exact (AtomicDelete_refused _ _ _ _ _ Hdel).
      * pose proof (AtomicDelete_others _ (Some (token o)) (store ds) k Hne) as Hothers.
        rewrite Hdel in Hothers. exact Hothers.
    + unfold deleteCache. cbn [cache].
      destruct (cache ds) as [c |] eqn:Hc; [| apply coherent_bare; reflexivity].
      rewrite Hskip. unfold cache_del.
      assert (Hothers : forall k v, k <> Key (KVObject.Key o) ->
                backendVersion b' k = Some v -> backendVersion (store ds) k = Some v).
      { intros k v Hne Hv.
        pose proof (AtomicDelete_others _ (Some (token o)) (store ds) k Hne) as Hk.
        rewrite Hdel in Hk. exact (Hk v Hv). }
      destruct (c !! Key (KVObject.Key o)) as [e0 |] eqn:He0; cbn [andb snd];
        intros c' k e v Hc' He Hv; cbn [snd cache store withCache] in Hc', Hv;
        injection Hc' as <-.
      * apply lookup_delete_Some in He as [Hne He].
        apply (Hcoh c k e v Hc He). apply Hothers; [congruence | exact Hv].
      * destruct (decide (k = Key (KVObject.Key o))) as [-> | Hne]; [congruence |].
        apply (Hcoh c k e v Hc He). apply Hothers; [exact Hne | exact Hv].
Qed.

Lemma scan_coherent {A : Type} (key : string) (kvObject : O)
    (callback : string -> O -> A -> A) (acc : A) (ds : Store B) :
  coherent ds ->
  admissible ds (ReqMap key kvObject) ->
  coherent (snd (iterateKVPairsFromStore key kvObject callback acc ds)).
Proof.
  intros Hcoh Hadm. cbn [admissible] in Hadm. unfold iterateKVPairsFromStore.
  destruct (KVConstructor.assert kvObject) as [ctor |]; [| exact Hcoh].
  specialize (Hadm ltac:(eauto)).
  unfold ensureParent, storeExists, storePut, storeList, invoke.
  destruct (kvstore.Exists key (store ds)) as [[err | [|]] b1] eqn:Hexists.
  - (* the backend cannot tell *)
    cbn [snd]. apply (coherent_undisturbed ds); [reflexivity | | exact Hcoh].
    intros k. cbn [store].
    pose proof (Exists_reads key (store ds) k) as Hk. rewrite Hexists in Hk. exact Hk.
  - (* the parent is there *)
    cbn [store].
    assert (Hframe : forall k, undisturbed (store ds) (snd (kvstore.List key b1)) k).
    { intros k. apply (undisturbed_trans _ b1).
      - pose proof (Exists_reads key (store ds) k) as Hk. rewrite Hexists in Hk. exact Hk.
      - apply List_reads. }
    destruct (kvstore.List key b1) as [[err | kvList] b2]; cbn [snd] in *.
    + apply (coherent_undisturbed ds); [reflexivity | exact Hframe | exact Hcoh].
    + destruct (iteratePairs ctor callback kvList acc). cbn [snd].
      apply (coherent_undisturbed ds); [reflexivity | exact Hframe | exact Hcoh].
  - (* the placeholder is written *)
    cbn [store].
    destruct (kvstore.Put key [] b1) as [perr b2] eqn:Hput.
    assert (Hb2 : forall c k e v, cache ds = Some c -> c !! k = Some e ->
              backendVersion b2 k = Some v -> (v <= mirrorVersion e)%Z).
    { intros c k e v Hc He Hv.
      destruct (decide (k = key)) as [-> | Hne].
      - exact (Hadm c e b1 b2 perr v Hc He eq_refl Hput Hv).
      - apply (Hcoh c k e v Hc He).
        pose proof (Exists_reads key (store ds) k) as Hk. rewrite Hexists in Hk.
        apply Hk.
        pose proof (Put_others key [] b1 k Hne) as Hp. rewrite Hput in Hp.
        exact (Hp v Hv). }
    destruct perr as [err |]; cbn [snd cache store].
    + intros c k e v Hc He Hv. exact (Hb2 c k e v Hc He Hv).
    + assert (Hb3 : forall k, undisturbed b2 (snd (kvstore.List key b2)) k)
        by (intros k; apply List_reads).
      destruct (kvstore.List key b2) as [[err | kvList] b3]; cbn [snd] in *.
      * intros c k e v Hc He Hv. exact (Hb2 c k e v Hc He (Hb3 k v Hv)).
      * destruct (iteratePairs ctor callback kvList acc). cbn [snd].
        intros c k e v Hc He Hv. exact (Hb2 c k e v Hc He (Hb3 k v Hv)).
Qed.

Lemma serve_coherent (ds : Store B) (r : request O) :
  coherent ds -> admissible ds r -> coherent (serve ds r).
Proof.
  intros Hcoh Hadm.
  destruct r as [[o |] | key o | key o | key o | [o |] |]; cbn [serve].
  - apply put_coherent; assumption.
  - exact Hcoh.
  - (* get *)
    unfold GetObject. destruct (cache ds) as [c |] eqn:Hc.
    + destruct (cache_get c o). exact Hcoh.
    + apply coherent_bare. unfold storeGet.
      pose proof (invoke_cache (kvstore.CallGet key) (kvstore.Get key) ds) as Hi.
      destruct (invoke _ _ ds) as [[err | kvPair] ds1]; cbn [snd] in *; [congruence |].
      destruct (KVObject.SetValue _ o) as [[err |] o']; cbn [snd]; congruence.
  - (* list *)
    unfold List. destruct (cache ds) as [c |] eqn:Hc; [exact Hcoh |].
    apply coherent_bare.
    match goal with
    | |- context [iterateKVPairsFromStore ?k ?x ?cb ?a ds] =>
        pose proof (iterate_cache k x cb a ds) as Hi;
        destruct (iterateKVPairsFromStore k x cb a ds) as [[[err |] kvol] ds1]
    end; cbn [snd] in *; congruence.
  - (* map *)
    unfold Map.
    match goal with
    | |- context [iterateKVPairsFromStore ?k ?x ?cb ?a ds] =>
        pose proof (scan_coherent k x cb a ds Hcoh Hadm) as Hi;
        destruct (iterateKVPairsFromStore k x cb a ds) as [[[err |] kvol] ds1]
    end; exact Hi.
  - apply delete_coherent. exact Hcoh.
  - exact Hcoh.
  - (* close *)
    apply (coherent_undisturbed ds); [reflexivity | | exact Hcoh].
    intros k. apply Close_reads.
Qed.

Lemma run_coherent (reqs : list (request O)) :
  forall ds : Store B,
    coherent ds -> admissibleRun ds reqs -> coherent (run ds reqs).
Proof.
  induction reqs as [| r rest IH]; intros ds Hcoh Hadm; [exact Hcoh |].
  destruct Hadm as [Hr Hrest]. unfold run. cbn [fold_left].
  apply IH; [apply serve_coherent; assumption | exact Hrest].
Qed.

End Invariant.

(** C2 (amended). Right after a successful [PutObjectAtomic] of a persisted
    object the object carries the version the backend assigned, and the
    Cache (if the Store has one) mirrors the key with the value written and
    exactly that version; a backend that reads back what it accepted holds
    the key with that value and that version too.  [GetObject] on the same
    key, with an object that accepts the written bytes, then succeeds and
    hydrates it with that value and that version: always on a Store with a
    Cache, and over a backend that reads back what it accepted on a Store
    without one.  A Store whose Cache is empty is coherent whatever its backend
    holds, and over a backend that keeps its contract coherence (a key held
    by both is mirrored at the backend's version or a later one) is kept
    along every run of admissible requests: skip-persistence puts that the
    Cache does not sequence below the backend's version of their key, scans
    whose placeholder the backend does not stamp above the Cache's version
    of the scanned key, and any put or delete of a persisted object, any
    delete of a skip-persistence object, any get, list or close.  In
    particular a skip-persistence put under a key the backend does not
    hold is admissible, and so is a scan under a key the Cache does not
    hold. *)
Theorem put_then_get_coherent :
  (forall (obj obj' : O) (ds ds' : Store B),
     KVObject.Skip obj = false ->
     PutObjectAtomic (Some obj) ds = (None, Some obj', ds') ->
     let key := Key (KVObject.Key obj) in
     exists (value : list Byte.byte) (p : KVPair),
       KVObject.Value obj = Some value
       /\ fst (kvstore.AtomicPut key value
                 (if KVObject.Exists obj
                  then Some (kvstore.mkKVPair key [] (KVObject.Index obj))
                  else None)
                 (store ds)) = inr p
       /\ KVObject.Index obj' = kvstore.LastIndex p
       /\ KVObject.Value obj' = Some value
       /\ (forall c : Cache, cache ds = Some c ->
             exists c' e,
               cache ds' = Some c'
               /\ c' !! key = Some e
               /\ mirrorValue e = value
               /\ mirrorVersion e = kvstore.LastIndex p)
       /\ (readsBack B ->
           exists stored,
             held (store ds') key = Some stored
             /\ kvstore.Value stored = value
             /\ kvstore.LastIndex stored = kvstore.LastIndex p)
       /\ (forall o o1 : O,
             KVObject.SetValue value o = (None, o1) ->
             (is_Some (cache ds) ->
              KVObject.Key o = KVObject.Key obj ->
              forall anyKey : string,
                GetObject anyKey o ds' =
                  (None, KVObject.SetIndex (kvstore.LastIndex p) o1, ds'))
             /\ (cache ds = None ->
                 readsBack B ->
                 fst (GetObject key o ds') =
                   (None, KVObject.SetIndex (kvstore.LastIndex p) o1))))
  /\ (forall ds : Store B, cache ds = Some ∅ -> coherent ds)
  /\ (BackingStore B ->
      forall (ds : Store B) (reqs : list (request O)),
        coherent ds -> admissibleRun ds reqs -> coherent (run ds reqs))
  /\ (forall (ds : Store B) (o : O),
        backendVersion (store ds) (Key (KVObject.Key o)) = None ->
        admissible ds (ReqPut (Some o)))
  /\ (forall (ds : Store B) (key : string) (exemplar : O),
        (forall c : Cache, cache ds = Some c -> c !! key = None) ->
        admissible ds (ReqMap key exemplar)).
Proof.
  split; [| split; [exact coherent_empty |
                    split; [intros HB ds reqs; apply run_coherent | split]]].
  2:{ intros ds o Hnone _ _ c v _ _ Hv. congruence. }
  2:{ intros ds key exemplar Habsent _ c e b1 b2 err v Hc He.
      rewrite (Habsent c Hc) in He. discriminate He. }
  intros obj obj' ds ds' Hskip Hput key.
  destruct (PutObjectAtomic_success _ _ _ _ Hskip Hput)
    as (value & p & Hvalue & Hback & -> & Hcache).
  fold key in Hback, Hcache. unfold token in Hback. fold key in Hback.
  exists value, p. split; [exact Hvalue |].
  split; [rewrite Hback; reflexivity |].
  split; [apply KVObject.Index_SetIndex |].
  split; [rewrite KVObject.Value_SetIndex; exact Hvalue |].
  split.
  { intros c Hc. rewrite Hc in Hcache. cbn in Hcache.
    eexists. eexists. split; [exact Hcache |].
    split; [apply lookup_insert_eq |]. split; reflexivity. }
  split.
  { intros HB. exact (HB _ _ _ _ _ _ Hback). }
  intros o o1 Hset. split.
  - intros [c Hc] Hkey anyKey. rewrite Hc in Hcache. cbn in Hcache.
    unfold GetObject. rewrite Hcache. unfold cache_get.
    rewrite Hkey. fold key. rewrite lookup_insert_eq. cbn [mirrorValue mirrorVersion].
    rewrite Hset. reflexivity.
  - intros Hnone HB. rewrite Hnone in Hcache. cbn in Hcache.
    destruct (HB _ _ _ _ _ _ Hback) as (stored & Hheld & Hv & Hi).
    apply held_Get in Hheld.
    unfold GetObject. rewrite Hcache. unfold storeGet, invoke.
    destruct (kvstore.Get key (store ds')) as [r b''] eqn:Hget.
    cbn [fst] in Hheld. subst r. rewrite Hv, Hset, Hi. reflexivity.
Qed.

End Coherence.

(** The in-memory backend keeps the contract of a BackingStore. *)
Lemma mem_version (b : memStore) (k : string) :
  backendVersion b k = snd <$> db b !! k.
Proof.
  unfold backendVersion, held. cbn. unfold mem_Get.
  destruct (db b !! k) as [[value index] |]; reflexivity.
Qed.

Lemma mem_write_others (key k : string) (value : list Byte.byte) (b : memStore) :
  k <> key -> undisturbed b (mem_write key value b) k.
Proof.
  intros Hne v. rewrite !mem_version. unfold mem_write. cbn.
  rewrite lookup_insert_ne by congruence. auto.
Qed.

Lemma mem_AtomicPut_cases (key : string) (value : list Byte.byte)
    (previous : option KVPair) (b : memStore) :
  (exists err, mem_AtomicPut key value previous b = (inl err, b))
  \/ mem_AtomicPut key value previous b =
       (inr (kvstore.mkKVPair key value (dbIndex b + 1)), mem_write key value b).
Proof.
  unfold mem_AtomicPut.
  destruct previous as [p |], (db b !! key) as [[v i] |]; eauto.
  destruct (decide _); eauto.
Qed.

Lemma mem_AtomicDelete_cases (key : string) (previous : option KVPair) (b : memStore) :
  (exists err, mem_AtomicDelete key previous b = (Some err, b))
  \/ mem_AtomicDelete key previous b = (None, {| db := delete key (db b); dbIndex := dbIndex b |}).
Proof.
  unfold mem_AtomicDelete.
  destruct previous as [p |], (db b !! key) as [[v i] |]; eauto.
  destruct (decide _); eauto.
Qed.

#[global] Instance memStore_BackingStore : BackingStore memStore.
Proof.
  split.
  - intros key value previous b b' kvPair Hput. cbn in Hput.
    destruct (mem_AtomicPut_cases key value previous b) as [[err Herr] | Hok];
      [congruence |].
    rewrite Hok in Hput. injection Hput as <- <-.
    exists (kvstore.mkKVPair key value (dbIndex b + 1)).
    split; [| split; reflexivity].
    unfold held. cbn. unfold mem_Get, mem_write. cbn.
    rewrite lookup_insert_eq. reflexivity.
  - intros key value previous b b' err Hput. cbn in Hput.
    destruct (mem_AtomicPut_cases key value previous b) as [[err' Herr] | Hok];
      [| congruence].
    rewrite Herr in Hput. injection Hput as _ <-. intros v Hv. exact Hv.
  - intros key value previous b k Hne. cbn.
    destruct (mem_AtomicPut_cases key value previous b) as [[err Herr] | Hok].
    + rewrite Herr. intros v Hv. exact Hv.
    + rewrite Hok. apply mem_write_others. exact Hne.
  - intros key previous b b' err Hdel. cbn in Hdel.
    destruct (mem_AtomicDelete_cases key previous b) as [[err' Herr] | Hok];
      [| congruence].
    rewrite Herr in Hdel. injection Hdel as _ <-. intros v Hv. exact Hv.
  - intros key previous b k Hne. cbn.
    destruct (mem_AtomicDelete_cases key previous b) as [[err Herr] | Hok].
    + rewrite Herr. intros v Hv. exact Hv.
    + rewrite Hok. intros v. rewrite !mem_version. cbn.
      rewrite lookup_delete_ne by congruence. auto.
  - intros key value b k Hne. cbn. apply mem_write_others. exact Hne.
  - intros key b k v Hv. exact Hv.
  - intros directory b k. cbn. unfold mem_List.
    destruct (List.filter _ _); intros v Hv; exact Hv.
  - intros b k v Hv. exact Hv.
Qed.

Lemma put_then_get_coherent_witness :
  GetObject "any" (persisted "a" payloadB 0 false) onceWritten =
    (None, persisted "a" payloadA 1 true, onceWritten)
  /\ fst (GetObject keyA (persisted "zzz" payloadB 0 false)
            (run bareStore [ReqPut (Some (persisted "a" payloadA 0 false))]))
     = (None, persisted "zzz" payloadA 1 true)
  /\ coherent (run freshStore layered).
Proof.
  destruct (put_then_get_coherent (B := memStore) (O := dummyObject))
    as (Hput & Hempty & Hrun & _ & _).
  split; [| split].
  - destruct (Hput (persisted "a" payloadA 0 false) (persisted "a" payloadA 1 true)
                freshStore onceWritten)
      as (value & p & Hv & Hb & _ & _ & _ & _ & Hget); [reflexivity | reflexivity |].
    injection Hv as <-. vm_compute in Hb. injection Hb as <-.
    destruct (Hget (persisted "a" payloadB 0 false) (persisted "a" payloadA 0 false))
      as [Hcached _]; [reflexivity |].
    apply (Hcached ltac:(eexists; reflexivity) eq_refl "any").
  - destruct (Hput (persisted "a" payloadA 0 false) (persisted "a" payloadA 1 true)
                bareStore (run bareStore [ReqPut (Some (persisted "a" payloadA 0 false))]))
      as (value & p & Hv & Hb & _ & _ & _ & _ & Hget); [reflexivity | reflexivity |].
    injection Hv as <-. vm_compute in Hb. injection Hb as <-.
    destruct (Hget (persisted "zzz" payloadB 0 false) (persisted "zzz" payloadA 0 false))
      as [_ Hbare]; [reflexivity |].
    exact (Hbare eq_refl (AtomicPut_held (B := memStore))).
  - apply (Hrun memStore_BackingStore).
    + apply Hempty. reflexivity.
    + unfold layered. cbn [admissibleRun].
      repeat apply conj.
      * intros Hskip. discriminate Hskip.
      * intros _ _ c v Hc Hidx Hv. vm_compute in Hv. injection Hv as <-.
        vm_compute. intros Hgt. discriminate Hgt.
      * exact I.
      * intros _ _ c v Hc Hidx Hv. vm_compute in Hv. discriminate Hv.
      * exact I.
      * intros _ c e b1 b2 err v Hc He.
        pose proof (cached_lookup _ _ _ _ Hc He) as Hl.
        vm_compute in Hl. discriminate Hl.
      * intros Hskip. discriminate Hskip.
      * exact I.
Defined.
(** C2, as stated, fails in six ways.  (1) An object may hand out bytes it
    does not take back: the put of an object whose value is the empty slice
    succeeds, and [GetObject], on a Store without a Cache, fails in
    [SetValue].  (2) The backend may not read back what it accepted: it
    goes down after the put and [GetObject] fails in [Get].  (3) After two
    persisted writes of a key, a skip-persistence delete and a
    skip-persistence re-insert, the backend holds the key at version 2 and
    the Cache at version 1.  (4) After a persisted write stamped with the
    last [uint64], a skip-persistence write on top of it wraps the Cache's
    version around to 0.  (5) A scan under a key that only the Cache holds
    writes a placeholder there, which the backend stamps above the Cache's
    version.  (6) Over a backend that restamps all it holds on every
    write, the second of two persisted writes leaves the first key in the
    Cache behind the backend. *)
Lemma coherence_breaks :
  (fst (PutObjectAtomic (Some hollow) bareStore) = (None, Some (persisted "a" [] 1 true))
   /\ fst (fst (GetObject keyA hollow (snd (PutObjectAtomic (Some hollow) bareStore))))
      = Some (kvstore.BackendFailure "unexpected end of JSON input"))
  /\ (fst (PutObjectAtomic (Some (persisted "a" payloadA 0 false)) (flakyStore 1))
      = (None, Some (persisted "a" payloadA 1 true))
      /\ fst (fst (GetObject keyA (persisted "a" [] 0 false)
                     (snd (PutObjectAtomic (Some (persisted "a" payloadA 0 false))
                             (flakyStore 1)))))
         = Some down)
  /\ (coherent freshStore
      /\ backendVersion (store (run freshStore reinsertion)) keyA = Some 2%Z
      /\ default ∅ (cache (run freshStore reinsertion)) !! keyA
         = Some (mkEntry payloadA 1 scope.Local)
      /\ ~ coherent (run freshStore reinsertion))
  /\ (coherent lateStore
      /\ backendVersion (store (run lateStore wrapping)) keyA = Some lastVersion
      /\ default ∅ (cache (run lateStore wrapping)) !! keyA
         = Some (mkEntry payloadB 0 scope.Local)
      /\ ~ coherent (run lateStore wrapping))
  /\ (coherent freshStore
      /\ backendVersion (store (run freshStore shadowed)) keyA = Some 2%Z
      /\ default ∅ (cache (run freshStore shadowed)) !! keyA
         = Some (mkEntry payloadA 1 scope.Local)
      /\ ~ coherent (run freshStore shadowed))
  /\ (coherent revisionedStore
      /\ backendVersion (store (run revisionedStore twoWrites)) keyA = Some 2%Z
      /\ default ∅ (cache (run revisionedStore twoWrites)) !! keyA
         = Some (mkEntry payloadA 1 scope.Local)
      /\ ~ coherent (run revisionedStore twoWrites)).
Proof.
  assert (Hbehind : forall (B : Type) (HS : kvstore.Store B) (ds : Store B)
                      (e : entry) (v : Z),
            default ∅ (cache ds) !! keyA = Some e ->
            backendVersion (store ds) keyA = Some v ->
            (mirrorVersion e < v)%Z -> ~ coherent ds).
  { intros B HS ds e v He Hv Hlt Hcoh.
    destruct (cache ds) as [c |] eqn:Hc; [| discriminate He].
    pose proof (Hcoh c keyA e v Hc He Hv). lia. }
  assert (Hlast : (0 < lastVersion)%Z) by reflexivity.
  split; [split; vm_compute; reflexivity |].
  split; [split; vm_compute; reflexivity |].
  split; [| split; [| split]].
  - split; [exact (coherent_empty freshStore eq_refl) |].
    assert (Hv : backendVersion (store (run freshStore reinsertion)) keyA = Some 2%Z)
      by (vm_compute; reflexivity).
    assert (He : default ∅ (cache (run freshStore reinsertion)) !! keyA
                 = Some (mkEntry payloadA 1 scope.Local))
      by (vm_compute; reflexivity).
    split; [exact Hv |]. split; [exact He |].
    apply (Hbehind _ _ _ _ _ He Hv). cbn [mirrorVersion]. lia.
  - split; [exact (coherent_empty lateStore eq_refl) |].
    assert (Hv : backendVersion (store (run lateStore wrapping)) keyA = Some lastVersion)
      by (vm_compute; reflexivity).
    assert (He : default ∅ (cache (run lateStore wrapping)) !! keyA
                 = Some (mkEntry payloadB 0 scope.Local))
      by (vm_compute; reflexivity).
    split; [exact Hv |]. split; [exact He |].
    apply (Hbehind _ _ _ _ _ He Hv). cbn [mirrorVersion]. exact Hlast.
  - split; [exact (coherent_empty freshStore eq_refl) |].
    assert (Hv : backendVersion (store (run freshStore shadowed)) keyA = Some 2%Z)
      by (vm_compute; reflexivity).
    assert (He : default ∅ (cache (run freshStore shadowed)) !! keyA
                 = Some (mkEntry payloadA 1 scope.Local))
      by (vm_compute; reflexivity).
    split; [exact Hv |]. split; [exact He |].
    apply (Hbehind _ _ _ _ _ He Hv). cbn [mirrorVersion]. lia.
  - split; [exact (coherent_empty revisionedStore eq_refl) |].
    assert (Hv : backendVersion (store (run revisionedStore twoWrites)) keyA = Some 2%Z)
      by (vm_compute; reflexivity).
    assert (He : default ∅ (cache (run revisionedStore twoWrites)) !! keyA
                 = Some (mkEntry payloadA 1 scope.Local))
      by (vm_compute; reflexivity).
    split; [exact Hv |]. split; [exact He |].
    apply (Hbehind _ _ _ _ _ He Hv). cbn [mirrorVersion]. lia.
Qed.

(** ** Keys *)

Section Keys.

Lemma append_cons (x : Ascii.ascii) (a b : string) :
  String x a +:+ b = String x (a +:+ b).
Proof. reflexivity. Qed.

Lemma append_nil_l (a : string) : "" +:+ a = a.
Proof. reflexivity. Qed.

Ltac push_append :=
  repeat first [rewrite append_cons in * | rewrite append_nil_l in *].

Lemma append_assoc (a b c : string) : (a +:+ b) +:+ c = a +:+ (b +:+ c).
Proof.
  induction a as [| x a IH]; [reflexivity |].
  rewrite !append_cons, IH. reflexivity.
Qed.

Lemma append_nil_r (a : string) : a +:+ "" = a.
Proof.
  induction a as [| x a IH]; [reflexivity |].
  rewrite append_cons, IH. reflexivity.
Qed.

Lemma fold_left_slashed (parts : list string) :
  forall b : string,
    fold_left (fun b part => (b +:+ part) +:+ "/") parts b = b +:+ slashed parts.
Proof.
  induction parts as [| part rest IH]; intros b; cbn [fold_left slashed].
  - rewrite append_nil_r. reflexivity.
  - rewrite IH. rewrite !append_assoc. reflexivity.
Qed.

Lemma slashed_app (l1 l2 : list string) : slashed (l1 ++ l2) = slashed l1 +:+ slashed l2.
Proof.
  induction l1 as [| p l1 IH]; cbn [slashed app]; [reflexivity |].
  rewrite IH, !append_assoc. reflexivity.
Qed.

Lemma Key_slashed (key : list string) : Key key = slashed (rootChain ++ key).
Proof.
  unfold Key. cbn [fold_left]. rewrite !fold_left_slashed, append_nil_l.
  rewrite slashed_app. reflexivity.
Qed.

Lemma prefix_append (a b : string) : String.prefix a (a +:+ b) = true.
Proof.
  induction a as [| x a IH]; [destruct b; reflexivity |].
  rewrite append_cons. cbn [String.prefix].
  destruct (Ascii.ascii_dec x x); [exact IH | contradiction].
Qed.

(** X1. The key of a path extends the key of each of its prefixes: every object
    whose key parts start with the parts of [prefix] is rendered under
    [Key prefix], and the empty path renders as the root chain. *)
Theorem Key_extends (prefix rest : list string) :
  Key (prefix ++ rest) = Key prefix +:+ slashed rest
  /\ String.prefix (Key prefix) (Key (prefix ++ rest)) = true
  /\ Key [] = "docker/network/v1.0/".
Proof.
  assert (Heq : Key (prefix ++ rest) = Key prefix +:+ slashed rest).
  { rewrite !Key_slashed, app_assoc, slashed_app. reflexivity. }
  split; [exact Heq |]. split; [| reflexivity].
  rewrite Heq. apply prefix_append.
Qed.

Lemma first_slash (p1 : string) :
  forall (p2 a b : string),
    hasByte "/" p1 = false -> hasByte "/" p2 = false ->
    (p1 +:+ "/") +:+ a = (p2 +:+ "/") +:+ b ->
    p1 = p2 /\ a = b.
Proof.
  induction p1 as [| x p1 IH]; intros [| y p2] a b H1 H2 Heq;
    push_append; cbn [hasByte] in *.
  - injection Heq as ->. auto.
  - injection Heq as <- _. discriminate.
  - injection Heq as -> _. discriminate.
  - injection Heq as -> Heq.
    apply orb_false_iff in H1 as [_ H1]. apply orb_false_iff in H2 as [_ H2].
    destruct (IH p2 a b H1 H2 Heq) as [-> ->]. auto.
Qed.

Lemma slashed_inj (l1 : list string) :
  forall l2 : list string,
    Forall (fun p => hasByte "/" p = false) l1 ->
    Forall (fun p => hasByte "/" p = false) l2 ->
    slashed l1 = slashed l2 -> l1 = l2.
Proof.
  induction l1 as [| p1 l1 IH]; intros [| p2 l2] H1 H2 Heq; cbn [slashed] in *.
  - reflexivity.
  - destruct p2; push_append; discriminate.
  - destruct p1; push_append; discriminate.
  - inversion H1; inversion H2; subst.
    destruct (first_slash p1 p2 _ _ ltac:(assumption) ltac:(assumption) Heq) as [-> Hrest].
    f_equal. apply IH; assumption.
Qed.

(** X2. Two paths whose parts contain no slash have the same key only if they
    are the same path; a slash inside a part is not told apart from the
    separator, so a part [a/b] and the two parts [a], [b] collide. *)
Theorem Key_injective (key1 key2 : list string) :
  (Forall (fun part => hasByte "/" part = false) key1 ->
   Forall (fun part => hasByte "/" part = false) key2 ->
   Key key1 = Key key2 -> key1 = key2)
  /\ (forall (a b : string) (rest : list string),
        Key (((a +:+ "/") +:+ b) :: rest) = Key (a :: b :: rest)).
Proof.
  split.
  - intros H1 H2 Heq. rewrite !Key_slashed in Heq.
    assert (Hroot : Forall (fun p => hasByte "/" p = false) rootChain)
      by (repeat constructor).
    apply slashed_inj in Heq.
    + apply app_inv_head in Heq. exact Heq.
    + apply Forall_app. auto.
    + apply Forall_app. auto.
  - intros a b rest. rewrite !Key_slashed, !slashed_app. cbn [slashed].
    rewrite !append_assoc. reflexivity.
Qed.

End Keys.

Lemma Key_injective_witness :
  (Key ["network"; "net-A"] = Key ["network"; "net-A"] ->
   ["network"; "net-A"] = ["network"; "net-A"])
  /\ Key ["dummy/a"] = Key ["dummy"; "a"].
Proof.
  destruct (Key_injective ["network"; "net-A"] ["network"; "net-A"]) as [Hinj Hcollide].
  split.
  - apply Hinj; repeat constructor.
  - apply (Hcollide "dummy" "a" []).
Defined.

(** ** Trimmed keys *)

Section Trimming.

Context {B : Type} `{!kvstore.Store B}.
Context {O : Type} `{!KVObject.t O} `{!KVConstructor.Assert O}.

Lemma lastByte_cons (x : Ascii.ascii) (s : string) :
  s <> "" -> lastByte (String x s) = lastByte s.
Proof. destruct s; [contradiction | reflexivity]. Qed.

Lemma lastByte_None (s : string) : lastByte s = None -> s = "".
Proof.
  induction s as [| x s IH]; [reflexivity |].
  destruct s as [| y s]; [discriminate |].
  intros Hlast. rewrite lastByte_cons in Hlast by discriminate.
  apply IH in Hlast. discriminate.
Qed.

Lemma lastByte_append (a b : string) : b <> "" -> lastByte (a +:+ b) = lastByte b.
Proof.
  intros Hb. induction a as [| x a IH]; [reflexivity |].
  rewrite append_cons, lastByte_cons; [exact IH |].
  destruct a; [exact Hb | discriminate].
Qed.

Lemma TrimRight_cut (c : Ascii.ascii) (s : string) :
  TrimRight c (s +:+ String c "") = TrimRight c s.
Proof.
  induction s as [| x s IH].
  - rewrite append_nil_l. cbn [TrimRight]. rewrite Ascii.eqb_refl. reflexivity.
  - rewrite append_cons. cbn [TrimRight]. rewrite IH. reflexivity.
Qed.

Lemma TrimRight_id (c : Ascii.ascii) (s : string) :
  lastByte s <> Some c -> TrimRight c s = s.
Proof.
  induction s as [| x s IH]; intros Hlast; [reflexivity |].
  cbn [TrimRight]. destruct s as [| y s].
  - cbn [TrimRight]. destruct (Ascii.eqb_spec x c) as [-> | _]; [| reflexivity].
    exfalso. apply Hlast. reflexivity.
  - rewrite IH; [reflexivity |]. exact Hlast.
Qed.

Lemma lastByte_TrimRight (c : Ascii.ascii) (s : string) :
  lastByte (TrimRight c s) <> Some c.
Proof.
  induction s as [| x s IH]; [discriminate |].
  cbn [TrimRight]. destruct (TrimRight c s) as [| y t] eqn:Ht.
  - destruct (Ascii.eqb_spec x c) as [-> | Hne]; [discriminate |].
    cbn. congruence.
  - rewrite lastByte_cons by discriminate. exact IH.
Qed.

Lemma TrimLeft_id (c : Ascii.ascii) (s : string) :
  firstByte s <> Some c -> TrimLeft c s = s.
Proof.
  destruct s as [| x s]; intros Hfirst; [reflexivity |].
  cbn [TrimLeft]. destruct (Ascii.eqb_spec x c) as [-> | _]; [| reflexivity].
  exfalso. apply Hfirst. reflexivity.
Qed.

Lemma firstByte_TrimLeft (c : Ascii.ascii) (s : string) :
  firstByte (TrimLeft c s) <> Some c.
Proof.
  induction s as [| x s IH]; [discriminate |].
  cbn [TrimLeft]. destruct (Ascii.eqb_spec x c) as [-> | Hne]; [exact IH |].
  cbn. congruence.
Qed.

Lemma lastByte_TrimLeft (c : Ascii.ascii) (s : string) :
  lastByte s <> Some c -> lastByte (TrimLeft c s) <> Some c.
Proof.
  induction s as [| x s IH]; intros Hlast; [discriminate |].
  cbn [TrimLeft]. destruct (Ascii.eqb_spec x c) as [-> | Hne]; [| exact Hlast].
  apply IH. destruct s as [| y s]; [discriminate |]. exact Hlast.
Qed.

Lemma Trim_ends (c : Ascii.ascii) (s : string) :
  firstByte (Trim s c) <> Some c /\ lastByte (Trim s c) <> Some c.
Proof.
  unfold Trim. split; [apply firstByte_TrimLeft |].
  apply lastByte_TrimLeft, lastByte_TrimRight.
Qed.

Lemma slashed_concat (part : string) (rest : list string) :
  slashed (part :: rest) = String.concat "/" (part :: rest) +:+ "/".
Proof.
  revert part. induction rest as [| q rest IH]; intros part.
  - cbn [slashed String.concat]. rewrite append_nil_r. reflexivity.
  - change (slashed (part :: q :: rest)) with ((part +:+ "/") +:+ slashed (q :: rest)).
    rewrite IH.
    change (String.concat "/" (part :: q :: rest))
      with (part +:+ ("/" +:+ String.concat "/" (q :: rest))).
    rewrite !append_assoc. reflexivity.
Qed.

Lemma lastByte_concat (parts : list string) (part : string) :
  part <> "" -> lastByte (String.concat "/" (parts ++ [part])) = lastByte part.
Proof.
  intros Hpart. induction parts as [| q parts IH]; [reflexivity |].
  cbn [app]. destruct (parts ++ [part]) as [| r l] eqn:Hl.
  - destruct parts; discriminate.
  - change (String.concat "/" (q :: r :: l)) with (q +:+ ("/" +:+ String.concat "/" (r :: l))).
    rewrite lastByte_append by discriminate.
    rewrite lastByte_append; [exact IH |].
    intros Hempty. rewrite Hempty in IH. symmetry in IH.
    apply lastByte_None in IH. contradiction.
Qed.

(** X3. The key [Map] files an object under.  For a path whose last part is
    not empty and does not end in a slash, trimming its rendered key gives
    the root chain and the parts joined by single slashes, with no slash at
    the end.  An empty last part vanishes: the path and the path without it
    are trimmed to the same string. *)
Theorem Trim_Key (key : list string) (part : string) :
  (part <> "" -> lastByte part <> Some "/"%char ->
   Trim (Key (key ++ [part])) "/" = String.concat "/" (rootChain ++ key ++ [part]))
  /\ Trim (Key (key ++ [""])) "/" = Trim (Key key) "/".
Proof.
  split.
  - intros Hpart Hlast. rewrite Key_slashed.
    change (rootChain ++ key ++ [part])
      with ("docker" :: (["network"; "v1.0"] ++ key ++ [part])).
    rewrite slashed_concat.
    set (J := String.concat "/" ("docker" :: (["network"; "v1.0"] ++ key ++ [part]))).
    assert (HJlast : lastByte J <> Some "/"%char).
    { subst J.
      change ("docker" :: (["network"; "v1.0"] ++ key ++ [part]))
        with ((["docker"; "network"; "v1.0"] ++ key) ++ [part]).
      rewrite lastByte_concat by exact Hpart. exact Hlast. }
    assert (HJfirst : firstByte J <> Some "/"%char) by (subst J; cbn; discriminate).
    unfold Trim. rewrite TrimRight_cut, TrimRight_id, TrimLeft_id by assumption.
    reflexivity.
  - rewrite (proj1 (Key_extends key [""])). cbn [slashed].
    rewrite append_nil_l, append_nil_r. unfold Trim. rewrite TrimRight_cut. reflexivity.
Qed.

(** X4. No key of the association [Map] returns starts or ends with a slash. *)
Theorem Map_keys_trimmed (key : string) (exemplar : O) (ds ds' : Store B)
    (m : gmap string O) :
  Map key exemplar ds = (inr m, ds') ->
  forall k, is_Some (m !! k) ->
    firstByte k <> Some "/"%char /\ lastByte k <> Some "/"%char.
Proof.
  intros Hmap k Hk.
  destruct (Map_success_keys _ _ _ _ _ Hmap) as (ds1 & kvList & _ & _ & _ & _ & _ & Hkeys).
  apply Hkeys in Hk as (p & _ & _ & ->). apply Trim_ends.
Qed.

End Trimming.

Lemma Trim_Key_witness :
  Trim (Key ["network"; "net-A"]) "/" = "docker/network/v1.0/network/net-A"
  /\ Trim (Key ["network"; ""]) "/" = "docker/network/v1.0/network".
Proof.
  destruct (Trim_Key ["network"] "net-A") as [Hjoin _].
  destruct (Trim_Key ["network"] "") as [_ Hempty].
  split.
  - apply Hjoin; [discriminate | cbn; discriminate].
  - exact Hempty.
Defined.

Lemma Map_keys_trimmed_witness :
  is_Some (mixedMap !! "docker/network/v1.0/dummy/a")
  /\ firstByte "docker/network/v1.0/dummy/a" <> Some "/"%char
  /\ lastByte "docker/network/v1.0/dummy/a" <> Some "/"%char.
Proof.
  assert (Hk : is_Some (mixedMap !! "docker/network/v1.0/dummy/a"))
    by (eexists; reflexivity).
  split; [exact Hk |].
  apply (Map_keys_trimmed parentKey exemplar mixed (snd (Map parentKey exemplar mixed))
           mixedMap); [reflexivity | exact Hk].
Defined.

(** ** What Map asks of the backend *)

Section MapScan.

Context {B : Type} `{!kvstore.Store B}.
Context {O : Type} `{!KVObject.t O} `{!KVConstructor.Assert O}.

Lemma repeated_snoc (c : Ascii.ascii) (n : nat) :
  repeated c (S n) = repeated c n +:+ String c "".
Proof.
  induction n as [| n IH]; [reflexivity |].
  change (String c (repeated c (S n)) = String c (repeated c n) +:+ String c "").
  rewrite append_cons, <- IH. reflexivity.
Qed.

Lemma TrimRight_repeated (c : Ascii.ascii) (s : string) :
  exists m : nat, s = TrimRight c s +:+ repeated c m.
Proof.
  induction s as [| x s IH]; [exists 0%nat; reflexivity |].
  destruct IH as [m Hm]. cbn [TrimRight].
  destruct (TrimRight c s) as [| y t] eqn:Ht.
  - rewrite append_nil_l in Hm.
    destruct (Ascii.eqb_spec x c) as [-> | Hne].
    + exists (S m). rewrite append_nil_l. cbn [repeated]. f_equal. exact Hm.
    + exists m. rewrite append_cons, append_nil_l. f_equal. exact Hm.
  - exists m. rewrite append_cons. f_equal. exact Hm.
Qed.

Lemma TrimLeft_repeated (c : Ascii.ascii) (s : string) :
  exists n : nat, s = repeated c n +:+ TrimLeft c s.
Proof.
  induction s as [| x s IH]; [exists 0%nat; reflexivity |].
  cbn [TrimLeft]. destruct (Ascii.eqb_spec x c) as [-> | Hne].
  - destruct IH as [n Hn]. exists (S n). cbn [repeated]. rewrite append_cons.
    f_equal. exact Hn.
  - exists 0%nat. reflexivity.
Qed.

Lemma TrimRight_run (c : Ascii.ascii) (s : string) (m : nat) :
  TrimRight c (s +:+ repeated c m) = TrimRight c s.
Proof.
  revert s. induction m as [| m IH]; intros s.
  - cbn [repeated]. rewrite append_nil_r. reflexivity.
  - rewrite repeated_snoc, <- append_assoc, TrimRight_cut. apply IH.
Qed.

Lemma TrimLeft_run (c : Ascii.ascii) (s : string) (n : nat) :
  TrimLeft c (repeated c n +:+ s) = TrimLeft c s.
Proof.
  induction n as [| n IH]; [reflexivity |].
  cbn [repeated]. rewrite append_cons. cbn [TrimLeft].
  rewrite Ascii.eqb_refl. exact IH.
Qed.

(** [Trim] cuts the slashes, all of them and nothing else, from both
    ends. *)
Lemma Trim_trimmedOf (c : Ascii.ascii) (s t : string) :
  t = Trim s c <-> trimmedOf c s t.
Proof.
  split.
  - intros ->. destruct (Trim_ends c s) as [Hfirst Hlast].
    split; [exact Hfirst |]. split; [exact Hlast |].
    destruct (TrimRight_repeated c s) as [m Hm].
    destruct (TrimLeft_repeated c (TrimRight c s)) as [n Hn].
    exists n, m. unfold Trim. rewrite <- Hn. exact Hm.
  - intros (Hfirst & Hlast & n & m & ->). unfold Trim.
    rewrite TrimRight_run.
    destruct t as [| x t].
    + rewrite append_nil_r.
      replace (repeated c n) with ("" +:+ repeated c n) by apply append_nil_l.
      rewrite TrimRight_run. reflexivity.
    + rewrite TrimRight_id.
      * rewrite TrimLeft_run, TrimLeft_id by exact Hfirst. reflexivity.
      * rewrite lastByte_append by discriminate. exact Hlast.
Qed.

(** The keys of the association [Map]'s loop builds. *)
Lemma Map_loop_keys (ctor : KVConstructor.t O) (kvList : list KVPair)
    (m : gmap string O) :
  iteratePairs ctor
    (fun (key : string) (val : O) (kvol : gmap string O) => <[Trim key "/" := val]> kvol)
    kvList ∅ = (None, m) ->
  forall k, is_Some (m !! k) <->
    exists p, p ∈ kvList /\ kvstore.Value p <> [] /\ trimmedOf "/" (kvstore.Key p) k.
Proof.
  intros Hloop k.
  destruct (iteratePairs_success _ _ _ _ _ Hloop) as (objs & Hall & ->).
  rewrite Map_fold_keys, lookup_empty. split.
  - intros [[x Hx] | (po & Hin & ->)]; [discriminate |].
    assert (Hf : fst po ∈ List.filter nonEmpty kvList).
    { apply (Forall2_zip_fst _ _ _ Hall). exists po. auto. }
    apply list_elem_of_In in Hf. apply filter_In in Hf as [Hf Hne].
    exists (fst po). split; [apply list_elem_of_In; exact Hf |].
    split; [apply nonEmpty_spec; exact Hne |].
    apply Trim_trimmedOf. reflexivity.
  - intros (p & Hin & Hval & Htrim). right.
    assert (Hf : p ∈ List.filter nonEmpty kvList).
    { apply list_elem_of_In. apply filter_In. split.
      - apply list_elem_of_In. exact Hin.
      - apply nonEmpty_spec. exact Hval. }
    apply (Forall2_zip_fst _ _ _ Hall) in Hf as (po & Hpo & <-).
    exists po. split; [exact Hpo |]. apply Trim_trimmedOf. exact Htrim.
Qed.

(** C6. [Map] never consults the Cache: with any Cache or none it returns
    the same result and drives the backend the same way, and it leaves the
    Cache as it found it.  For an exemplar that implements [KVConstructor]
    it first asks the backend whether the parent key exists; if the backend
    cannot tell, [Map] fails with that error; if the key is there, [Map]
    goes on to list the backend under it without writing; if it is not
    there, [Map] writes the empty placeholder under it and lists the
    backend as the write left it, or fails with the error of the write.
    When [Map] succeeds, the keys of the association it returns are exactly
    the listed keys of non-empty entries with every leading and trailing
    slash cut off.  [List] and [GetObject] on a Store with a Cache answer
    from the Cache alone. *)
Theorem Map_bypasses_cache (key : string) (exemplar : O) (ds : Store B) :
  (forall c : option Cache,
     fst (Map key exemplar (withCache c ds)) = fst (Map key exemplar ds)
     /\ store (snd (Map key exemplar (withCache c ds))) = store (snd (Map key exemplar ds))
     /\ calls (snd (Map key exemplar (withCache c ds))) = calls (snd (Map key exemplar ds))
     /\ cache (snd (Map key exemplar (withCache c ds))) = c)
  /\ (KVConstructor.assert exemplar <> None ->
      forall (answer : error + bool) (b1 : B),
        kvstore.Exists key (store ds) = (answer, b1) ->
        match answer with
        | inl err =>
            Map key exemplar ds =
              (inl err,
               mkStore (scope ds) b1 (cache ds) (calls ds ++ [kvstore.CallExists key]))
        | inr true =>
            store (snd (Map key exemplar ds)) = snd (kvstore.List key b1)
            /\ calls (snd (Map key exemplar ds)) =
                 calls ds ++ [kvstore.CallExists key; kvstore.CallList key]
        | inr false =>
            forall (written : option error) (b2 : B),
              kvstore.Put key [] b1 = (written, b2) ->
              match written with
              | Some err =>
                  Map key exemplar ds =
                    (inl err,
                     mkStore (scope ds) b2 (cache ds)
                       (calls ds ++ [kvstore.CallExists key; kvstore.CallPut key []]))
              | None =>
                  store (snd (Map key exemplar ds)) = snd (kvstore.List key b2)
                  /\ calls (snd (Map key exemplar ds)) =
                       calls ds ++ [kvstore.CallExists key; kvstore.CallPut key [];
                                    kvstore.CallList key]
              end
        end)
  /\ (forall (m : gmap string O) (ds' : Store B),
        Map key exemplar ds = (inr m, ds') ->
        exists (present : bool) (b1 b2 b3 : B) (kvList : list KVPair),
          kvstore.Exists key (store ds) = (inr present, b1)
          /\ (if present then b2 = b1 else kvstore.Put key [] b1 = (None, b2))
          /\ kvstore.List key b2 = (inr kvList, b3)
          /\ ds' = mkStore (scope ds) b3 (cache ds)
                     (calls ds ++
                      kvstore.CallExists key ::
                      (if present then [] else [kvstore.CallPut key []]) ++
                      [kvstore.CallList key])
          /\ (forall k, is_Some (m !! k) <->
                exists p, p ∈ kvList /\ kvstore.Value p <> []
                          /\ firstByte k <> Some "/"%char
                          /\ lastByte k <> Some "/"%char
                          /\ exists n' m' : nat,
                               kvstore.Key p = (repeated "/" n' +:+ k) +:+ repeated "/" m'))
  /\ (forall c : Cache,
        List key exemplar (withCache (Some c) ds) =
          (cache_list c exemplar, withCache (Some c) ds))
  /\ (forall (c : Cache) (o : O),
        GetObject key o (withCache (Some c) ds) =
          (fst (cache_get c o), snd (cache_get c o), withCache (Some c) ds)).
Proof.
  split.
  { intros c. rewrite Map_ignores_cache. simpl.
    destruct (snd (Map key exemplar ds)); auto. }
  split.
  { intros Hassert answer b1 Hexists.
    unfold Map, iterateKVPairsFromStore.
    destruct (KVConstructor.assert exemplar) as [ctor |]; [| contradiction].
    unfold ensureParent, storeExists, storePut, storeList, invoke.
    rewrite Hexists. destruct answer as [err | [|]]; cbn [store calls scope cache].
    - reflexivity.
    - destruct (kvstore.List key b1) as [[err | kvList] b2]; cbn [snd store calls].
      + rewrite <- app_assoc. auto.
      + destruct (iteratePairs _ _ kvList ∅) as [[err |] m]; cbn [snd store calls];
          rewrite <- app_assoc; auto.
    - intros written b2 Hput. rewrite Hput.
      destruct written as [err |]; cbn [store calls scope cache].
      + rewrite <- app_assoc. reflexivity.
      + destruct (kvstore.List key b2) as [[err | kvList] b3]; cbn [snd store calls].
        * rewrite <- !app_assoc. auto.
        * destruct (iteratePairs _ _ kvList ∅) as [[err |] m]; cbn [snd store calls];
            rewrite <- !app_assoc; auto. }
  split.
  { intros m ds'. unfold Map, iterateKVPairsFromStore.
    destruct (KVConstructor.assert exemplar) as [ctor |]; [| discriminate].
    unfold ensureParent, storeExists, storePut, storeList, invoke.
    destruct (kvstore.Exists key (store ds)) as [[err | [|]] b1] eqn:Hexists;
      cbn [store calls scope cache]; [discriminate | |].
    - destruct (kvstore.List key b1) as [[err | kvList] b3] eqn:Hlist; [discriminate |].
      destruct (iteratePairs _ _ kvList ∅) as [[err |] m'] eqn:Hloop; [discriminate |].
      intros [= <- <-]. exists true, b1, b1, b3, kvList.
      split; [reflexivity |]. split; [reflexivity |]. split; [exact Hlist |].
      split; [rewrite <- app_assoc; reflexivity |].
      exact (Map_loop_keys _ _ _ Hloop).
    - destruct (kvstore.Put key [] b1) as [[err |] b2] eqn:Hput; [discriminate |].
      cbn [store calls scope cache].
      destruct (kvstore.List key b2) as [[err | kvList] b3] eqn:Hlist; [discriminate |].
      destruct (iteratePairs _ _ kvList ∅) as [[err |] m'] eqn:Hloop; [discriminate |].
      intros [= <- <-]. exists false, b1, b2, b3, kvList.
      split; [reflexivity |]. split; [exact Hput |]. split; [exact Hlist |].
      split; [rewrite <- !app_assoc; reflexivity |].
      exact (Map_loop_keys _ _ _ Hloop). }
  split.
  { intros c. reflexivity. }
  intros c o. unfold GetObject. simpl.
  destruct (cache_get c o); reflexivity.
Qed.

End MapScan.

Lemma Map_bypasses_cache_witness :
  (store (snd (Map parentKey exemplar freshStore))
     = mkMemStore {[ parentKey := ([], 1%Z) ]} 1
   /\ calls (snd (Map parentKey exemplar freshStore))
      = [kvstore.CallExists parentKey; kvstore.CallPut parentKey [];
         kvstore.CallList parentKey])
  /\ is_Some (default ∅ (cache mixed) !! "docker/network/v1.0/dummy/b/")
  /\ fst (Map parentKey exemplar mixed) = inr mixedMap
  /\ exists p : KVPair,
       kvstore.Value p <> []
       /\ exists n m : nat,
            kvstore.Key p =
              (repeated "/" n +:+ "docker/network/v1.0/dummy/a") +:+ repeated "/" m.
Proof.
  split; [| split; [eexists; reflexivity | split; [reflexivity |]]].
  - destruct (Map_bypasses_cache parentKey exemplar freshStore) as (_ & Hensure & _).
    specialize (Hensure ltac:(discriminate) (inr false) emptyBackend eq_refl
                  None (mem_write parentKey [] emptyBackend) eq_refl).
    destruct Hensure as [Hstore Hcalls]. split.
    + rewrite Hstore. vm_compute. reflexivity.
    + exact Hcalls.
  - destruct (Map_bypasses_cache parentKey exemplar mixed) as (_ & _ & Hmap & _).
    assert (Hrun : Map parentKey exemplar mixed =
                   (inr mixedMap, snd (Map parentKey exemplar mixed))) by reflexivity.
    destruct (Hmap mixedMap (snd (Map parentKey exemplar mixed)) Hrun)
      as (present & b1 & b2 & b3 & kvList & _ & _ & _ & _ & Hkeys).
    destruct (proj1 (Hkeys "docker/network/v1.0/dummy/a") ltac:(eexists; reflexivity))
      as (p & _ & Hval & _ & _ & Hcut).
    exists p. auto.
Defined.

(** ** Enumeration: duplicates and failures *)

Section Scans.

Context {B : Type} `{!kvstore.Store B}.
Context {O : Type} `{!KVObject.t O} `{!KVConstructor.Assert O}.

(** The callback of [Map]. *)
Local Abbreviation insertTrimmed :=
  (fun (key : string) (val : O) (kvol : gmap string O) => <[Trim key "/" := val]> kvol).

Lemma Map_loop_lookup (ctor : KVConstructor.t O) (kvList : list KVPair) :
  forall (acc m : gmap string O),
    iteratePairs ctor insertTrimmed kvList acc = (None, m) ->
    forall (k : string) (o : O),
      m !! k = Some o <->
      (exists before p after,
         List.filter nonEmpty kvList = before ++ p :: after
         /\ Trim (kvstore.Key p) "/" = k
         /\ materialize ctor (kvstore.Value p) (kvstore.LastIndex p) = inr o
         /\ Forall (fun q => Trim (kvstore.Key q) "/" <> k) after)
      \/ (acc !! k = Some o
          /\ Forall (fun q => Trim (kvstore.Key q) "/" <> k) (List.filter nonEmpty kvList)).
Proof.
  induction kvList as [| p rest IH]; intros acc m Hrun k o.
  - cbn in Hrun. injection Hrun as <-. cbn. split.
    + intros Hk. right. split; [exact Hk | constructor].
    + intros [(before & q & after & Heq & _) | [Hk _]]; [| exact Hk].
      destruct before; discriminate.
  - cbn [iteratePairs] in Hrun. cbn [List.filter].
    destruct (nonEmpty p) eqn:Hne; unfold nonEmpty in Hne.
    2:{ apply negb_false_iff in Hne. rewrite Hne in Hrun. apply IH. exact Hrun. }
    apply negb_true_iff in Hne. rewrite Hne in Hrun.
    destruct (materialize ctor (kvstore.Value p) (kvstore.LastIndex p)) as [e | o0] eqn:Hm;
      [discriminate |].
    rewrite (IH _ _ Hrun k o). split.
    + intros [(before & q & after & Heq & Hk & Hq & Hafter) | [Hk Hrest]].
      * left. exists (p :: before), q, after. rewrite Heq. auto.
      * destruct (decide (Trim (kvstore.Key p) "/" = k)) as [Heqk | Hnek].
        -- rewrite Heqk, lookup_insert_eq in Hk. injection Hk as <-.
           left. exists [], p, (List.filter nonEmpty rest). auto.
        -- rewrite lookup_insert_ne in Hk by exact Hnek.
           right. split; [exact Hk |]. constructor; assumption.
    + intros [(before & q & after & Heq & Hk & Hq & Hafter) | [Hk Hall]].
      * destruct before as [| b before]; cbn in Heq; injection Heq as <- Heq.
        -- right. subst after. rewrite Hk, lookup_insert_eq.
           split; [congruence | exact Hafter].
        -- left. exists before, q, after. auto.
      * inversion Hall as [| ? ? Hp Hrest]; subst.
        right. rewrite lookup_insert_ne by exact Hp. auto.
Qed.

(** X5. When several listed entries are trimmed to the same key, [Map] keeps
    the last of them: the association holds [o] under [k] exactly when [o]
    was built from a listed non-empty entry whose trimmed key is [k] and no
    later non-empty entry is trimmed to [k]. *)
Theorem Map_last_wins (key : string) (exemplar : O) (ds ds' : Store B)
    (m : gmap string O) :
  Map key exemplar ds = (inr m, ds') ->
  exists ctor ds1 listed,
    KVConstructor.assert exemplar = Some ctor
    /\ ensureParent key ds = (None, ds1)
    /\ fst (kvstore.List key (store ds1)) = inr listed
    /\ forall (k : string) (o : O),
         m !! k = Some o <->
         exists before p after,
           List.filter (fun kvPair => negb (length (kvstore.Value kvPair) =? 0)%nat) listed
             = before ++ p :: after
           /\ Trim (kvstore.Key p) "/" = k
           /\ materialize ctor (kvstore.Value p) (kvstore.LastIndex p) = inr o
           /\ Forall (fun q => Trim (kvstore.Key q) "/" <> k) after.
Proof.
  unfold Map.
  destruct (iterateKVPairsFromStore _ _ _ _ _) as [[[e |] m'] ds2] eqn:Hit; [discriminate |].
  intros [= -> ->].
  destruct (iterate_success _ _ _ _ _ _ _ Hit)
    as (ctor & ds1 & listed & Hassert & Hparent & Hlist & _ & _ & _ & Hloop).
  exists ctor, ds1, listed. repeat split; auto.
  - intros Hk. apply (Map_loop_lookup _ _ _ _ Hloop) in Hk as [Hk | [Hk _]]; [exact Hk |].
    rewrite lookup_empty in Hk. discriminate.
  - intros Hk. apply (Map_loop_lookup _ _ _ _ Hloop). left. exact Hk.
Qed.

(** A pair hydrates when its value is empty (it is skipped) or [SetValue]
    accepts it on a fresh object. *)
Local Abbreviation hydrates ctor :=
  (fun q : KVPair =>
     kvstore.Value q = []
     \/ fst (KVObject.SetValue (kvstore.Value q) (KVConstructor.New ctor)) = None).

Lemma iteratePairs_first_error {A : Type} (ctor : KVConstructor.t O)
    (callback : string -> O -> A -> A) (before : list KVPair) :
  forall (p : KVPair) (after : list KVPair) (acc : A) (err : error),
    Forall (hydrates ctor) before ->
    kvstore.Value p <> [] ->
    fst (KVObject.SetValue (kvstore.Value p) (KVConstructor.New ctor)) = Some err ->
    fst (iteratePairs ctor callback (before ++ p :: after) acc) = Some err.
Proof.
  induction before as [| q before IH]; intros p after acc err Hbefore Hp Herr.
  - cbn [app iteratePairs]. unfold materialize.
    destruct (kvstore.Value p) as [| x v]; [contradiction |].
    cbn [length Nat.eqb].
    destruct (KVObject.SetValue (x :: v) (KVConstructor.New ctor)) as [[e |] o];
      cbn in Herr; [injection Herr as ->; reflexivity | discriminate].
  - inversion Hbefore as [| ? ? Hq Hrest]; subst.
    cbn [app iteratePairs]. unfold materialize at 1.
    destruct (kvstore.Value q) as [| x v].
    + cbn. apply IH; assumption.
    + cbn [length Nat.eqb].
      destruct Hq as [Hq | Hq]; [discriminate |].
      destruct (KVObject.SetValue (x :: v) (KVConstructor.New ctor)) as [[e |] o];
        cbn in Hq; [discriminate |].
      apply IH; assumption.
Qed.

Lemma iteratePairs_all_ok {A : Type} (ctor : KVConstructor.t O)
    (callback : string -> O -> A -> A) (kvList : list KVPair) :
  forall acc : A,
    Forall (hydrates ctor) kvList ->
    fst (iteratePairs ctor callback kvList acc) = None.
Proof.
  induction kvList as [| q rest IH]; intros acc Hall; [reflexivity |].
  inversion Hall as [| ? ? Hq Hrest]; subst.
  cbn [iteratePairs]. unfold materialize at 1.
  destruct (kvstore.Value q) as [| x v].
  - cbn. apply IH; assumption.
  - cbn [length Nat.eqb].
    destruct Hq as [Hq | Hq]; [discriminate |].
    destruct (KVObject.SetValue (x :: v) (KVConstructor.New ctor)) as [[e |] o];
      cbn in Hq; [discriminate |].
    apply IH; assumption.
Qed.

(** What [iterateKVPairsFromStore] returns once the parent is ensured and
    the backend has listed. *)
Lemma iterate_listed {A : Type} (key : string) (kvObject : O) (ctor : KVConstructor.t O)
    (callback : string -> O -> A -> A) (acc : A) (ds ds1 : Store B)
    (listed : list KVPair) :
  KVConstructor.assert kvObject = Some ctor ->
  ensureParent key ds = (None, ds1) ->
  fst (kvstore.List key (store ds1)) = inr listed ->
  fst (fst (iterateKVPairsFromStore key kvObject callback acc ds))
    = fst (iteratePairs ctor callback listed acc)
  /\ snd (fst (iterateKVPairsFromStore key kvObject callback acc ds))
    = snd (iteratePairs ctor callback listed acc).
Proof.
  intros Hassert Hparent Hlist. unfold iterateKVPairsFromStore.
  rewrite Hassert, Hparent. unfold storeList, invoke.
  destruct (kvstore.List key (store ds1)) as [r b2]. cbn in Hlist. subst r.
  destruct (iteratePairs ctor callback listed acc). split; reflexivity.
Qed.

(** X6. [List] (without a Cache) and [Map] are all or nothing.  If every listed
    entry is empty or accepted by [SetValue] they succeed, and [List]
    returns one object per non-empty entry; if not, they return the error
    of the first non-empty entry [SetValue] rejects and no object at all. *)
Theorem enumeration_all_or_nothing (key : string) (exemplar : O)
    (ctor : KVConstructor.t O) (ds ds1 : Store B) (listed : list KVPair) :
  KVConstructor.assert exemplar = Some ctor ->
  ensureParent key ds = (None, ds1) ->
  fst (kvstore.List key (store ds1)) = inr listed ->
  (Forall (fun q => kvstore.Value q = []
                    \/ fst (KVObject.SetValue (kvstore.Value q) (KVConstructor.New ctor)) = None)
     listed ->
   (exists m, fst (Map key exemplar ds) = inr m)
   /\ (cache ds = None ->
       exists kvol,
         fst (List key exemplar ds) = inr kvol
         /\ length kvol
            = length (List.filter (fun q => negb (length (kvstore.Value q) =? 0)%nat) listed)))
  /\ (forall (before : list KVPair) (p : KVPair) (after : list KVPair) (err : error),
        listed = before ++ p :: after ->
        Forall (fun q => kvstore.Value q = []
                         \/ fst (KVObject.SetValue (kvstore.Value q) (KVConstructor.New ctor))
                            = None)
          before ->
        kvstore.Value p <> [] ->
        fst (KVObject.SetValue (kvstore.Value p) (KVConstructor.New ctor)) = Some err ->
        fst (Map key exemplar ds) = inl err
        /\ (cache ds = None -> fst (List key exemplar ds) = inl err)).
Proof.
  intros Hassert Hparent Hlist. split.
  - intros Hall. split.
    + destruct (iterate_listed key exemplar ctor insertTrimmed ∅ ds ds1 listed
                  Hassert Hparent Hlist) as [Herr _].
      rewrite (iteratePairs_all_ok _ _ _ _ Hall) in Herr.
      unfold Map. destruct (iterateKVPairsFromStore _ _ _ _ _) as [[e m] ds2].
      cbn in Herr. subst e. eexists. reflexivity.
    + intros Hcache.
      destruct (List key exemplar ds) as [[e | kvol] ds2] eqn:HL.
      * exfalso. unfold List in HL. rewrite Hcache in HL.
        match type of HL with
        | context [iterateKVPairsFromStore ?k ?x ?cb ?a ds] =>
            destruct (iterate_listed k x ctor cb a ds ds1 listed Hassert Hparent Hlist)
              as [Herr _];
            rewrite (iteratePairs_all_ok _ _ _ _ Hall) in Herr;
            destruct (iterateKVPairsFromStore k x cb a ds) as [[e' kvol'] ds3]
        end.
        cbn in Herr. subst e'. discriminate.
      * exists kvol. split; [reflexivity |].
        destruct (List_success_objects _ _ _ _ _ Hcache HL)
          as (ctor' & ds1' & listed' & Hassert' & Hparent' & Hlist' & Hobjs).
        rewrite Hparent in Hparent'. injection Hparent' as <-.
        rewrite Hlist in Hlist'. injection Hlist' as <-.
        apply Forall2_length in Hobjs. symmetry. exact Hobjs.
  - intros before p after err -> Hbefore Hp Herr. split.
    + destruct (iterate_listed key exemplar ctor insertTrimmed ∅ ds ds1 _
                  Hassert Hparent Hlist) as [He _].
      rewrite (iteratePairs_first_error _ _ _ _ _ _ _ Hbefore Hp Herr) in He.
      unfold Map. destruct (iterateKVPairsFromStore _ _ _ _ _) as [[e m] ds2].
      cbn in He. subst e. reflexivity.
    + intros Hcache. unfold List. rewrite Hcache.
      match goal with
      | |- context [iterateKVPairsFromStore ?k ?x ?cb ?a ds] =>
          destruct (iterate_listed k x ctor cb a ds ds1 _ Hassert Hparent Hlist) as [He _];
          rewrite (iteratePairs_first_error _ _ _ _ _ _ _ Hbefore Hp Herr) in He;
          destruct (iterateKVPairsFromStore k x cb a ds) as [[e kvol] ds2]
      end.
      cbn in He. subst e. reflexivity.
Qed.

(** X7. A backend failure during a scan is returned as it is, whatever error it
    is, and ends the scan: when [Exists] fails nothing else is called, when
    the placeholder's [Put] fails the backend is not listed, when [List]
    fails the callback is never run.  This holds for [Map], and for [List]
    on a Store without a Cache. *)
Theorem scan_stops_at_backend_failure (key : string) (exemplar : O)
    (ctor : KVConstructor.t O) (ds : Store B) (err : error) :
  KVConstructor.assert exemplar = Some ctor ->
  (forall b1,
     kvstore.Exists key (store ds) = (inl err, b1) ->
     Map key exemplar ds =
       (inl err, mkStore (scope ds) b1 (cache ds) (calls ds ++ [kvstore.CallExists key]))
     /\ (cache ds = None ->
         List key exemplar ds =
           (inl err, mkStore (scope ds) b1 (cache ds) (calls ds ++ [kvstore.CallExists key]))))
  /\ (forall b1 b2,
        kvstore.Exists key (store ds) = (inr false, b1) ->
        kvstore.Put key [] b1 = (Some err, b2) ->
        Map key exemplar ds =
          (inl err, mkStore (scope ds) b2 (cache ds)
                      (calls ds ++ [kvstore.CallExists key; kvstore.CallPut key []]))
        /\ (cache ds = None ->
            List key exemplar ds =
              (inl err, mkStore (scope ds) b2 (cache ds)
                          (calls ds ++ [kvstore.CallExists key; kvstore.CallPut key []]))))
  /\ (forall ds1 b2,
        ensureParent key ds = (None, ds1) ->
        kvstore.List key (store ds1) = (inl err, b2) ->
        Map key exemplar ds =
          (inl err, mkStore (scope ds1) b2 (cache ds1) (calls ds1 ++ [kvstore.CallList key]))
        /\ (cache ds = None ->
            List key exemplar ds =
              (inl err, mkStore (scope ds1) b2 (cache ds1)
                          (calls ds1 ++ [kvstore.CallList key])))).
Proof.
  intros Hassert.
  split; [| split].
  - intros b1 Hexists.
    assert (Hit : forall (A : Type) (cb : string -> O -> A -> A) (a : A),
              iterateKVPairsFromStore key exemplar cb a ds =
              (Some err, a, mkStore (scope ds) b1 (cache ds)
                              (calls ds ++ [kvstore.CallExists key]))).
    { intros A cb a. unfold iterateKVPairsFromStore, ensureParent, storeExists, invoke.
      rewrite Hassert, Hexists. reflexivity. }
    split; [unfold Map; rewrite Hit; reflexivity |].
    intros Hcache. unfold List. rewrite Hcache, Hit, ?Hcache. reflexivity.
  - intros b1 b2 Hexists Hput.
    assert (Hit : forall (A : Type) (cb : string -> O -> A -> A) (a : A),
              iterateKVPairsFromStore key exemplar cb a ds =
              (Some err, a, mkStore (scope ds) b2 (cache ds)
                              (calls ds ++ [kvstore.CallExists key; kvstore.CallPut key []]))).
    { intros A cb a.
      unfold iterateKVPairsFromStore, ensureParent, storeExists, storePut, invoke.
      rewrite Hassert, Hexists. cbn. rewrite Hput. rewrite <- app_assoc. reflexivity. }
    split; [unfold Map; rewrite Hit; reflexivity |].
    intros Hcache. unfold List. rewrite Hcache, Hit, ?Hcache. reflexivity.
  - intros ds1 b2 Hparent Hlist.
    assert (Hit : forall (A : Type) (cb : string -> O -> A -> A) (a : A),
              iterateKVPairsFromStore key exemplar cb a ds =
              (Some err, a, mkStore (scope ds1) b2 (cache ds1)
                              (calls ds1 ++ [kvstore.CallList key]))).
    { intros A cb a. unfold iterateKVPairsFromStore, storeList, invoke.
      rewrite Hassert, Hparent, Hlist. reflexivity. }
    split; [unfold Map; rewrite Hit; reflexivity |].
    intros Hcache. unfold List. rewrite Hcache, Hit, ?Hcache. reflexivity.
Qed.

End Scans.

Lemma Map_last_wins_witness :
  Map parentKey exemplar duplicated = (inr duplicatedMap, snd (Map parentKey exemplar duplicated))
  /\ exists ctor ds1 listed,
       KVConstructor.assert exemplar = Some ctor
       /\ ensureParent parentKey duplicated = (None, ds1)
       /\ fst (kvstore.List parentKey (store ds1)) = inr listed.
Proof.
  assert (Hrun : Map parentKey exemplar duplicated =
                 (inr duplicatedMap, snd (Map parentKey exemplar duplicated)))
    by reflexivity.
  split; [exact Hrun |].
  destruct (Map_last_wins parentKey exemplar duplicated _ duplicatedMap Hrun)
    as (ctor & ds1 & listed & Hassert & Hparent & Hlist & _).
  exists ctor, ds1, listed. auto.
Defined.

Lemma enumeration_all_or_nothing_witness :
  fst (@Map memStore _ dummyObject strictObject _ parentKey exemplar corrupted)
    = inl (kvstore.BackendFailure "invalid character")
  /\ fst (@List memStore _ dummyObject strictObject _ parentKey exemplar corrupted)
     = inl (kvstore.BackendFailure "invalid character")
  /\ exists m, fst (Map parentKey exemplar corrupted) = inr m.
Proof.
  assert (Hassert : KVConstructor.assert exemplar = Some exemplarCtor) by reflexivity.
  assert (Hparent : ensureParent parentKey corrupted
                    = (None, snd (ensureParent parentKey corrupted)))
    by (vm_compute; reflexivity).
  assert (Hlisted : fst (kvstore.List parentKey
                           (store (snd (ensureParent parentKey corrupted))))
                    = inr corruptedListed)
    by (vm_compute; reflexivity).
  destruct (@enumeration_all_or_nothing memStore _ dummyObject strictObject _
              parentKey exemplar exemplarCtor corrupted _ corruptedListed
              Hassert Hparent Hlisted)
    as [_ Hfail].
  destruct (@enumeration_all_or_nothing memStore _ dummyObject _ _
              parentKey exemplar exemplarCtor corrupted _ corruptedListed
              Hassert Hparent Hlisted)
    as [Hok _].
  destruct (Hfail [kvstore.mkKVPair "docker/network/v1.0/dummy/a/" payloadA 1]
              (kvstore.mkKVPair "docker/network/v1.0/dummy/b/" [Byte.x00] 2)
              [kvstore.mkKVPair parentKey [] 3]
              (kvstore.BackendFailure "invalid character"))
    as [Hmap Hlist]; [reflexivity | | discriminate | reflexivity |].
  { constructor; [right; reflexivity | constructor]. }
  split; [exact Hmap |]. split; [apply Hlist; reflexivity |].
  apply Hok.
  constructor; [right; reflexivity |].
  constructor; [right; reflexivity |].
  constructor; [left; reflexivity | constructor].
Defined.

Lemma scan_stops_at_backend_failure_witness :
  Map parentKey exemplar (flakyStore 0) =
    (inl down, mkStore scope.Local (mkFlaky 0) None [kvstore.CallExists parentKey])
  /\ Map parentKey exemplar (flakyStore 1) =
       (inl down, mkStore scope.Local (mkFlaky 0) None
                    [kvstore.CallExists parentKey; kvstore.CallPut parentKey []])
  /\ List parentKey exemplar (flakyStore 2) =
       (inl down, mkStore scope.Local (mkFlaky 0) None
                    [kvstore.CallExists parentKey; kvstore.CallPut parentKey [];
                     kvstore.CallList parentKey]).
Proof.
  split; [| split].
  - edestruct (scan_stops_at_backend_failure parentKey exemplar exemplarCtor (flakyStore 0) down)
      as (Hexists & _ & _); [reflexivity |].
    apply (Hexists (mkFlaky 0)). reflexivity.
  - edestruct (scan_stops_at_backend_failure parentKey exemplar exemplarCtor (flakyStore 1) down)
      as (_ & Hput & _); [reflexivity |].
    apply (Hput (mkFlaky 0) (mkFlaky 0)); reflexivity.
  - edestruct (scan_stops_at_backend_failure parentKey exemplar exemplarCtor (flakyStore 2) down)
      as (_ & _ & Hlist); [reflexivity |].
    destruct (Hlist (snd (ensureParent parentKey (flakyStore 2))) (mkFlaky 0))
      as [_ HL]; [reflexivity | reflexivity |].
    rewrite HL by reflexivity. reflexivity.
Defined.

(** ** Reads, guards and hand-offs *)

Section Facade.

Context {B : Type} `{!kvstore.Store B}.
Context {O : Type} `{!KVObject.t O} `{!KVConstructor.Assert O}.

(** X8. On a Store without a Cache [GetObject] makes one backend call, [Get]
    on the key it is given (the object's own key is not looked at).  A
    backend error is returned as it is and the object is left alone; an
    error of [SetValue] is returned and the index is not set; otherwise the
    object is hydrated and stamped with the pair's version. *)
Theorem GetObject_reads_backend (key : string) (o : O) (ds : Store B) :
  cache ds = None ->
  (forall (err : error) (b1 : B),
     kvstore.Get key (store ds) = (inl err, b1) ->
     GetObject key o ds =
       (Some err, o, mkStore (scope ds) b1 None (calls ds ++ [kvstore.CallGet key])))
  /\ (forall (kvPair : KVPair) (b1 : B) (err : error) (o' : O),
        kvstore.Get key (store ds) = (inr kvPair, b1) ->
        KVObject.SetValue (kvstore.Value kvPair) o = (Some err, o') ->
        GetObject key o ds =
          (Some err, o', mkStore (scope ds) b1 None (calls ds ++ [kvstore.CallGet key])))
  /\ (forall (kvPair : KVPair) (b1 : B) (o' : O),
        kvstore.Get key (store ds) = (inr kvPair, b1) ->
        KVObject.SetValue (kvstore.Value kvPair) o = (None, o') ->
        GetObject key o ds =
          (None, KVObject.SetIndex (kvstore.LastIndex kvPair) o',
           mkStore (scope ds) b1 None (calls ds ++ [kvstore.CallGet key]))).
Proof.
  intros Hcache. unfold GetObject, storeGet, invoke. rewrite Hcache.
  split; [| split].
  - intros err b1 ->. reflexivity.
  - intros kvPair b1 err o' -> ->. reflexivity.
  - intros kvPair b1 o' -> ->. reflexivity.
Qed.

(** X9. A nil object, and for a put an object whose value is nil, is refused
    with a bad-request error before anything happens: the Store, its Cache
    and its backend are as before, also for a skip-persistence object.  A
    delete does not ask for the value. *)
Theorem invalid_objects_are_refused (ds : Store B) :
  (exists msg, PutObjectAtomic None ds = (Some (kvstore.BadRequestErrorf msg), None, ds))
  /\ (exists msg, DeleteObjectAtomic None ds = (Some (kvstore.BadRequestErrorf msg), ds))
  /\ (forall obj : O,
        KVObject.Value obj = None ->
        (exists msg,
           PutObjectAtomic (Some obj) ds = (Some (kvstore.BadRequestErrorf msg), Some obj, ds))
        /\ (KVObject.Skip obj = false ->
            calls (snd (DeleteObjectAtomic (Some obj) ds)) =
              calls ds ++ [kvstore.CallAtomicDelete (Key (KVObject.Key obj))
                             (Some (kvstore.mkKVPair (Key (KVObject.Key obj)) []
                                      (KVObject.Index obj)))])).
Proof.
  split; [eexists; reflexivity |]. split; [eexists; reflexivity |].
  intros obj Hvalue. split.
  - unfold PutObjectAtomic. rewrite Hvalue. eexists. reflexivity.
  - intros Hskip. unfold DeleteObjectAtomic. rewrite Hskip.
    unfold storeAtomicDelete, invoke, token.
    destruct (kvstore.AtomicDelete _ _ (store ds)) as [[e |] b']; [reflexivity |].
    unfold deleteCache. cbn [cache].
    destruct (cache ds) as [c |]; [| reflexivity].
    destruct (cache_del c obj (KVObject.Skip obj)). reflexivity.
Qed.

(** X10. [DeleteObjectAtomic] of a persisted object makes one backend call,
    [AtomicDelete] on the rendered key, and its token is never nil: it is
    [(Key(obj.Key()...), obj.Index())] whether or not the object says it
    exists.  A backend error is returned, the key-exists conflict as
    [ErrKeyModified]; on success the object goes to the Cache's [del] with
    the skip flag false, and without a Cache the delete is done. *)
Theorem DeleteObjectAtomic_hands_off (obj : O) (ds : Store B) (r : option error) (b' : B) :
  KVObject.Skip obj = false ->
  let key := Key (KVObject.Key obj) in
  let previous := Some (kvstore.mkKVPair key [] (KVObject.Index obj)) in
  kvstore.AtomicDelete key previous (store ds) = (r, b') ->
  let ds' :=
    mkStore (scope ds) b' (cache ds)
      (calls ds ++ [kvstore.CallAtomicDelete key previous]) in
  DeleteObjectAtomic (Some obj) ds =
    match r with
    | Some err =>
        (Some (if decide (err = kvstore.ErrKeyExists) then ErrKeyModified else err), ds')
    | None =>
        match cache ds with
        | Some c => (fst (cache_del c obj false), withCache (Some (snd (cache_del c obj false))) ds')
        | None => (None, ds')
        end
    end.
Proof.
  intros Hskip key previous Hdel ds'.
  unfold DeleteObjectAtomic. rewrite Hskip.
  unfold storeAtomicDelete, invoke, token. fold key. fold previous. rewrite Hdel.
  destruct r as [err |]; [reflexivity |].
  unfold deleteCache. cbn [cache]. rewrite Hskip.
  destruct (cache ds) as [c |]; [| reflexivity].
  destruct (cache_del c obj false). reflexivity.
Qed.

(** X11. On a Store without a Cache a skip-persistence object is recorded
    nowhere: its put succeeds without a backend call and without stamping
    the object, its delete succeeds, and the Store is left as it was. *)
Theorem skip_without_cache_records_nothing (obj : O) (ds : Store B) :
  cache ds = None ->
  KVObject.Skip obj = true ->
  (forall value, KVObject.Value obj = Some value ->
     PutObjectAtomic (Some obj) ds = (None, Some obj, ds))
  /\ DeleteObjectAtomic (Some obj) ds = (None, ds).
Proof.
  intros Hcache Hskip. split.
  - intros value Hvalue. unfold PutObjectAtomic. rewrite Hvalue, Hskip.
    unfold add_cache. rewrite Hcache. reflexivity.
  - unfold DeleteObjectAtomic. rewrite Hskip. unfold deleteCache. rewrite Hcache.
    reflexivity.
Qed.

End Facade.

Lemma GetObject_reads_backend_witness :
  fst (GetObject keyA (persisted "zzz" [] 0 false) (run bareStore [ReqPut (Some (persisted "a" payloadA 0 false))]))
    = (None, persisted "zzz" payloadA 1 true)
  /\ fst (GetObject keyA (persisted "a" [] 0 false) bareStore)
     = (Some ErrKeyNotFound, persisted "a" [] 0 false).
Proof.
  split.
  - edestruct (GetObject_reads_backend keyA (persisted "zzz" [] 0 false)
                 (run bareStore [ReqPut (Some (persisted "a" payloadA 0 false))]))
      as (_ & _ & Hok); [reflexivity |].
    rewrite (Hok (kvstore.mkKVPair keyA payloadA 1)
               (store (run bareStore [ReqPut (Some (persisted "a" payloadA 0 false))]))
               (persisted "zzz" payloadA 0 false));
      reflexivity.
  - edestruct (GetObject_reads_backend keyA (persisted "a" [] 0 false) bareStore)
      as (Herr & _ & _); [reflexivity |].
    rewrite (Herr ErrKeyNotFound emptyBackend); reflexivity.
Defined.

Lemma invalid_objects_are_refused_witness :
  (exists msg,
     PutObjectAtomic
       (Some {| ID := "a"; Payload := payloadA; DBIndex := 0; DBExists := false;
                SkipSave := true; ReturnValue := false; Constructs := true |})
       freshStore
     = (Some (kvstore.BadRequestErrorf msg),
        Some {| ID := "a"; Payload := payloadA; DBIndex := 0; DBExists := false;
                SkipSave := true; ReturnValue := false; Constructs := true |},
        freshStore)).
Proof.
  destruct (invalid_objects_are_refused (O := dummyObject) freshStore) as (_ & _ & Hnil).
  apply Hnil. reflexivity.
Defined.

Lemma DeleteObjectAtomic_hands_off_witness :
  DeleteObjectAtomic (Some (persisted "a" payloadA 0 false)) onceWritten
    = (Some ErrKeyModified,
       mkStore scope.Local (store onceWritten) (cache onceWritten)
         (calls onceWritten ++
          [kvstore.CallAtomicDelete keyA (Some (kvstore.mkKVPair keyA [] 0))]))
  /\ fst (DeleteObjectAtomic (Some (persisted "a" payloadA 1 true)) onceWritten) = None.
Proof.
  split.
  - rewrite (DeleteObjectAtomic_hands_off (persisted "a" payloadA 0 false) onceWritten
               (Some ErrKeyModified) (store onceWritten));
      reflexivity.
  - rewrite (DeleteObjectAtomic_hands_off (persisted "a" payloadA 1 true) onceWritten
               None (mkMemStore ∅ 1));
      reflexivity.
Defined.

Lemma skip_without_cache_records_nothing_witness :
  PutObjectAtomic (Some (skipped "a" payloadA 0 false)) bareStore
    = (None, Some (skipped "a" payloadA 0 false), bareStore)
  /\ DeleteObjectAtomic (Some (skipped "a" payloadA 0 false)) bareStore = (None, bareStore).
Proof.
  destruct (skip_without_cache_records_nothing (skipped "a" payloadA 0 false) bareStore)
    as [Hput Hdel]; [reflexivity | reflexivity |].
  split; [apply (Hput payloadA); reflexivity | exact Hdel].
Defined.

(** ** Backend traffic *)

Section Traffic.

Context {B : Type} `{!kvstore.Store B}.
Context {O : Type} `{!KVObject.t O} `{!KVConstructor.Assert O}.

Lemma invoke_calls {A : Type} (call : kvstore.Call) (m : B -> A * B) (ds : Store B) :
  calls (snd (invoke call m ds)) = calls ds ++ [call].
Proof. unfold invoke. destruct (m (store ds)). reflexivity. Qed.

Lemma add_cache_calls (o : O) (ds : Store B) : calls (snd (add_cache o ds)) = calls ds.
Proof.
  unfold add_cache. destruct (cache ds) as [c |]; [| reflexivity].
  destruct (cache_add c o (KVObject.Skip o)) as [[e o'] c']. reflexivity.
Qed.

Lemma deleteCache_calls (o : O) (ds : Store B) : calls (snd (deleteCache o ds)) = calls ds.
Proof.
  unfold deleteCache. destruct (cache ds) as [c |]; [| reflexivity].
  destruct (cache_del c o (KVObject.Skip o)) as [e c']. reflexivity.
Qed.

Lemma iterate_calls {A : Type} (key : string) (kvObject : O)
    (callback : string -> O -> A -> A) (acc : A) (ds : Store B) :
  exists new,
    calls (snd (iterateKVPairsFromStore key kvObject callback acc ds)) = calls ds ++ new
    /\ (length new <= 3)%nat
    /\ Forall (fun c => c = kvstore.CallExists key \/ c = kvstore.CallPut key []
                        \/ c = kvstore.CallList key) new.
Proof.
  unfold iterateKVPairsFromStore.
  destruct (KVConstructor.assert kvObject) as [ctor |].
  2:{ exists []. rewrite app_nil_r. repeat split; [cbn; lia | constructor]. }
  destruct (ensureParent key ds) as [e ds1] eqn:Hparent.
  destruct (ensureParent_calls _ _ _ _ Hparent) as (_ & _ & Hcalls).
  assert (Hparent1 : exists new1,
             calls ds1 = calls ds ++ new1 /\ (length new1 <= 2)%nat
             /\ Forall (fun c => c = kvstore.CallExists key \/ c = kvstore.CallPut key []
                                 \/ c = kvstore.CallList key) new1).
  { destruct Hcalls as [Hc | Hc]; eexists; (split; [exact Hc |]);
      (split; [cbn; lia | repeat (constructor; [solve [auto] |]); constructor]). }
  destruct Hparent1 as (new1 & Hnew1 & Hlen1 & Hall1).
  destruct e as [e |].
  { exists new1. cbn. repeat split; [exact Hnew1 | lia | exact Hall1]. }
  unfold storeList.
  pose proof (invoke_calls (kvstore.CallList key) (kvstore.List key) ds1) as Hl.
  exists (new1 ++ [kvstore.CallList key]).
  assert (Hfinal : forall s : Store B,
             calls s = calls ds1 ++ [kvstore.CallList key] ->
             calls s = calls ds ++ new1 ++ [kvstore.CallList key]
             /\ (length (new1 ++ [kvstore.CallList key]) <= 3)%nat
             /\ Forall (fun c => c = kvstore.CallExists key \/ c = kvstore.CallPut key []
                                 \/ c = kvstore.CallList key)
                  (new1 ++ [kvstore.CallList key])).
  { intros s Hs. split; [rewrite Hs, Hnew1, <- app_assoc; reflexivity |].
    split; [rewrite length_app; cbn; lia |].
    apply Forall_app. split; [exact Hall1 |].
    constructor; [auto | constructor]. }
  destruct (invoke _ _ ds1) as [[e | kvList] ds2]; cbn in Hl |- *.
  - apply Hfinal. exact Hl.
  - destruct (iteratePairs ctor callback kvList acc). cbn. apply Hfinal. exact Hl.
Qed.

(** X13. On a Store without a Cache every request adds at most three calls
    to the backend's log, and a put, a get, a delete or a close at most
    one; each call it adds is one the request may make: a read never issues
    an atomic put or delete, the only thing a scan writes is the empty
    value at its own key, and a put or delete touches no key but the
    object's. *)
Theorem requests_make_few_calls (ds : Store B) (r : request O) :
  cache ds = None ->
  exists new : list kvstore.Call,
    calls (serve ds r) = calls ds ++ new
    /\ (length new <= 3)%nat
    /\ match r with
       | ReqList _ _ | ReqMap _ _ => True
       | _ => (length new <= 1)%nat
       end
    /\ Forall (permitted r) new.
Proof.
  intros Hbare.
  assert (Hnone : forall s : Store B, calls s = calls ds ->
            calls s = calls ds ++ [] /\ (length (@nil kvstore.Call) <= 3)%nat
            /\ (length (@nil kvstore.Call) <= 1)%nat /\ Forall (permitted r) []).
  { intros s Hs. rewrite app_nil_r. repeat split; [exact Hs | cbn; lia | cbn; lia | constructor]. }
  destruct r as [[o |] | key o | key o | key o | [o |] |]; cbn [serve].
  - (* put *)
    unfold PutObjectAtomic. destruct (KVObject.Value o) as [value |].
    2:{ exists []. apply Hnone. reflexivity. }
    destruct (KVObject.Skip o).
    { exists []. apply Hnone. apply add_cache_calls. }
    unfold storeAtomicPut.
    match goal with
    | |- context [invoke ?c ?m ds] =>
        pose proof (invoke_calls c m ds) as Hc; exists [c];
        destruct (invoke c m ds) as [[e | p] ds1]
    end; cbn in Hc |- *.
    + repeat split; [exact Hc | lia | lia | repeat constructor].
    + rewrite add_cache_calls.
      repeat split; [exact Hc | cbn; lia | cbn; lia | repeat constructor].
  - exists []. apply Hnone. reflexivity.
  - (* get *)
    unfold GetObject. rewrite Hbare.
    unfold storeGet.
    pose proof (invoke_calls (kvstore.CallGet key) (kvstore.Get key) ds) as Hc.
    exists [kvstore.CallGet key].
    destruct (invoke _ _ ds) as [[e | p] ds1]; cbn in Hc |- *.
    + repeat split; [exact Hc | lia | lia | repeat constructor].
    + destruct (KVObject.SetValue _ o) as [[e |] o']; cbn;
        (repeat split; [exact Hc | lia | lia | repeat constructor]).
  - (* list *)
    unfold List. rewrite Hbare.
    match goal with
    | |- context [iterateKVPairsFromStore ?k ?x ?cb ?a ds] =>
        destruct (iterate_calls k x cb a ds) as (new & Hnew & Hlen & Hall);
        destruct (iterateKVPairsFromStore k x cb a ds) as [[[e |] kvol] ds1]
    end; cbn in Hnew |- *; exists new;
      (repeat split; [exact Hnew | exact Hlen |]);
      (eapply Forall_impl; [exact Hall |]);
      intros c [-> | [-> | ->]]; cbn; auto.
  - (* map *)
    unfold Map.
    match goal with
    | |- context [iterateKVPairsFromStore ?k ?x ?cb ?a ds] =>
        destruct (iterate_calls k x cb a ds) as (new & Hnew & Hlen & Hall);
        destruct (iterateKVPairsFromStore k x cb a ds) as [[[e |] kvol] ds1]
    end; cbn in Hnew |- *; exists new;
      (repeat split; [exact Hnew | exact Hlen |]);
      (eapply Forall_impl; [exact Hall |]);
      intros c [-> | [-> | ->]]; cbn; auto.
  - (* delete *)
    unfold DeleteObjectAtomic. destruct (KVObject.Skip o).
    { exists []. apply Hnone. apply deleteCache_calls. }
    unfold storeAtomicDelete.
    match goal with
    | |- context [invoke ?c ?m ds] =>
        pose proof (invoke_calls c m ds) as Hc; exists [c];
        destruct (invoke c m ds) as [[e |] ds1]
    end; cbn in Hc |- *.
    + repeat split; [exact Hc | lia | lia | repeat constructor].
    + rewrite deleteCache_calls.
      repeat split; [exact Hc | cbn; lia | cbn; lia | repeat constructor].
  - exists []. apply Hnone. reflexivity.
  - exists [kvstore.CallClose]. repeat split; [cbn; lia | cbn; lia | repeat constructor].
Qed.

End Traffic.

Lemma requests_make_few_calls_witness :
  exists new : list kvstore.Call,
    calls (serve bareStore (ReqMap parentKey exemplar)) = calls bareStore ++ new
    /\ (length new <= 3)%nat
    /\ True
    /\ Forall (permitted (ReqMap parentKey exemplar)) new.
Proof.
  exact (requests_make_few_calls bareStore (ReqMap parentKey exemplar) eq_refl).
Defined.

(** ** Opening a Store *)

Section Opening.

Context {B : Type} `{!kvstore.Store B}.
Variable boltdb_New : list string -> kvstore.Config -> error + B.

Lemma Split_cons (s : string) (sep : Ascii.ascii) :
  exists first rest, Split s sep = first :: rest.
Proof.
  destruct s as [| a s]; cbn [Split]; [eauto |].
  destruct (Ascii.eqb a sep); [eauto |].
  destruct (Split s sep); eauto.
Qed.

Lemma concat_Split (s : string) (sep : Ascii.ascii) :
  String.concat (String sep "") (Split s sep) = s.
Proof.
  induction s as [| a s IH]; [reflexivity |].
  cbn [Split]. destruct (Split_cons s sep) as (h & t & Hs). rewrite Hs in *.
  destruct (Ascii.eqb_spec a sep) as [-> | _].
  - change (String.concat (String sep "") ("" :: h :: t))
      with ("" +:+ (String sep "" +:+ String.concat (String sep "") (h :: t))).
    rewrite IH. reflexivity.
  - destruct t as [| t1 t2].
    + cbn [String.concat] in *. rewrite IH. reflexivity.
    + change (String.concat (String sep "") (String a h :: t1 :: t2))
        with (String a (h +:+ (String sep "" +:+ String.concat (String sep "") (t1 :: t2)))).
      change (String.concat (String sep "") (h :: t1 :: t2))
        with (h +:+ (String sep "" +:+ String.concat (String sep "") (t1 :: t2))) in IH.
      rewrite IH. reflexivity.
Qed.

Lemma Split_parts (s : string) (sep : Ascii.ascii) :
  Forall (fun part => hasByte sep part = false) (Split s sep).
Proof.
  induction s as [| a s IH]; [repeat constructor |].
  cbn [Split]. destruct (Ascii.eqb a sep) eqn:Ha.
  - constructor; [reflexivity | exact IH].
  - destruct (Split s sep) as [| h t].
    + constructor; [cbn; rewrite Ha; reflexivity | constructor].
    + inversion IH as [| ? ? Hh Ht]; subst.
      constructor; [cbn; rewrite Ha, Hh; reflexivity | exact Ht].
Qed.

Lemma Split_whole (s : string) (sep : Ascii.ascii) :
  hasByte sep s = false -> Split s sep = [s].
Proof.
  induction s as [| a s IH]; [reflexivity |].
  cbn [hasByte Split]. intros Hs. apply orb_false_iff in Hs as [Ha Hs].
  rewrite Ha, (IH Hs). reflexivity.
Qed.

Lemma hasByte_append (c : Ascii.ascii) (a b : string) :
  hasByte c (a +:+ b) = hasByte c a || hasByte c b.
Proof.
  induction a as [| x a IH]; [reflexivity |].
  rewrite append_cons. cbn [hasByte]. rewrite IH, orb_assoc. reflexivity.
Qed.

(** X14. [newClient] for the embedded backend hands [boltdb.New] the address
    cut at its commas (at least one endpoint, none with a comma in it, and
    joined by commas they give the address back) together with the
    configuration it was given, or an empty one for nil.  It returns the
    constructor's error as it is, and otherwise a Store of local scope over
    the backend just opened, with an empty Cache. *)
Theorem newClient_opens_endpoints (addr : string) (config : option kvstore.Config) :
  exists endpoints : list string,
    String.concat "," endpoints = addr
    /\ endpoints <> []
    /\ Forall (fun e => hasByte "," e = false) endpoints
    /\ (hasByte "," addr = false -> endpoints = [addr])
    /\ newClient boltdb_New kvstore.BOLTDB addr config =
         match boltdb_New endpoints
                 (match config with
                  | Some c => c
                  | None => kvstore.mkConfig "" 0
                  end) with
         | inl err => inl err
         | inr s => inr (mkStore scope.Local s (Some ∅) [])
         end.
Proof.
  exists (Split addr ","). split; [apply concat_Split |].
  split; [destruct (Split_cons addr ",") as (h & t & ->); discriminate |].
  split; [apply Split_parts |].
  split; [apply Split_whole |].
  unfold newClient. cbn [negb String.eqb].
  change (negb (kvstore.BOLTDB =? kvstore.BOLTDB)%string) with false. cbn iota.
  destruct config; destruct (boltdb_New _ _); reflexivity.
Qed.

Lemma eqb_append_nonempty (a : string) (x : Ascii.ascii) (b : string) :
  String.eqb (a +:+ String x b) "" = false.
Proof. destruct a; reflexivity. Qed.

(** X15. [New] on a default configuration opens the embedded backend at the
    data directory's [network/files/local-kv.db] with the bucket
    [libnetwork] and a one-minute timeout; nothing is substituted.  The
    empty data directory stands for [/var/lib/docker].  A data directory
    without a comma gives [boltdb.New] exactly one endpoint, the path. *)
Theorem New_on_DefaultScope (dataDir : string) :
  let path :=
    (if String.eqb dataDir "" then "/var/lib/docker" else dataDir)
    +:+ "/network/files/local-kv.db" in
  Address (Client (DefaultScope dataDir)) = path
  /\ DefaultScope "" = DefaultScope "/var/lib/docker"
  /\ New boltdb_New (DefaultScope dataDir) =
       newClient boltdb_New kvstore.BOLTDB path
         (Some (kvstore.mkConfig "libnetwork" Minute))
  /\ (hasByte "," dataDir = false ->
      New boltdb_New (DefaultScope dataDir) =
        match boltdb_New [path] (kvstore.mkConfig "libnetwork" Minute) with
        | inl err => inl err
        | inr s => inr (mkStore scope.Local s (Some ∅) [])
        end).
Proof.
  intros path.
  assert (Haddr : Address (Client (DefaultScope dataDir)) = path).
  { unfold DefaultScope, path, defaultPrefix. cbn [Client Address].
    destruct (String.eqb dataDir ""); reflexivity. }
  assert (Hnew : New boltdb_New (DefaultScope dataDir) =
                 newClient boltdb_New kvstore.BOLTDB path
                   (Some (kvstore.mkConfig "libnetwork" Minute))).
  { assert (Hp : String.eqb path "" = false).
    { unfold path. apply (eqb_append_nonempty _ "/"%char). }
    assert (Hpr : String.eqb (Provider (Client (DefaultScope dataDir))) "" = false)
      by reflexivity.
    unfold New. cbv zeta. rewrite Hpr, !Haddr, Hp. cbn [orb]. cbv iota.
    rewrite Haddr. reflexivity. }
  split; [exact Haddr |]. split; [reflexivity |]. split; [exact Hnew |].
  intros Hcomma. rewrite Hnew.
  destruct (newClient_opens_endpoints path (Some (kvstore.mkConfig "libnetwork" Minute)))
    as (endpoints & _ & _ & _ & Hone & Hclient).
  rewrite Hclient, Hone; [reflexivity |].
  unfold path. rewrite hasByte_append.
  destruct (String.eqb dataDir ""); [reflexivity |].
  rewrite Hcomma. reflexivity.
Qed.

Variable printConfig : discoverapi.configValue -> string.
Variable printData : discoverapi.DatastoreConfigData -> string.
Variable printError : error -> string.

(** X16. [FromConfig] refuses a configuration value that is neither nil nor a
    [*store.Config] without opening anything.  Otherwise it is [New] on
    the provider, the address and the configuration pointer: a Store [New]
    returns is returned, and an error of [New] is wrapped in a message.  So
    every error of [FromConfig] is a formatted one, never one of the
    sentinels, and every Store it returns has local scope and an empty
    Cache. *)
Theorem FromConfig_wraps_New (dsc : discoverapi.DatastoreConfigData) :
  let result := FromConfig boltdb_New printConfig printData printError dsc in
  (forall other,
     discoverapi.Config dsc = discoverapi.ConfigOther other ->
     result = inl (kvstore.Errorf ("cannot parse store configuration: "
                                   +:+ printConfig (discoverapi.Config dsc))))
  /\ (forall pointer : option kvstore.Config,
        (discoverapi.Config dsc = discoverapi.ConfigNil /\ pointer = None)
        \/ discoverapi.Config dsc = discoverapi.ConfigStore pointer ->
        let made :=
          New boltdb_New
            {| Client := {| Provider := discoverapi.Provider dsc;
                            Address := discoverapi.Address dsc;
                            Config := pointer |} |} in
        (forall ds, made = inr ds -> result = inr ds)
        /\ (forall err, made = inl err ->
            result =
              inl (kvstore.Errorf
                     ((("failed to construct datastore client from datastore configuration "
                        +:+ printData dsc) +:+ ": ") +:+ printError err))))
  /\ (forall err, result = inl err -> exists msg, err = kvstore.Errorf msg)
  /\ (forall ds, result = inr ds -> scope ds = scope.Local /\ cache ds = Some ∅).
Proof.
  intros result. subst result. unfold FromConfig.
  split; [| split; [| split]].
  - intros other ->. reflexivity.
  - intros pointer [[-> ->] | ->]; cbn; split.
    + intros ds ->. reflexivity.
    + intros err ->. reflexivity.
    + intros ds ->. reflexivity.
    + intros err ->. reflexivity.
  - intros err. destruct (discoverapi.Config dsc) as [| pointer | other]; cbn.
    + destruct (New boltdb_New _); intros [= <-]; eauto.
    + destruct (New boltdb_New _); intros [= <-]; eauto.
    + intros [= <-]. eauto.
  - intros ds. destruct (discoverapi.Config dsc) as [| pointer | other]; cbn.
    + destruct (New boltdb_New _) as [e | ds0] eqn:Hnew; intros [= <-].
      unfold New in Hnew. apply newClient_built in Hnew as (? & ? & _). auto.
    + destruct (New boltdb_New _) as [e | ds0] eqn:Hnew; intros [= <-].
      unfold New in Hnew. apply newClient_built in Hnew as (? & ? & _). auto.
    + discriminate.
Qed.

End Opening.

Lemma New_on_DefaultScope_witness :
  New openEmpty (DefaultScope "/data") = inr freshStore
  /\ Address (Client (DefaultScope "/data")) = "/data/network/files/local-kv.db".
Proof.
  destruct (New_on_DefaultScope openEmpty "/data") as (Haddr & _ & _ & Hone).
  split; [| exact Haddr].
  rewrite Hone by reflexivity. reflexivity.
Defined.

Lemma FromConfig_wraps_New_witness :
  FromConfig openEmpty (fun _ => "config") (fun _ => "data") (fun _ => "error")
    (discoverapi.mkDatastoreConfigData "local" "boltdb" "/tmp/kv.db"
       (discoverapi.ConfigOther "42"))
    = inl (kvstore.Errorf "cannot parse store configuration: config")
  /\ FromConfig openEmpty (fun _ => "config") (fun _ => "data") (fun _ => "error")
       (discoverapi.mkDatastoreConfigData "local" "boltdb" "/tmp/kv.db"
          (discoverapi.ConfigStore None))
     = inr freshStore
  /\ FromConfig openFails (fun _ => "config") (fun _ => "data") (fun _ => "error")
       (discoverapi.mkDatastoreConfigData "local" "boltdb" "/tmp/kv.db" discoverapi.ConfigNil)
     = inl (kvstore.Errorf
              "failed to construct datastore client from datastore configuration data: error").
Proof.
  split; [| split].
  - destruct (FromConfig_wraps_New openEmpty (fun _ => "config") (fun _ => "data")
                (fun _ => "error")
                (discoverapi.mkDatastoreConfigData "local" "boltdb" "/tmp/kv.db"
                   (discoverapi.ConfigOther "42")))
      as (Hother & _).
    apply (Hother "42"). reflexivity.
  - destruct (FromConfig_wraps_New openEmpty (fun _ => "config") (fun _ => "data")
                (fun _ => "error")
                (discoverapi.mkDatastoreConfigData "local" "boltdb" "/tmp/kv.db"
                   (discoverapi.ConfigStore None)))
      as (_ & Hnew & _).
    destruct (Hnew None) as [Hok _]; [right; reflexivity |].
    apply Hok. reflexivity.
  - destruct (FromConfig_wraps_New openFails (fun _ => "config") (fun _ => "data")
                (fun _ => "error")
                (discoverapi.mkDatastoreConfigData "local" "boltdb" "/tmp/kv.db"
                   discoverapi.ConfigNil))
      as (_ & Hnew & _).
    destruct (Hnew None) as [_ Herr]; [left; split; reflexivity |].
    apply (Herr (kvstore.BackendFailure "open: permission denied")). reflexivity.
Defined.

Lemma newClient_opens_endpoints_witness :
  newClient openEmpty kvstore.BOLTDB "/tmp/kv.db" None = inr freshStore.
Proof.
  destruct (newClient_opens_endpoints openEmpty "/tmp/kv.db" None)
    as (endpoints & _ & _ & _ & Hone & Hclient).
  rewrite Hclient, Hone by reflexivity. reflexivity.
Defined.
